(** * yfinance/multi.py: the multi-symbol downloader

    A shallow embedding of [download], [_realign_dfs], [_download_one] and
    [_download_one_threaded] of [yfinance/multi.py], together with the part
    of pandas these functions call, and the properties of the orchestrator
    stated in the specification.

    Conventions.
    - Python [str] is [string]; [str.upper] acts on the ASCII letters.
    - A Python [dict] is an insertion-ordered association list ([pydict]):
      [pd.concat(..., keys=shared._DFS.keys())] depends on that order.
    - [list(set(...))] is [elements] of a [gset string]; Python leaves the
      iteration order of a set unspecified and no proof below uses more than
      [NoDup_elements] and [elem_of_elements].
    - A float cell is [option Z]: [None] is NaN, the payload is opaque data
      that the code only copies, compares and tests for NaN.
    - Exceptions are a [Raised] outcome of the [Outcome] type.
    - The progress bar is not modelled, and of the logger only what lines
      157-185 send to it ([log_failures]); assignments to the shared
      dictionaries, fetches and concatenations are recorded in an event
      trace.
    - Threads: a worker is the list of the statements it runs; the
      synchronous loop runs each list to its end, the loop with threads lets
      the scheduler, which is data of the environment, interleave them.  One
      call is modelled, begun while no worker of an earlier call is running. *)

From Stdlib Require Import ZArith List String Ascii Bool Lia Permutation Sorted.
From stdpp Require Import base decidable option list gmap strings.

Import ListNotations.
Local Open Scope Z_scope.
Local Open Scope string_scope.

(** ** Python strings *)

Module PyStr.

(** [c.upper()] on one ASCII character. *)
Definition upper_ascii (c : ascii) : ascii :=
  let n := N_of_ascii c in
  if ((97 <=? n) && (n <=? 122))%N then ascii_of_N (n - 32) else c.

(** [s.upper()] *)
Fixpoint upper (s : string) : string :=
  match s with
  | EmptyString => EmptyString
  | String c r => String (upper_ascii c) (upper r)
  end.

(** [s[1:]]: the string without its first character; [''[1:]] is ['']. *)
Definition slice_from_1 (s : string) : string :=
  match s with
  | EmptyString => EmptyString
  | String _ r => r
  end.

(** [x in l] for a list of strings. *)
Definition str_in (x : string) (l : list string) : bool :=
  existsb (String.eqb x) l.

(** Python's whitespace test on the ASCII range, as [str.split()] uses it. *)
Definition is_space (c : ascii) : bool :=
  let n := N_of_ascii c in
  ((n =? 32) || ((9 <=? n) && (n <=? 13)) || ((28 <=? n) && (n <=? 31)))%N.

(** [s.replace(',', ' ')] *)
Fixpoint replace_comma (s : string) : string :=
  match s with
  | EmptyString => EmptyString
  | String c r =>
      String (if Ascii.eqb c ","%char then " "%char else c) (replace_comma r)
  end.

(** [s.split()]: maximal runs of non-whitespace characters.  [cur] is the
    word being read, reversed. *)
Fixpoint split_ws_aux (s : string) (cur : list ascii) : list string :=
  let flush := match cur with
               | [] => []
               | _ => [string_of_list_ascii (rev cur)]
               end in
  match s with
  | EmptyString => flush
  | String c r =>
      if is_space c then flush ++ split_ws_aux r []
      else split_ws_aux r (c :: cur)
  end.

Definition split_ws (s : string) : list string := split_ws_aux s [].

(** [s.replace('', new)]: [new] before every character and at the end. *)
Fixpoint interleave (new s : string) : string :=
  match s with
  | EmptyString => new
  | String c r => String.append new (String c (interleave new r))
  end.

(** [s.replace(old, new)] for a non-empty [old], read from the left: where
    [old] begins, [new] is written and the [skip] characters left of [old]
    are passed over; occurrences do not overlap. *)
Fixpoint replace_from (old new : string) (skip : nat) (s : string) : string :=
  match s with
  | EmptyString => EmptyString
  | String c r =>
      match skip with
      | S k => replace_from old new k r
      | O =>
          if String.prefix old s
          then String.append new (replace_from old new (String.length old - 1) r)
          else String c (replace_from old new 0 r)
      end
  end.

(** [s.replace(old, new)] *)
Definition replace (old new s : string) : string :=
  match old with
  | EmptyString => interleave new s
  | _ => replace_from old new 0 s
  end.

(** [sub in s] for strings. *)
Fixpoint contains (sub s : string) : bool :=
  String.prefix sub s
  || match s with
     | EmptyString => false
     | String _ r => contains sub r
     end.

(** The letters whose case [str.upper] changes, lower case next to upper
    case. *)
Definition letters : list (ascii * ascii) :=
  combine (list_ascii_of_string "abcdefghijklmnopqrstuvwxyz")
          (list_ascii_of_string "ABCDEFGHIJKLMNOPQRSTUVWXYZ").

(** The same character, or the same letter once in lower and once in upper
    case. *)
Definition same_letter (c d : ascii) : bool :=
  Ascii.eqb c d
  || existsb (fun p => (Ascii.eqb c (fst p) && Ascii.eqb d (snd p))
                       || (Ascii.eqb c (snd p) && Ascii.eqb d (fst p)))
             letters.

(** Two tickers that are equal or differ only in the case of letters. *)
Fixpoint equal_ignoring_case (s t : string) : bool :=
  match s, t with
  | EmptyString, EmptyString => true
  | String c s', String d t' => same_letter c d && equal_ignoring_case s' t'
  | _, _ => false
  end.

End PyStr.

(** ** The default of [ignore_tz] (multi.py, lines 91-97) *)

(** [ignore_tz] as the caller passes it: [None], [True] or [False]. *)
Definition default_ignore_tz (ignore_tz : option bool) (interval : string) : bool :=
  match ignore_tz with
  | None =>
      if PyStr.str_in (PyStr.slice_from_1 interval) ["m"; "h"]
      then false
      else true
  | Some b => b
  end.

(** The intervals the docstring of [download] lists as valid. *)
Definition valid_intervals : list string :=
  ["1m"; "2m"; "5m"; "15m"; "30m"; "60m"; "90m"; "1h";
   "1d"; "5d"; "1wk"; "1mo"; "3mo"].

(** ** Outcomes of fallible code *)

(** A Python call returns, raises, or (for the polling loop of [download])
    never comes back. *)
Inductive Outcome (A : Type) : Type :=
| Ok (a : A)
| Raised (exc : string)
| Hangs.

Arguments Ok {A} a.
Arguments Raised {A} exc.
Arguments Hangs {A}.

Definition bind {A B} (o : Outcome A) (k : A -> Outcome B) : Outcome B :=
  match o with
  | Ok a => k a
  | Raised e => Raised e
  | Hangs => Hangs
  end.

Notation "'let!' x ':=' c1 'in' c2" := (bind c1 (fun x => c2))
  (at level 10, x name, c1 at level 100, c2 at level 200).

Definition is_ok {A} (o : Outcome A) : bool :=
  match o with Ok _ => true | _ => false end.

(** ** Python dictionaries *)

(** A [dict] keeps its keys in insertion order; assigning an existing key
    replaces the value in place, assigning a new key appends it. *)
Definition pydict (V : Type) : Type := list (string * V).

Fixpoint dict_get {V} (k : string) (d : pydict V) : option V :=
  match d with
  | [] => None
  | (k', v) :: r => if String.eqb k k' then Some v else dict_get k r
  end.

Fixpoint dict_set {V} (k : string) (v : V) (d : pydict V) : pydict V :=
  match d with
  | [] => [(k, v)]
  | (k', v') :: r =>
      if String.eqb k k' then (k, v) :: r else (k', v') :: dict_set k v r
  end.

Definition dict_keys {V} (d : pydict V) : list string := map fst d.
Definition dict_values {V} (d : pydict V) : list V := map snd d.

(** ** The part of pandas that [multi.py] calls *)

Module Pandas.

(** A cell of a price table: [None] is NaN. *)
Definition Cell : Type := option Z.

(** The row index of a frame.  [ObjectIndex] is a plain [Index] of dtype
    object (what [DataFrame(index=[])] gets); [DatetimeIndex tz] is a
    [DatetimeIndex], zone-naive when [tz = None].  A zone is its offset
    from UTC: the labels of a zone-aware index are UTC instants, those of a
    zone-naive index are wall-clock values, and the wall clock of instant [t]
    in zone [off] is [t + off]. *)
Inductive IndexKind : Type :=
| ObjectIndex
| DatetimeIndex (tz : option Z).

#[global] Instance IndexKind_eq_dec : EqDecision IndexKind.
Proof. solve_decision. Defined.

(** A frame with one level of column names, row by row. *)
Record DataFrame : Type := mkDF {
  df_kind : IndexKind;
  df_columns : list string;
  df_rows : list (Z * list Cell)
}.

#[global] Instance DataFrame_eq_dec : EqDecision DataFrame.
Proof. solve_decision. Defined.

(** [df.index] *)
Definition Index : Type := (IndexKind * list Z)%type.

Definition labels (df : DataFrame) : list Z := map fst (df_rows df).
Definition index (df : DataFrame) : Index := (df_kind df, labels df).

(** [len(df)] and [df.shape[0]] *)
Definition len (df : DataFrame) : nat := length (df_rows df).

(** [not index.is_unique] *)
Definition has_duplicates (l : list Z) : bool := negb (bool_decide (NoDup l)).

Definition is_aware (k : IndexKind) : bool :=
  match k with DatetimeIndex (Some _) => true | _ => false end.

Definition is_naive (k : IndexKind) : bool :=
  match k with DatetimeIndex None => true | _ => false end.

(** [a.equals(b)] on indexes: the same labels, and the same dtype unless one
    side is an object index, which pandas casts before comparing. *)
Definition index_equals (a b : Index) : bool :=
  bool_decide (snd a = snd b)
  && (bool_decide (fst a = fst b)
      || bool_decide (fst a = ObjectIndex) || bool_decide (fst b = ObjectIndex)).

(** Labels of two indexes can match unless one index is zone-naive and the
    other zone-aware. *)
Definition comparable (a b : IndexKind) : bool :=
  negb ((is_naive a && is_aware b) || (is_aware a && is_naive b)).

Definition nan_row (n : nat) : list Cell := repeat None n.

Definition not_nan (c : Cell) : bool :=
  match c with Some _ => true | None => false end.

(** The row carrying label [l], if any (the first one). *)
Fixpoint lookup_row (l : Z) (rows : list (Z * list Cell)) : option (list Cell) :=
  match rows with
  | [] => None
  | (l', r) :: rest => if Z.eqb l l' then Some r else lookup_row l rest
  end.

(** The rows of [df] laid out on the labels [target]: the row of the same
    label where there is one, NaN otherwise. *)
Definition take_rows (target : Index) (df : DataFrame) : list (Z * list Cell) :=
  map (fun l =>
         (l, if comparable (fst target) (df_kind df)
             then default (nan_row (length (df_columns df)))
                          (lookup_row l (df_rows df))
             else nan_row (length (df_columns df))))
      (snd target).

(** [df.reindex(target)], as [DataFrame(index=target, data=df)] performs it:
    an index equal to the target is kept, an index with repeated labels
    cannot be reindexed. *)
Definition reindex (target : Index) (df : DataFrame) : Outcome DataFrame :=
  if index_equals target (index df)
  then Ok (mkDF (fst target) (df_columns df) (df_rows df))
  else if has_duplicates (labels df)
  then Raised "ValueError: cannot reindex on an axis with duplicate labels"
  else Ok (mkDF (fst target) (df_columns df) (take_rows target df)).

(** [DataFrame(index=idx, data=df)]; [idx] may be [None]. *)
Definition DataFrame_from (idx : option Index) (df : DataFrame) : Outcome DataFrame :=
  match idx with
  | None => Ok df
  | Some target => reindex target df
  end.

(** [df.drop_duplicates()]: rows whose values repeat those of an earlier row
    are dropped, whatever their label; NaN equals NaN here.  A frame without
    columns or without rows is [df.empty] and is returned as it is. *)
Fixpoint drop_duplicate_rows (seen : list (list Cell))
    (rows : list (Z * list Cell)) : list (Z * list Cell) :=
  match rows with
  | [] => []
  | (l, r) :: rest =>
      if bool_decide (r ∈ seen) then drop_duplicate_rows seen rest
      else (l, r) :: drop_duplicate_rows (r :: seen) rest
  end.

Definition drop_duplicates (df : DataFrame) : DataFrame :=
  match df_columns df with
  | [] => df
  | _ => mkDF (df_kind df) (df_columns df) (drop_duplicate_rows [] (df_rows df))
  end.

(** [df.dropna()]: rows with a NaN cell are dropped. *)
Definition dropna (df : DataFrame) : DataFrame :=
  mkDF (df_kind df) (df_columns df)
       (List.filter (fun r => forallb not_nan (snd r)) (df_rows df)).

(** [df.loc[~df.index.duplicated(keep='last')]]: of the rows sharing a label
    only the last one stays. *)
Fixpoint drop_duplicated_index (rows : list (Z * list Cell)) : list (Z * list Cell) :=
  match rows with
  | [] => []
  | (l, r) :: rest =>
      if bool_decide (l ∈ map fst rest) then drop_duplicated_index rest
      else (l, r) :: drop_duplicated_index rest
  end.

Definition loc_not_duplicated_last (df : DataFrame) : DataFrame :=
  mkDF (df_kind df) (df_columns df) (drop_duplicated_index (df_rows df)).

(** *** Sorting *)

Fixpoint insert_sorted {A} (leb : A -> A -> bool) (x : A) (l : list A) : list A :=
  match l with
  | [] => [x]
  | y :: r => if leb x y then x :: l else y :: insert_sorted leb x r
  end.

(** A stable sort. *)
Fixpoint isort {A} (leb : A -> A -> bool) (l : list A) : list A :=
  match l with
  | [] => []
  | x :: r => insert_sorted leb x (isort leb r)
  end.

(** Tuples of column labels, compared level by level. *)
Fixpoint key_leb (a b : list string) : bool :=
  match a, b with
  | [], _ => true
  | _ :: _, [] => false
  | x :: a', y :: b' =>
      match String.compare x y with
      | Lt => true
      | Gt => false
      | Eq => key_leb a' b'
      end
  end.

(** *** Joining indexes *)

Fixpoint remove_first (x : Z) (l : list Z) : list Z :=
  match l with
  | [] => []
  | y :: r => if Z.eqb x y then r else y :: remove_first x r
  end.

(** The labels of [b] that [budget] does not already account for, counting
    repetitions. *)
Fixpoint excess (b budget : list Z) : list Z :=
  match b with
  | [] => []
  | x :: b' =>
      if bool_decide (x ∈ budget) then excess b' (remove_first x budget)
      else x :: excess b' budget
  end.

(** [a.union(b, sort=False)]: every label as often as the side that repeats
    it most. *)
Definition union_with_duplicates (a b : list Z) : list Z := a ++ excess b a.

(** The outer join of the row indexes, sorted ([sort=True]). *)
Definition combined_labels (ls : list (list Z)) : list Z :=
  isort Z.leb (foldl union_with_duplicates [] ls).

(** [union_indexes] refuses to join zone-naive with zone-aware
    [DatetimeIndex]es; object indexes do not count. *)
Definition mixed_awareness (kinds : list IndexKind) : bool :=
  existsb is_naive kinds && existsb is_aware kinds.

(** The dtype of the joined index: the common one; UTC for zone-aware indexes
    of different zones; object otherwise. *)
Definition combined_kind (kinds : list IndexKind) : IndexKind :=
  match kinds with
  | [] => ObjectIndex
  | k :: r =>
      if forallb (fun k' => bool_decide (k' = k)) r then k
      else if forallb is_aware kinds then DatetimeIndex (Some 0)
      else ObjectIndex
  end.

(** *** Tables with several levels of column names *)

(** The table [download] returns: [t_names] names the column levels, a
    column key has one label per level, the cells of a column follow
    [t_index]. *)
Record Table : Type := mkTable {
  t_kind : IndexKind;
  t_index : list Z;
  t_names : list (option string);
  t_columns : list (list string * list Cell)
}.

#[global] Instance Table_eq_dec : EqDecision Table.
Proof. solve_decision. Defined.

Definition column_cells (j : nat) (rows : list (Z * list Cell)) : list Cell :=
  map (fun r => nth j (snd r) None) rows.

(** The columns of [df] under the outer key [key]. *)
Definition frame_columns (key : string) (df : DataFrame)
    : list (list string * list Cell) :=
  imap (fun j c => ([key; c], column_cells j (df_rows df))) (df_columns df).

Fixpoint collect {A} (l : list (Outcome A)) : Outcome (list A) :=
  match l with
  | [] => Ok []
  | o :: r => let! a := o in let! rest := collect r in Ok (a :: rest)
  end.

(** [pd.concat(frames.values(), axis=1, sort=True, keys=frames.keys(),
    names=['Ticker', 'Price'])]. *)
Definition concat_axis1 (frames : list (string * DataFrame)) : Outcome Table :=
  match frames with
  | [] => Raised "ValueError: No objects to concatenate"
  | _ =>
      let kinds := map (fun f => df_kind (snd f)) frames in
      if mixed_awareness kinds
      then Raised "TypeError: Cannot join tz-naive with tz-aware DatetimeIndex"
      else
        let target : Index :=
          (combined_kind kinds,
           combined_labels (map (fun f => labels (snd f)) frames)) in
        let! cols :=
          collect (map (fun f => let! r := reindex target (snd f) in
                                 Ok (frame_columns (fst f) r)) frames) in
        Ok (mkTable (fst target) (snd target)
                    [Some "Ticker"; Some "Price"] (List.concat cols))
  end.

(** The position of a column name. *)
Fixpoint position (c : string) (cols : list string) : option nat :=
  match cols with
  | [] => None
  | c' :: r => if String.eqb c c' then Some 0%nat
               else option_map S (position c r)
  end.

(** The cells of a row laid out on the column names [cols]. *)
Definition relayout (cols : list string) (df : DataFrame) (row : list Cell)
    : list Cell :=
  map (fun c => match position c (df_columns df) with
                | Some j => nth j row None
                | None => None
                end) cols.

(** [pd.concat([a, b], axis=0, sort=True)]: the rows of [a], then those of
    [b], on the columns of both, joined and sorted. *)
Definition concat_axis0 (a b : DataFrame) : DataFrame :=
  let cols := isort String.leb (remove_dups (df_columns a ++ df_columns b)) in
  mkDF (if bool_decide (df_kind a = df_kind b) then df_kind a else ObjectIndex)
       cols
       (map (fun r => (fst r, relayout cols a (snd r))) (df_rows a)
        ++ map (fun r => (fst r, relayout cols b (snd r))) (df_rows b)).

(** *** Time zones *)

(** [df.index = df.index.tz_localize(None)]: the wall clock of every
    instant; a plain [Index] has no such method. *)
Definition tz_localize_None (df : DataFrame) : Outcome DataFrame :=
  match df_kind df with
  | ObjectIndex =>
      Raised "AttributeError: 'Index' object has no attribute 'tz_localize'"
  | DatetimeIndex None => Ok df
  | DatetimeIndex (Some off) =>
      Ok (mkDF (DatetimeIndex None) (df_columns df)
               (map (fun r => (fst r + off, snd r)) (df_rows df)))
  end.

(** [data.index = pd.to_datetime(data.index, utc=True)]: instants stay,
    wall-clock values are read as UTC. *)
Definition to_datetime_utc (t : Table) : Table :=
  mkTable (DatetimeIndex (Some 0)) (t_index t) (t_names t) (t_columns t).

(** *** Column labels *)

Definition map_keys (f : list string -> list string) (t : Table) : Table :=
  mkTable (t_kind t) (t_index t) (t_names t)
          (map (fun c => (f (fst c), snd c)) (t_columns t)).

(** [data.rename(columns=mapping, inplace=True)]: on a [MultiIndex] the
    mapping applies to the labels of every level. *)
Definition rename_label (mapping : pydict string) (x : string) : string :=
  default x (dict_get x mapping).

Definition rename_columns (mapping : pydict string) (t : Table) : Table :=
  map_keys (map (rename_label mapping)) t.

Definition swap01 {A} (l : list A) : list A :=
  match l with
  | a :: b :: r => b :: a :: r
  | _ => l
  end.

(** [data.columns = data.columns.swaplevel(0, 1)] *)
Definition swaplevel_0_1 (t : Table) : Table :=
  mkTable (t_kind t) (t_index t) (swap01 (t_names t))
          (map (fun c => (swap01 (fst c), snd c)) (t_columns t)).

(** [data.sort_index(level=0, axis=1, inplace=True)] *)
Definition sort_columns (t : Table) : Table :=
  mkTable (t_kind t) (t_index t) (t_names t)
          (isort (fun a b => key_leb (fst a) (fst b)) (t_columns t)).

Definition remove_nth {A} (i : nat) (l : list A) : list A :=
  firstn i l ++ skipn (S i) l.

(** [data.droplevel(i, axis=1).rename_axis(None, axis=1)] *)
Definition droplevel_rename_axis (i : nat) (t : Table) : Table :=
  mkTable (t_kind t) (t_index t) [None]
          (map (fun c => (remove_nth i (fst c), snd c)) (t_columns t)).

End Pandas.

(** ** yfinance/utils.py *)

Module Utils.

Import Pandas.

Definition price_columns : list string :=
  ["Open"; "High"; "Low"; "Close"; "Adj Close"; "Volume"].

(** Modelled from the spec: [utils.empty_df], which [yfinance/utils.py]
    defines outside the sources at hand.  The specification calls its result
    "an empty placeholder series"; its columns are the fields of a Bar (open,
    high, low, close, adjClose, volume), all NaN, on the index it is given
    (no rows without one). *)
Definition empty_df (idx : option Index) : DataFrame :=
  match idx with
  | None => mkDF ObjectIndex price_columns []
  | Some (k, ls) =>
      mkDF k price_columns
           (map (fun l => (l, nan_row (length price_columns))) ls)
  end.

End Utils.

(** ** yfinance/multi.py *)

Module Multi.

Import Pandas Utils.

(** *** The collaborators of [download] *)

(** The keyword arguments of [Ticker.history] that [_download_one] sets;
    [raise_errors] is always [True] there. *)
Record HistoryKwargs : Type := mkKwargs {
  kw_period : string;
  kw_interval : string;
  kw_start : option string;
  kw_end : option string;
  kw_prepost : bool;
  kw_actions : bool;
  kw_auto_adjust : bool;
  kw_back_adjust : bool;
  kw_repair : bool;
  kw_proxy : option string;
  kw_rounding : bool;
  kw_keepna : bool;
  kw_timeout : option Z
}.

(** What [Ticker(ticker).history(...)] does: it returns a frame, or raises
    an exception [e] that line 264 catches, of which the code keeps [repr(e)]
    and [traceback.format_exc()].  Line 264 reads [except Exception]: what is
    no [Exception] (a [KeyboardInterrupt], a [SystemExit]) is not caught and
    is no outcome here. *)
Inductive Fetched : Type :=
| Returns (data : DataFrame)
| Raises (repr : string) (format_exc : string).

(** Everything [download] reads from outside.  [schedule] and [landing]
    stand for the thread scheduler.  The numbers of [schedule] choose, one
    after the other, which of the running workers is the next to assign its
    result to [shared._DFS].  [landing] names, in the order in which they
    happen, the steps that workers take after that assignment and before
    [download] returns: every entry lets the worker of that ticker run its
    next statement.  What a worker has not run by then, it runs after the
    return. *)
Record Env : Type := mkEnv {
  history : string -> HistoryKwargs -> Fetched;
  is_isin : string -> bool;
  get_ticker_by_isin : string -> string;
  debug_logging : bool;
  cpu_count : Z;
  schedule : list nat;
  landing : list string
}.

(** *** The module [shared] and the trace of a call *)

Inductive Event : Type :=
| Fetch (ticker : string)
| SetDFS (key : string)
| SetERRORS (key : string)
| SetTRACEBACKS (key : string)
| SetISINS (key : string)
| Localize (key : string)
| Concat (frames : list (string * DataFrame))
| Realign.

#[global] Instance Event_eq_dec : EqDecision Event.
Proof. solve_decision. Defined.

(** [shared._DFS], [shared._ERRORS], [shared._TRACEBACKS], [shared._ISINS],
    and the events of the call so far, oldest first. *)
Record Shared : Type := mkShared {
  _DFS : pydict DataFrame;
  _ERRORS : pydict string;
  _TRACEBACKS : pydict string;
  _ISINS : pydict string;
  trace : list Event
}.

Definition log (e : Event) (st : Shared) : Shared :=
  mkShared (_DFS st) (_ERRORS st) (_TRACEBACKS st) (_ISINS st) (trace st ++ [e]).

(** [shared._DFS[key] = df] *)
Definition set_DFS (key : string) (df : DataFrame) (st : Shared) : Shared :=
  mkShared (dict_set key df (_DFS st)) (_ERRORS st) (_TRACEBACKS st) (_ISINS st)
           (trace st ++ [SetDFS key]).

(** [shared._ERRORS[key] = e] *)
Definition set_ERRORS (key : string) (e : string) (st : Shared) : Shared :=
  mkShared (_DFS st) (dict_set key e (_ERRORS st)) (_TRACEBACKS st) (_ISINS st)
           (trace st ++ [SetERRORS key]).

(** [shared._TRACEBACKS[key] = tb] *)
Definition set_TRACEBACKS (key : string) (tb : string) (st : Shared) : Shared :=
  mkShared (_DFS st) (_ERRORS st) (dict_set key tb (_TRACEBACKS st)) (_ISINS st)
           (trace st ++ [SetTRACEBACKS key]).

(** [shared._ISINS[key] = isin] *)
Definition set_ISINS (key : string) (isin : string) (st : Shared) : Shared :=
  mkShared (_DFS st) (_ERRORS st) (_TRACEBACKS st) (dict_set key isin (_ISINS st))
           (trace st ++ [SetISINS key]).

(** [shared._DFS[key].index = ...]: the frame under [key] changes, the
    dictionary keeps its keys. *)
Definition mutate_DFS (key : string) (df : DataFrame) (st : Shared) : Shared :=
  mkShared (dict_set key df (_DFS st)) (_ERRORS st) (_TRACEBACKS st) (_ISINS st)
           (trace st ++ [Localize key]).

(** *** [_download_one] (lines 249-272) *)

(** The statements of [_download_one] that the rest of the program can see:
    the call of [Ticker.history] (line 256) and the assignments to the
    module [shared] (lines 266-268 and 270). *)
Inductive Stmt : Type :=
| CallHistory (ticker : string)
| AssignDFS (key : string) (df : DataFrame)
| AssignERRORS (key : string) (e : string)
| AssignTRACEBACKS (key : string) (tb : string).

#[global] Instance Stmt_eq_dec : EqDecision Stmt.
Proof. solve_decision. Defined.

Definition perform (st : Shared) (s : Stmt) : Shared :=
  match s with
  | CallHistory ticker => log (Fetch ticker) st
  | AssignDFS key df => set_DFS key df st
  | AssignERRORS key e => set_ERRORS key e st
  | AssignTRACEBACKS key tb => set_TRACEBACKS key tb st
  end.

(** Statements run one after the other, nothing in between. *)
Definition run (l : list Stmt) (st : Shared) : Shared := foldl perform st l.

(** One call of [_download_one]: what it returns and the statements it runs,
    in their order. *)
Definition _download_one (env : Env) (ticker : string)
    (start end_ : option string) (auto_adjust back_adjust repair actions : bool)
    (period interval : string) (prepost : bool) (proxy : option string)
    (rounding keepna : bool) (timeout : option Z)
    : option DataFrame * list Stmt :=
  match history env ticker
          (mkKwargs period interval start end_ prepost actions auto_adjust
                    back_adjust repair proxy rounding keepna timeout) with
  | Raises e tb =>
      (None,
       [CallHistory ticker;
        AssignDFS (PyStr.upper ticker) (empty_df None);
        AssignERRORS (PyStr.upper ticker) e;
        AssignTRACEBACKS (PyStr.upper ticker) tb])
  | Returns data =>
      (Some data, [CallHistory ticker; AssignDFS (PyStr.upper ticker) data])
  end.

(** *** [_download_one_threaded] (lines 236-246)

    The body of one worker: it passes its arguments on by position, and runs
    what [_download_one] runs. *)
Definition _download_one_threaded (env : Env) (ticker : string)
    (start end_ : option string) (auto_adjust back_adjust repair actions : bool)
    (progress : bool) (period interval : string) (prepost : bool)
    (proxy : option string) (keepna rounding : bool) (timeout : option Z)
    : list Stmt :=
  snd (_download_one env ticker start end_ auto_adjust back_adjust repair
                     actions period interval prepost proxy rounding keepna
                     timeout).

(** *** [_realign_dfs] (lines 213-233) *)

(** Lines 214-220: the index of the first frame longer than all before it. *)
Definition reference_index (dfs : list DataFrame) : option Index :=
  snd (foldl (fun (acc : nat * option Index) df =>
                if (fst acc <? len df)%nat then (len df, Some (index df))
                else acc)
             (0%nat, None) dfs).

(** Lines 223-229: the value first assigned to [shared._DFS[key]]. *)
Definition realigned (idx : option Index) (df : DataFrame) : DataFrame :=
  match DataFrame_from idx df with
  | Ok r => drop_duplicates r
  | _ => concat_axis0 (empty_df idx) (dropna df)
  end.

Definition _realign_dfs (st : Shared) : Shared :=
  let idx := reference_index (dict_values (_DFS st)) in
  foldl (fun st key =>
           match dict_get key (_DFS st) with
           | Some df =>
               let first := realigned idx df in
               let st := set_DFS key first st in
               set_DFS key (loc_not_duplicated_last first) st
           | None => st
           end)
        st (dict_keys (_DFS st)).

(** *** [download] (lines 38-210) *)

(** [tickers]: a string or a list (set, tuple) of strings. *)
Inductive Tickers : Type :=
| TickerStr (s : string)
| TickerList (l : list string).

(** [threads]: a bool or an int. *)
Inductive Threads : Type :=
| ThreadsBool (b : bool)
| ThreadsInt (n : Z).

Definition truthy (t : Threads) : bool :=
  match t with
  | ThreadsBool b => b
  | ThreadsInt n => negb (Z.eqb n 0)
  end.

(** The arguments of [download]; [session] only reaches the collaborators
    and [progress] only the progress bar. *)
Record Args : Type := mkArgs {
  tickers : Tickers;
  start : option string;
  end_ : option string;
  actions : bool;
  threads : Threads;
  ignore_tz : option bool;
  group_by : string;
  auto_adjust : bool;
  back_adjust : bool;
  repair : bool;
  keepna : bool;
  progress : bool;
  period : string;
  interval : string;
  prepost : bool;
  proxy : option string;
  rounding : bool;
  timeout : option Z;
  multi_level_index : bool
}.

(** Lines 78-89: with DEBUG logging the threads are switched off. *)
Definition effective_threads (env : Env) (a : Args) : Threads :=
  if debug_logging env && truthy (threads a) then ThreadsBool false
  else threads a.

(** Lines 99-101 *)
Definition ticker_list (t : Tickers) : list string :=
  match t with
  | TickerList l => l
  | TickerStr s => PyStr.split_ws (PyStr.replace_comma s)
  end.

(** Lines 103-113: ISINs are replaced by their ticker, which is remembered
    in [shared._ISINS]. *)
Fixpoint resolve_isins (env : Env) (l : list string) (st : Shared)
    : list string * Shared :=
  match l with
  | [] => ([], st)
  | ticker :: rest =>
      if is_isin env ticker then
        let isin := ticker in
        let ticker := get_ticker_by_isin env ticker in
        let st := set_ISINS ticker isin st in
        let (r, st) := resolve_isins env rest st in
        (ticker :: r, st)
      else
        let (r, st) := resolve_isins env rest st in
        (ticker :: r, st)
  end.

(** Line 115: [list(set([ticker.upper() for ticker in tickers]))] *)
Definition distinct_upper (l : list string) : list string :=
  elements (list_to_set (map PyStr.upper l) : gset string).

(** The [n]-th element and the others. *)
Fixpoint take_nth {A} (n : nat) (l : list A) {struct l} : option (A * list A) :=
  match l with
  | [] => None
  | x :: r =>
      match n with
      | O => Some (x, r)
      | S n' =>
          match take_nth n' r with
          | Some (y, r') => Some (y, x :: r')
          | None => None
          end
      end
  end.

(** The order in which the workers started for [pending] finish under the
    choices of the scheduler (a missing choice is 0). *)
Fixpoint completion_order (fuel : nat) (choices : list nat)
    (pending : list string) : list string :=
  match fuel with
  | O => []
  | S fuel' =>
      match take_nth (hd 0%nat choices mod length pending)%nat pending with
      | Some (t, rest) => t :: completion_order fuel' (tl choices) rest
      | None => []
      end
  end.

(** Lines 144-152: the synchronous loop; every call of [_download_one] runs
    to its end before the next one begins. *)
Definition download_synchronously (env : Env) (a : Args) (tkrs : list string)
    (st : Shared) : Shared :=
  foldl (fun st ticker =>
           run (snd (_download_one env ticker (start a) (end_ a) (auto_adjust a)
                                   (back_adjust a) (repair a) (actions a)
                                   (period a) (interval a) (prepost a) (proxy a)
                                   (rounding a) (keepna a) (timeout a))) st)
        st tkrs.

(** Lines 131-137: the worker that [download] starts for [ticker]. *)
Definition worker (env : Env) (a : Args) (ticker : string) : list Stmt :=
  _download_one_threaded env ticker (start a) (end_ a) (auto_adjust a)
    (back_adjust a) (repair a) (actions a) (progress a) (period a)
    (interval a) (prepost a) (proxy a) (keepna a) (rounding a) (timeout a).

(** The statements of a worker up to its assignment to [shared._DFS], and
    those after it. *)
Fixpoint until_result (l : list Stmt) : list Stmt * list Stmt :=
  match l with
  | [] => ([], [])
  | AssignDFS key df :: r => ([AssignDFS key df], r)
  | s :: r => let (p, q) := until_result r in (s :: p, q)
  end.

(** The statements that get run when the workers of [left], each with what it
    has still to run, are let to step as [steps] says. *)
Fixpoint landed (left : pydict (list Stmt)) (steps : list string)
    : list Stmt :=
  match steps with
  | [] => []
  | ticker :: rest =>
      match dict_get ticker left with
      | Some (s :: l) => s :: landed (dict_set ticker l left) rest
      | _ => landed left rest
      end
  end.

(** Lines 129-141: one worker per ticker, and the loop of lines 140-141,
    which waits until [shared._DFS] has one entry per ticker.  The workers
    reach their assignment to [shared._DFS] in the order that the scheduler
    chooses.  The loop waits for nothing else: of what the workers run after
    that assignment (lines 267-268) the call sees the steps of [landing]. *)
Definition download_threaded (env : Env) (a : Args) (tkrs : list string)
    (st : Shared) : Outcome unit * Shared :=
  let st :=
    foldl (fun st ticker => run (fst (until_result (worker env a ticker))) st)
          st (completion_order (length tkrs) (schedule env) tkrs) in
  let left :=
    map (fun ticker => (ticker, snd (until_result (worker env a ticker)))) tkrs in
  let polled := (length (_DFS st) <? length tkrs)%nat in
  let st := run (landed left (landing env)) st in
  if polled then (Hangs, st) else (Ok tt, st).

(** Lines 187-190: the index of every frame with rows loses its zone. *)
Fixpoint localize_all (keys : list string) (st : Shared)
    : Outcome unit * Shared :=
  match keys with
  | [] => (Ok tt, st)
  | tkr :: rest =>
      match dict_get tkr (_DFS st) with
      | Some df =>
          if (0 <? len df)%nat then
            match tz_localize_None df with
            | Ok df' => localize_all rest (mutate_DFS tkr df' st)
            | Raised e => (Raised e, st)
            | Hangs => (Hangs, st)
            end
          else localize_all rest st
      | None => (Raised "KeyError", st)
      end
  end.

(** Lines 192-198: concatenate; on an exception realign and try again. *)
Definition concat_or_realign (st : Shared) : Outcome Table * Shared :=
  let st := log (Concat (_DFS st)) st in
  match concat_axis1 (_DFS st) with
  | Ok data => (Ok data, st)
  | _ =>
      let st := _realign_dfs (log Realign st) in
      let st := log (Concat (_DFS st)) st in
      (concat_axis1 (_DFS st), st)
  end.

(** Lines 199-208: what happens to the concatenated table. *)
Definition finish (a : Args) (tkrs : list string) (isins : pydict string)
    (data : Table) : Table :=
  let data := to_datetime_utc data in
  let data := rename_columns isins data in
  let data :=
    if String.eqb (group_by a) "column"
    then sort_columns (swaplevel_0_1 data) else data in
  if negb (multi_level_index a) && Nat.eqb (length tkrs) 1
  then droplevel_rename_axis
         (if String.eqb (group_by a) "ticker" then 0%nat else 1%nat) data
  else data.

(** Lines 99-115: the tickers of the call and the state the fetches start
    from ([shared._DFS], [_ERRORS] and [_TRACEBACKS] are rebound to empty
    dictionaries at lines 121-123, [_ISINS] at line 104). *)
Definition prepare (env : Env) (a : Args) : list string * Shared :=
  let (l, st) := resolve_isins env (ticker_list (tickers a))
                               (mkShared [] [] [] [] []) in
  (distinct_upper l, st).

(** Lines 128-152: all the fetches. *)
Definition fetch_all (env : Env) (a : Args) (tkrs : list string) (st : Shared)
    : Outcome unit * Shared :=
  if truthy (effective_threads env a)
  then download_threaded env a tkrs st
  else (Ok tt, download_synchronously env a tkrs st).

(** The call [download(tickers, ...)]: its outcome and the module [shared]
    it leaves behind. *)
Definition download (env : Env) (a : Args) : Outcome Table * Shared :=
  let (tkrs, st) := prepare env a in
  match fetch_all env a tkrs st with
  | (Ok _, st) =>
      let ignore := default_ignore_tz (ignore_tz a) (interval a) in
      match (if ignore then localize_all (dict_keys (_DFS st)) st
             else (Ok tt, st)) with
      | (Ok _, st) =>
          match concat_or_realign st with
          | (Ok data, st) => (Ok (finish a tkrs (_ISINS st) data), st)
          | (Raised e, st) => (Raised e, st)
          | (Hangs, st) => (Hangs, st)
          end
      | (Raised e, st) => (Raised e, st)
      | (Hangs, st) => (Hangs, st)
      end
  | (Raised e, st) => (Raised e, st)
  | (Hangs, st) => (Hangs, st)
  end.

(** *** Reading a call *)

(** The keyword arguments every fetch of the call [download a] gets. *)
Definition kwargs_of (a : Args) : HistoryKwargs :=
  mkKwargs (period a) (interval a) (start a) (end_ a) (prepost a) (actions a)
           (auto_adjust a) (back_adjust a) (repair a) (proxy a) (rounding a)
           (keepna a) (timeout a).

Definition fetched (env : Env) (a : Args) (ticker : string) : Fetched :=
  history env ticker (kwargs_of a).

(** What a worker leaves in [shared._DFS], [_ERRORS] and [_TRACEBACKS]. *)
Definition stored (f : Fetched) : DataFrame :=
  match f with
  | Returns data => data
  | Raises _ _ => empty_df None
  end.

Definition error_of (f : Fetched) : option string :=
  match f with
  | Returns _ => None
  | Raises e _ => Some e
  end.

Definition traceback_of (f : Fetched) : option string :=
  match f with
  | Returns _ => None
  | Raises _ tb => Some tb
  end.

Definition fetch_raises (f : Fetched) : bool :=
  match f with
  | Returns _ => false
  | Raises _ _ => true
  end.

(** The events of one worker that runs to its end. *)
Definition worker_events (env : Env) (a : Args) (ticker : string) : list Event :=
  Fetch ticker :: SetDFS (PyStr.upper ticker)
  :: (if fetch_raises (fetched env a ticker)
      then [SetERRORS (PyStr.upper ticker); SetTRACEBACKS (PyStr.upper ticker)]
      else []).

(** The events of one worker up to its assignment to [shared._DFS]. *)
Definition started_events (ticker : string) : list Event :=
  [Fetch ticker; SetDFS (PyStr.upper ticker)].

Definition event_of (s : Stmt) : Event :=
  match s with
  | CallHistory ticker => Fetch ticker
  | AssignDFS key _ => SetDFS key
  | AssignERRORS key _ => SetERRORS key
  | AssignTRACEBACKS key _ => SetTRACEBACKS key
  end.

(** The symbols a call fetches, in the order of line 115. *)
Definition symbols (env : Env) (a : Args) : list string := fst (prepare env a).

(** The order in which the fetches of a call write their results. *)
Definition write_order (env : Env) (a : Args) : list string :=
  if truthy (effective_threads env a)
  then completion_order (length (symbols env a)) (schedule env) (symbols env a)
  else symbols env a.

Definition occurrences (e : Event) (tr : list Event) : nat :=
  count_occ Event_eq_dec tr e.

(** What line 190 makes of a frame. *)
Definition localized (df : DataFrame) : DataFrame :=
  if (0 <? len df)%nat then
    match tz_localize_None df with
    | Ok df' => df'
    | _ => df
    end
  else df.

(** [d[k] = v] when there is a [v]. *)
Definition dict_add {V} (k : string) (o : option V) (d : pydict V) : pydict V :=
  match o with
  | Some v => dict_set k v d
  | None => d
  end.

(** The dictionaries that workers finishing in the order [order] build. *)
Definition results_of (env : Env) (a : Args) (order : list string)
    : pydict DataFrame :=
  map (fun t => (t, stored (fetched env a t))) order.

Definition errors_of (env : Env) (a : Args) (order : list string)
    : pydict string :=
  omap (fun t => option_map (pair t) (error_of (fetched env a t))) order.

Definition tracebacks_of (env : Env) (a : Args) (order : list string)
    : pydict string :=
  omap (fun t => option_map (pair t) (traceback_of (fetched env a t))) order.

(** The module [shared] before the first fetch. *)
Definition initial (env : Env) (a : Args) : Shared := snd (prepare env a).

(** What a worker has still to run when it has assigned its result: lines
    267 and 268, if its fetch raised. *)
Definition reported_later (env : Env) (a : Args) (ticker : string) : list Stmt :=
  match fetched env a ticker with
  | Raises e tb =>
      [AssignERRORS (PyStr.upper ticker) e;
       AssignTRACEBACKS (PyStr.upper ticker) tb]
  | Returns _ => []
  end.

Definition is_report (s : Stmt) : bool :=
  match s with
  | AssignERRORS _ _ | AssignTRACEBACKS _ _ => true
  | _ => false
  end.

(** What the workers of a call with threads have still to run when each has
    assigned its result. *)
Definition left_behind (env : Env) (a : Args) : pydict (list Stmt) :=
  map (fun ticker => (ticker, snd (until_result (worker env a ticker))))
      (symbols env a).

(** What of it they get run before the call returns. *)
Definition reports (env : Env) (a : Args) : list Stmt :=
  landed (left_behind env a) (landing env).

(** The entries that the assignments of a statement list add. *)
Definition assign_errors (l : list Stmt) (d : pydict string) : pydict string :=
  foldl (fun d s => match s with
                    | AssignERRORS key e => dict_set key e d
                    | _ => d
                    end) d l.

Definition assign_tracebacks (l : list Stmt) (d : pydict string)
    : pydict string :=
  foldl (fun d s => match s with
                    | AssignTRACEBACKS key tb => dict_set key tb d
                    | _ => d
                    end) d l.

(** The events of lines 128-152. *)
Definition fetch_events (env : Env) (a : Args) : list Event :=
  if truthy (effective_threads env a)
  then flat_map started_events (write_order env a)
       ++ map event_of (reports env a)
  else flat_map (worker_events env a) (write_order env a).

(** The module [shared] after lines 128-152: every fetch has assigned its
    result; of the errors and tracebacks a call with threads has those that
    its workers got assigned. *)
Definition fetched_state (env : Env) (a : Args) : Shared :=
  mkShared (results_of env a (write_order env a))
           (if truthy (effective_threads env a)
            then assign_errors (reports env a) []
            else errors_of env a (write_order env a))
           (if truthy (effective_threads env a)
            then assign_tracebacks (reports env a) []
            else tracebacks_of env a (write_order env a))
           (_ISINS (initial env a))
           (trace (initial env a) ++ fetch_events env a).

(** The same call with [threads] set otherwise. *)
Definition with_threads (t : Threads) (a : Args) : Args :=
  mkArgs (tickers a) (start a) (end_ a) (actions a) t (ignore_tz a)
         (group_by a) (auto_adjust a) (back_adjust a) (repair a) (keepna a)
         (progress a) (period a) (interval a) (prepost a) (proxy a)
         (rounding a) (timeout a) (multi_level_index a).

Definition localize_entry (kv : string * DataFrame) : string * DataFrame :=
  (fst kv, localized (snd kv)).

Definition has_rows (kv : string * DataFrame) : bool := (0 <? len (snd kv))%nat.

Definition localize_events (d : pydict DataFrame) : list Event :=
  map (fun kv => Localize (fst kv)) (List.filter has_rows d).

Definition realign_entry (idx : option Index) (kv : string * DataFrame)
    : string * DataFrame :=
  (fst kv, loc_not_duplicated_last (realigned idx (snd kv))).

Definition realign_events (d : pydict DataFrame) : list Event :=
  flat_map (fun kv => [SetDFS (fst kv); SetDFS (fst kv)]) d.

Definition realign_step (idx : option Index) (st : Shared) (key : string) : Shared :=
  match dict_get key (_DFS st) with
  | Some df =>
      let first := realigned idx df in
      let st := set_DFS key first st in
      set_DFS key (loc_not_duplicated_last first) st
  | None => st
  end.

Definition resolved_tickers (env : Env) (a : Args) : list string :=
  fst (resolve_isins env (ticker_list (tickers a)) (mkShared [] [] [] [] [])).

(** The outcome of lines 187-190 and the module [shared] after them. *)
Definition aligned (env : Env) (a : Args) : Outcome unit * Shared :=
  if default_ignore_tz (ignore_tz a) (interval a)
  then localize_all (dict_keys (_DFS (fetched_state env a))) (fetched_state env a)
  else (Ok tt, fetched_state env a).

Definition realign_writes (keys : list string) : list Event :=
  flat_map (fun k => [SetDFS k; SetDFS k]) keys.

(** The events of lines 192-198: none when line 190 raised, one
    concatenation, or two with a realignment between them. *)
Inductive concat_events (keys : list string) : list Event -> Prop :=
| no_concat : concat_events keys []
| one_concat frames : concat_events keys [Concat frames]
| two_concats frames frames' :
    concat_events keys
      ([Concat frames; Realign] ++ realign_writes keys ++ [Concat frames']).

(** Lines 187-210: what [download] does once all fetches are done. *)
Definition aggregate (a : Args) (tkrs : list string) (st : Shared)
    : Outcome Table * Shared :=
  match (if default_ignore_tz (ignore_tz a) (interval a)
         then localize_all (dict_keys (_DFS st)) st
         else (Ok tt, st)) with
  | (Ok _, st) =>
      match concat_or_realign st with
      | (Ok data, st) => (Ok (finish a tkrs (_ISINS st) data), st)
      | (Raised e, st) => (Raised e, st)
      | (Hangs, st) => (Hangs, st)
      end
  | (Raised e, st) => (Raised e, st)
  | (Hangs, st) => (Hangs, st)
  end.

(** The call [download a] with its synchronous loop (lines 144-152) visiting
    the symbols in the order [order]. *)
Definition download_in_order (env : Env) (a : Args) (order : list string)
    : Outcome Table * Shared :=
  aggregate a (symbols env a)
            (download_synchronously env a order (initial env a)).

(** Two states of the module [shared] with the same frames and ISINs. *)
Definition same_frames (st st' : Shared) : Prop :=
  _DFS st = _DFS st' /\ _ISINS st = _ISINS st'.

(** The frames every [pd.concat] of a trace was given. *)
Definition concat_inputs (tr : list Event) : list (pydict DataFrame) :=
  flat_map (fun e => match e with Concat frames => [frames] | _ => [] end) tr.

(** Some concatenation of the trace was given a zone-naive index. *)
Definition concat_saw_naive (tr : list Event) : bool :=
  existsb (existsb (fun kv : string * DataFrame => is_naive (df_kind (snd kv))))
          (concat_inputs tr).

(** What lines 201-208 make of a column key of the concatenated table. *)
Definition final_key (a : Args) (tkrs : list string) (isins : pydict string)
    (key : list string) : list string :=
  let key := map (rename_label isins) key in
  let key := if String.eqb (group_by a) "column" then swap01 key else key in
  if negb (multi_level_index a) && Nat.eqb (length tkrs) 1
  then remove_nth (if String.eqb (group_by a) "ticker" then 0%nat else 1%nat) key
  else key.

(** The names of the column levels of the returned table. *)
Definition final_names (a : Args) (tkrs : list string) : list (option string) :=
  if negb (multi_level_index a) && Nat.eqb (length tkrs) 1 then [None]
  else if String.eqb (group_by a) "column" then [Some "Price"; Some "Ticker"]
  else [Some "Ticker"; Some "Price"].

(** [idx] is the index of the first frame of [dfs] that no frame before it
    equals in length and no frame after it exceeds; there is none when no
    frame has rows. *)
Definition first_longest (dfs : list DataFrame) (idx : option Index) : Prop :=
  match idx with
  | None => Forall (fun d => len d = 0%nat) dfs
  | Some i =>
      exists pre df post,
        dfs = (pre ++ df :: post)%list /\ i = index df /\ (0 < len df)%nat
        /\ Forall (fun d => (len d < len df)%nat) pre
        /\ Forall (fun d => (len d <= len df)%nat) post
  end.

(** The realignment as the specification words it: the series laid out on
    the reference by exact match of the timestamps, then of the rows sharing
    a timestamp only the last one kept. *)
Definition realigned_as_specified (idx : option Index) (df : DataFrame)
    : DataFrame :=
  match idx with
  | None => loc_not_duplicated_last df
  | Some target =>
      loc_not_duplicated_last
        (mkDF (fst target) (df_columns df) (take_rows target df))
  end.

(** [(l, cells)] is the last of the rows at the label [l]. *)
Definition last_at (l : Z) (cells : list Cell) (rows : list (Z * list Cell))
    : Prop :=
  exists pre post,
    rows = (pre ++ (l, cells) :: post)%list /\ ~ In l (map fst post).

(** A series as the pipeline of one instrument returns it: its timestamps are
    zoned instants and no two rows share one. *)
Definition well_formed (df : DataFrame) : Prop :=
  is_aware (df_kind df) = true /\ NoDup (labels df).

(** The frames lines 192-198 start from, when line 190 does not raise. *)
Definition frames_before_concat (env : Env) (a : Args) : pydict DataFrame :=
  if default_ignore_tz (ignore_tz a) (interval a)
  then map localize_entry (_DFS (fetched_state env a))
  else _DFS (fetched_state env a).

(** The characters line 100 splits at: whitespace, and the comma it turns
    into a blank before. *)
Definition is_separator (c : ascii) : bool :=
  PyStr.is_space c || Ascii.eqb c ","%char.

(** A ticker as it can stand in a string of tickers: at least one character,
    none of them a separator. *)
Definition is_word (w : string) : bool :=
  let l := list_ascii_of_string w in
  negb (Nat.eqb (length l) 0) && forallb (fun c => negb (is_separator c)) l.

(** Lines 165-170, and 176-181: one turn of the loop over the failed
    symbols.  [errors] maps a message, with the symbol's own name replaced,
    to the symbols that have it. *)
Definition group_step (d : pydict string) (errors : pydict (list string))
    (ticker : string) : pydict (list string) :=
  match dict_get ticker d with
  | Some err =>
      let err := PyStr.replace ticker "%ticker%" err in
      match dict_get err errors with
      | None => dict_set err [ticker] errors
      | Some l => dict_set err (l ++ [ticker])%list errors
      end
  | None => errors
  end.

(** Lines 163-170: the dictionary [errors] (lines 174-181: [tbs]) built from
    [shared._ERRORS] (from [shared._TRACEBACKS]). *)
Definition group_by_message (d : pydict string) : pydict (list string) :=
  foldl (group_step d) [] (dict_keys d).

(** What the logger is given: [logger.error('\n%.f Failed download%s:' %
    (n, 's' or ''))], then [logger.error(f'{tickers}: ' + err)] for every
    distinct message and [logger.debug(f'{tickers}: ' + tb)] for every
    distinct traceback. *)
Inductive LogRecord : Type :=
  | FailedDownloads (n : nat) (plural : bool)
  | ErrorLine (tickers : list string) (err : string)
  | DebugLine (tickers : list string) (tb : string).

(** Lines 157-185 *)
Definition log_failures (st : Shared) : list LogRecord :=
  match _ERRORS st with
  | [] => []
  | _ =>
      (FailedDownloads (length (_ERRORS st)) (1 <? length (_ERRORS st))%nat
       :: map (fun g => ErrorLine (snd g) (fst g)) (group_by_message (_ERRORS st))
       ++ map (fun g => DebugLine (snd g) (fst g))
              (group_by_message (_TRACEBACKS st)))%list
  end.

(** Every symbol of a group has the message of the group, and no group is
    empty. *)
Definition well_grouped (d : pydict string) (g : pydict (list string)) : Prop :=
  forall m ts, In (m, ts) g ->
    ts <> []
    /\ forall t, In t ts ->
         exists err, dict_get t d = Some err
                     /\ PyStr.replace t "%ticker%" err = m.

End Multi.

(** ** Calls to try the model on *)

Module Examples.

Import Pandas Multi.

Definition new_york : Z := -18000.
Definition london : Z := 3600.

Definition aapl : DataFrame :=
  mkDF (DatetimeIndex (Some new_york)) ["Close"; "Volume"]
       [(100, [Some 1; Some 10]); (200, [Some 2; Some 20])].

Definition intc : DataFrame :=
  mkDF (DatetimeIndex (Some london)) ["Close"; "Volume"]
       [(150, [Some 7; Some 70]); (200, [Some 8; Some 80])].

(** AAPL and INTC have data, every other symbol fails. *)
Definition history_one_failing (t : string) (kw : HistoryKwargs) : Fetched :=
  if String.eqb t "AAPL" then Returns aapl
  else if String.eqb t "INTC" then Returns intc
  else Raises "YFPricesMissingError('no price data found')" "Traceback (most recent call last): ...".

Definition env_one_failing : Env :=
  mkEnv history_one_failing (fun _ => false) (fun s => s) false 4 [] [].

(** [download(tickers, threads=threads, ignore_tz=ignore_tz,
    group_by=group_by)], the other arguments at their defaults. *)
Definition call (tickers : list string) (threads : bool)
    (ignore_tz : option bool) (group_by : string) : Args :=
  mkArgs (TickerList tickers) None None false (ThreadsBool threads) ignore_tz
         group_by false false false false true "max" "1d" false None false
         (Some 10) true.

Definition args_one_failing : Args :=
  call ["aapl"; "ATVI"; "intc"; "AAPL"] false None "column".

(** A series with a repeated timestamp next to a longer one. *)
Definition long_series : DataFrame :=
  mkDF (DatetimeIndex (Some 0)) ["Close"]
       [(1, [Some 10]); (2, [Some 20]); (3, [Some 30]); (4, [Some 30])].

Definition repeated_timestamp : DataFrame :=
  mkDF (DatetimeIndex (Some 0)) ["Close"]
       [(2, [Some 7]); (2, [Some 8]); (5, [Some 9])].

Definition history_repeated (t : string) (kw : HistoryKwargs) : Fetched :=
  if String.eqb t "A" then Returns long_series
  else if String.eqb t "B" then Returns repeated_timestamp
  else Raises "YFPricesMissingError('no price data found')" "Traceback (most recent call last): ...".

Definition env_repeated : Env :=
  mkEnv history_repeated (fun _ => false) (fun s => s) false 4 [] [].

Definition args_repeated : Args := call ["A"; "B"] false (Some false) "ticker".

(** The scheduler lets the worker started second assign its result first,
    and lets no worker run further before [download] returns. *)
Definition env_second_finishes_first : Env :=
  mkEnv history_one_failing (fun _ => false) (fun s => s) false 4 [1%nat] [].

Definition args_two_symbols : Args :=
  call ["AAPL"; "INTC"] true (Some false) "ticker".

(** A call with threads for AAPL and ATVI; the fetch of ATVI raises. *)
Definition args_one_delisted : Args :=
  call ["AAPL"; "ATVI"] true (Some false) "ticker".

(** [download(["AAPL", "ATVI"])], the tickers of
    [test_download_with_invalid_ticker]: with threads, and [ignore_tz] and
    [group_by] at their defaults. *)
Definition args_invalid_ticker : Args :=
  call ["AAPL"; "ATVI"] true None "column".

(** [download(" , ,")]: a string without any ticker. *)
Definition args_no_tickers : Args :=
  mkArgs (TickerStr " , ,") None None false (ThreadsBool true) None "column"
         false false false false true "max" "1d" false None false (Some 10) true.

(** DEBUG logging is on and the scheduler would reorder the workers. *)
Definition env_debug : Env :=
  mkEnv history_one_failing (fun _ => false) (fun s => s) true 4 [1%nat] [].

(** The series of AAPL on the wall clock of New York. *)
Definition aapl_wall_clock : DataFrame :=
  mkDF (DatetimeIndex None) ["Close"; "Volume"]
       [(100 + new_york, [Some 1; Some 10]); (200 + new_york, [Some 2; Some 20])].

(** Every fetch raises. *)
Definition history_all_failing (t : string) (kw : HistoryKwargs) : Fetched :=
  Raises "YFPricesMissingError('no price data found')" "Traceback (most recent call last): ...".

Definition env_all_failing : Env :=
  mkEnv history_all_failing (fun _ => false) (fun s => s) false 4 [] ["ATVI"].

Definition args_two_delisted : Args :=
  call ["ATVI"; "TWTR"] true None "column".

(** The ISIN of AAPL, as [utils.is_isin] and [utils.get_ticker_by_isin]
    know it. *)
Definition env_isin : Env :=
  mkEnv history_one_failing (fun s => String.eqb s "US0378331005")
        (fun _ => "AAPL") false 4 [] [].

Definition args_isin : Args :=
  call ["US0378331005"; "INTC"] false None "ticker".

(** The lookup answers in lower case. *)
Definition env_isin_lower : Env :=
  mkEnv history_one_failing (fun s => String.eqb s "US0378331005")
        (fun _ => "aapl") false 4 [] [].

End Examples.

(** * Properties *)

(** ** The default of [ignore_tz] *)

Lemma str_in_m_h (s : string) :
  PyStr.str_in s ["m"; "h"] = true <-> s = "m" \/ s = "h".
Proof.
  unfold PyStr.str_in; simpl.
  rewrite !orb_true_iff, !String.eqb_eq. intuition discriminate.
Qed.

(** C10: with [ignore_tz=None], [ignore_tz] becomes [False] exactly when the
    interval without its first character is ['m'] or ['h']; so '1m', '2m',
    '5m' and '1h' keep their zones, while '15m', '30m', '60m' and '90m' get
    [ignore_tz=True], as the daily and longer intervals do. *)
Theorem default_ignore_tz_first_character_dropped :
  (forall interval : string,
      default_ignore_tz None interval = false
      <-> (PyStr.slice_from_1 interval = "m" \/ PyStr.slice_from_1 interval = "h"))
  /\ Forall (fun i => default_ignore_tz None i = false) ["1m"; "2m"; "5m"; "1h"]
  /\ Forall (fun i => default_ignore_tz None i = true) ["15m"; "30m"; "60m"; "90m"]
  /\ Forall (fun i => default_ignore_tz None i = true)
            ["1d"; "5d"; "1wk"; "1mo"; "3mo"].
Proof.
  split; [| repeat split; repeat constructor].
  intros interval. unfold default_ignore_tz.
  destruct (PyStr.str_in (PyStr.slice_from_1 interval) ["m"; "h"]) eqn:E.
  - apply str_in_m_h in E. tauto.
  - split; [discriminate |]. intros H. apply str_in_m_h in H. congruence.
Qed.

(** * The orchestrator *)

Import Pandas Utils Multi.
Local Open Scope list_scope.


(** ** Strings *)

Lemma upper_ascii_idempotent (c : ascii) :
  PyStr.upper_ascii (PyStr.upper_ascii c) = PyStr.upper_ascii c.
Proof. destruct c as [[] [] [] [] [] [] [] []]; reflexivity. Qed.

Lemma upper_idempotent (s : string) : PyStr.upper (PyStr.upper s) = PyStr.upper s.
Proof.
  induction s as [| c s IH]; simpl; [reflexivity |].
  now rewrite upper_ascii_idempotent, IH.
Qed.

(** ** Dictionaries *)

Section Dict.

Context {V : Type}.
Implicit Types (d : pydict V) (k : string) (v : V).

Lemma dict_get_set_eq d k v : dict_get k (dict_set k v d) = Some v.
Proof.
  induction d as [| [k' v'] d IH]; simpl.
  - now rewrite String.eqb_refl.
  - destruct (String.eqb k k') eqn:E; simpl; rewrite ?String.eqb_refl, ?E; auto.
Qed.

Lemma dict_get_set_ne d k k' v :
  k <> k' -> dict_get k' (dict_set k v d) = dict_get k' d.
Proof.
  intros Hne. induction d as [| [k0 v0] d IH]; simpl.
  - destruct (String.eqb_spec k' k); congruence.
  - destruct (String.eqb_spec k k0); simpl.
    + subst. destruct (String.eqb_spec k' k0); congruence.
    + destruct (String.eqb_spec k' k0); auto.
Qed.

Lemma dict_get_None d k : ~ In k (dict_keys d) -> dict_get k d = None.
Proof.
  induction d as [| [k' v'] d IH]; simpl; [reflexivity |].
  intros H. destruct (String.eqb_spec k k'); [intuition congruence | apply IH; tauto].
Qed.

Lemma dict_get_Some_In d k v : dict_get k d = Some v -> In (k, v) d.
Proof.
  induction d as [| [k' v'] d IH]; simpl; [discriminate |].
  destruct (String.eqb_spec k k'); [intros [= <-]; subst; auto | auto].
Qed.

Lemma dict_get_In d k v : NoDup (dict_keys d) -> In (k, v) d -> dict_get k d = Some v.
Proof.
  induction d as [| [k' v'] d IH]; simpl; [tauto |].
  intros Hnd [[= -> ->] | Hin].
  - now rewrite String.eqb_refl.
  - apply NoDup_cons in Hnd as [Hk Hnd].
    destruct (String.eqb_spec k k'); [| auto].
    subst. exfalso. apply Hk. apply list_elem_of_In.
    apply in_map_iff. now exists (k', v).
Qed.

(** Assigning a new key appends it. *)
Lemma dict_set_new d k v : ~ In k (dict_keys d) -> dict_set k v d = d ++ [(k, v)].
Proof.
  induction d as [| [k' v'] d IH]; simpl; [reflexivity |].
  intros H. destruct (String.eqb_spec k k'); [intuition congruence |].
  rewrite IH; tauto.
Qed.

(** Assigning an existing key keeps the keys as they are. *)
Lemma dict_keys_set_old d k v : In k (dict_keys d) -> dict_keys (dict_set k v d) = dict_keys d.
Proof.
  induction d as [| [k' v'] d IH]; simpl; [tauto |].
  intros H. destruct (String.eqb_spec k k'); simpl; [congruence |].
  f_equal. apply IH. destruct H; congruence.
Qed.

Lemma dict_set_middle (d1 d2 : pydict V) k v v' :
  ~ In k (dict_keys d1) ->
  dict_set k v' (d1 ++ (k, v) :: d2) = d1 ++ (k, v') :: d2.
Proof.
  induction d1 as [| [k1 v1] d1 IH]; simpl.
  - now rewrite String.eqb_refl.
  - intros H. destruct (String.eqb_spec k k1); [intuition congruence |].
    rewrite IH; tauto.
Qed.

Lemma dict_get_middle (d1 d2 : pydict V) k v :
  ~ In k (dict_keys d1) -> dict_get k (d1 ++ (k, v) :: d2) = Some v.
Proof.
  induction d1 as [| [k1 v1] d1 IH]; simpl.
  - now rewrite String.eqb_refl.
  - intros H. destruct (String.eqb_spec k k1); [intuition congruence | apply IH; tauto].
Qed.

End Dict.

Lemma dict_get_None_keys {V} (d : pydict V) (k : string) :
  dict_get k d = None -> ~ In k (dict_keys d).
Proof.
  induction d as [| [k' v'] d IH]; simpl; [tauto |].
  destruct (String.eqb_spec k k'); [discriminate |].
  intros H [E | Hin]; [congruence | now apply IH].
Qed.

Lemma dict_get_split {V} (d : pydict V) (k : string) (v : V) :
  dict_get k d = Some v ->
  exists d1 d2, d = d1 ++ (k, v) :: d2 /\ ~ In k (dict_keys d1).
Proof.
  induction d as [| [k' v'] d IH]; simpl; [discriminate |].
  destruct (String.eqb_spec k k') as [<- | Hne].
  - intros [= ->]. exists [], d. split; [reflexivity | simpl; tauto].
  - intros H. destruct (IH H) as (d1 & d2 & -> & Hn).
    exists ((k', v') :: d1), d2. split; [reflexivity |].
    simpl. intros [E | Hin]; [congruence | contradiction].
Qed.

Lemma dict_get_key {V} (d : pydict V) (k : string) :
  In k (dict_keys d) -> exists v, dict_get k d = Some v.
Proof.
  induction d as [| [k' v'] d IH]; simpl; [tauto |].
  destruct (String.eqb_spec k k'); [eauto |].
  intros [E | Hin]; [congruence | auto].
Qed.


Lemma dict_keys_map {V W} (f : string * V -> W) (d : pydict V) :
  dict_keys (map (fun kv => (fst kv, f kv)) d) = dict_keys d.
Proof. unfold dict_keys. rewrite map_map. reflexivity. Qed.

(** ** The scheduler *)


Lemma take_nth_Permutation {A} (n : nat) (l : list A) x r :
  take_nth n l = Some (x, r) -> Permutation l (x :: r).
Proof.
  revert n x r. induction l as [| y l IH]; intros n x r; simpl; [discriminate |].
  destruct n as [| n]; simpl.
  - intros Heq. injection Heq as -> ->. reflexivity.
  - destruct (take_nth n l) as [[z r'] |] eqn:E; [| discriminate].
    intros [= -> <-]. rewrite (IH _ _ _ E). apply perm_swap.
Qed.

Lemma take_nth_Some {A} (n : nat) (l : list A) :
  (n < length l)%nat -> exists x r, take_nth n l = Some (x, r).
Proof.
  revert n. induction l as [| y l IH]; intros n; simpl; [lia |].
  destruct n as [| n]; [eauto |].
  intros H. destruct (IH n) as (x & r & E); [lia |]. rewrite E. eauto.
Qed.

(** Whatever the scheduler chooses, every worker finishes exactly once. *)
Lemma completion_order_Permutation (choices : list nat) (pending : list string) :
  Permutation (completion_order (length pending) choices pending) pending.
Proof.
  remember (length pending) as n eqn:Hn.
  revert choices pending Hn. induction n as [| n IH]; intros choices pending Hn.
  - destruct pending; [constructor | discriminate].
  - simpl.
    destruct (take_nth_Some (hd 0%nat choices mod length pending) pending)
      as (x & r & E).
    { apply Nat.mod_upper_bound. lia. }
    rewrite E. apply take_nth_Permutation in E.
    rewrite E. constructor. apply IH.
    apply Permutation_length in E. simpl in E. lia.
Qed.

Lemma completion_order_fifo (pending : list string) :
  completion_order (length pending) [] pending = pending.
Proof.
  induction pending as [| t r IH]; [reflexivity |].
  simpl. rewrite Nat.sub_diag. simpl. f_equal. exact IH.
Qed.



(** ** The workers *)

Section Workers.

Variables (env : Env) (a : Args).

Local Abbreviation results_of := (Multi.results_of env a).
Local Abbreviation errors_of := (Multi.errors_of env a).
Local Abbreviation tracebacks_of := (Multi.tracebacks_of env a).

(** One worker: lines 254-272. *)
Lemma download_one_state (t : string) (st : Shared) :
  download_synchronously env a [t] st
  = mkShared (dict_set (PyStr.upper t) (stored (fetched env a t)) (_DFS st))
             (dict_add (PyStr.upper t) (error_of (fetched env a t)) (_ERRORS st))
             (dict_add (PyStr.upper t) (traceback_of (fetched env a t))
                       (_TRACEBACKS st))
             (_ISINS st)
             (trace st ++ worker_events env a t).
Proof.
  unfold download_synchronously, worker_events, fetched, kwargs_of,
    _download_one. simpl.
  destruct (history env t _) as [data | e tb]; simpl;
    unfold set_DFS, set_ERRORS, set_TRACEBACKS, log; simpl;
    rewrite <- ?app_assoc; reflexivity.
Qed.

Lemma download_synchronously_cons (t : string) (r : list string) (st : Shared) :
  download_synchronously env a (t :: r) st
  = download_synchronously env a r (download_synchronously env a [t] st).
Proof. reflexivity. Qed.

(** A worker is [_download_one] on the arguments of the call, cut behind
    its assignment to [shared._DFS]. *)
Lemma until_result_worker (t : string) :
  until_result (worker env a t)
  = ([CallHistory t; AssignDFS (PyStr.upper t) (stored (fetched env a t))],
     reported_later env a t).
Proof.
  unfold worker, _download_one_threaded, _download_one, reported_later,
    fetched, kwargs_of.
  destruct (history env t _) as [data | e tb]; reflexivity.
Qed.

Lemma worker_runs_download_one (t : string) (st : Shared) :
  run (worker env a t) st = download_synchronously env a [t] st.
Proof. reflexivity. Qed.

(** Statements of lines 267-268 leave [shared._DFS] alone. *)
Lemma run_reports (l : list Stmt) (st : Shared) :
  forallb is_report l = true ->
  run l st
  = mkShared (_DFS st) (assign_errors l (_ERRORS st))
             (assign_tracebacks l (_TRACEBACKS st)) (_ISINS st)
             (trace st ++ map event_of l).
Proof.
  revert st. induction l as [| s l IH]; intros st Hl.
  - simpl. rewrite app_nil_r. now destruct st.
  - simpl in Hl. apply andb_true_iff in Hl as [Hs Hl].
    unfold run in *. simpl foldl. rewrite (IH _ Hl).
    destruct s; try discriminate; simpl; rewrite <- app_assoc; reflexivity.
Qed.

Lemma In_dict_set {V} (d : pydict V) (k k' : string) (v v' : V) :
  In (k', v') (dict_set k v d) -> (k' = k /\ v' = v) \/ In (k', v') d.
Proof.
  induction d as [| [k0 v0] d IH]; simpl.
  - intros [[= <- <-] | []]. now left.
  - destruct (String.eqb_spec k k0) as [<- | Hne]; simpl.
    + intros [[= <- <-] | Hin]; [now left | right; now right].
    + intros [Heq | Hin]; [right; now left |].
      destruct (IH Hin) as [H | H]; [now left | right; now right].
Qed.

(** What gets run was left to run. *)
Lemma landed_In (left : pydict (list Stmt)) (steps : list string) (s : Stmt) :
  In s (landed left steps) -> exists t l, In (t, l) left /\ In s l.
Proof.
  revert left. induction steps as [| t steps IH]; intros left; simpl; [tauto |].
  destruct (dict_get t left) as [[| s0 l] |] eqn:E; try apply IH.
  intros [<- | Hin].
  - exists t, (s0 :: l). split; [now apply dict_get_Some_In | now left].
  - destruct (IH _ Hin) as (t' & l' & Hin' & Hs).
    apply In_dict_set in Hin' as [[-> ->] | Hin'].
    + exists t, (s0 :: l). split; [now apply dict_get_Some_In | now right].
    + now exists t', l'.
Qed.

Lemma dict_keys_errors_of order t : In t (dict_keys (errors_of order)) -> In t order.
Proof.
  unfold errors_of, dict_keys. induction order as [| u r IH]; simpl; [tauto |].
  destruct (error_of (fetched env a u)); simpl; intuition.
Qed.

Lemma dict_keys_tracebacks_of order t :
  In t (dict_keys (tracebacks_of order)) -> In t order.
Proof.
  unfold tracebacks_of, dict_keys. induction order as [| u r IH]; simpl; [tauto |].
  destruct (traceback_of (fetched env a u)); simpl; intuition.
Qed.

(** Workers for distinct upper-case tickers, started on empty dictionaries:
    every worker appends its own entries. *)
Lemma download_synchronously_from (done order : list string) (isins : pydict string)
    (tr : list Event) :
  NoDup (done ++ order) ->
  (forall t, In t order -> PyStr.upper t = t) ->
  download_synchronously env a order
    (mkShared (results_of done) (errors_of done) (tracebacks_of done) isins tr)
  = mkShared (results_of (done ++ order)) (errors_of (done ++ order))
             (tracebacks_of (done ++ order)) isins
             (tr ++ flat_map (worker_events env a) order).
Proof.
  revert done tr. induction order as [| t r IH]; intros done tr Hnd Hup.
  - simpl. now rewrite !app_nil_r.
  - rewrite download_synchronously_cons, download_one_state. simpl.
    rewrite (Hup t) by (now left).
    assert (Ht : ~ In t done).
    { apply NoDup_app in Hnd as (_ & Hd & _). intros Hin.
      apply (Hd t); [now apply list_elem_of_In | apply list_elem_of_here]. }
    replace (dict_set t (stored (fetched env a t)) (results_of done))
      with (results_of (done ++ [t])).
    2:{ rewrite dict_set_new.
        - unfold results_of. now rewrite map_app.
        - unfold results_of, dict_keys. rewrite map_map. simpl. now rewrite map_id. }
    replace (dict_add t (error_of (fetched env a t)) (errors_of done))
      with (errors_of (done ++ [t])).
    2:{ unfold errors_of at 1. rewrite omap_app. simpl.
        destruct (error_of (fetched env a t)); simpl; [| now rewrite app_nil_r].
        rewrite dict_set_new; [reflexivity |].
        intros Hin. now apply dict_keys_errors_of in Hin. }
    replace (dict_add t (traceback_of (fetched env a t)) (tracebacks_of done))
      with (tracebacks_of (done ++ [t])).
    2:{ unfold tracebacks_of at 1. rewrite omap_app. simpl.
        destruct (traceback_of (fetched env a t)); simpl; [| now rewrite app_nil_r].
        rewrite dict_set_new; [reflexivity |].
        intros Hin. now apply dict_keys_tracebacks_of in Hin. }
    rewrite IH.
    + simpl flat_map. rewrite <- !app_assoc. unfold worker_events at 1.
      rewrite (Hup t) by (now left). reflexivity.
    + now rewrite <- app_assoc.
    + intros u Hu. apply Hup. now right.
Qed.

(** The workers of a call with threads, each as far as its assignment to
    [shared._DFS]: the entries of [shared._DFS] are those of the synchronous
    loop, the other dictionaries are as they were. *)
Lemma start_workers_from (done order : list string) (errors tbs : pydict string)
    (isins : pydict string) (tr : list Event) :
  NoDup (done ++ order) ->
  (forall t, In t order -> PyStr.upper t = t) ->
  foldl (fun st t => run (fst (until_result (worker env a t))) st)
        (mkShared (results_of done) errors tbs isins tr) order
  = mkShared (results_of (done ++ order)) errors tbs isins
             (tr ++ flat_map started_events order).
Proof.
  revert done tr. induction order as [| t r IH]; intros done tr Hnd Hup.
  - simpl. now rewrite !app_nil_r.
  - simpl foldl. rewrite until_result_worker. cbn [fst run foldl perform].
    unfold set_DFS, log. cbn [_DFS _ERRORS _TRACEBACKS _ISINS trace].
    rewrite (Hup t) by (now left).
    assert (Ht : ~ In t done).
    { apply NoDup_app in Hnd as (_ & Hd & _). intros Hin.
      apply (Hd t); [now apply list_elem_of_In | apply list_elem_of_here]. }
    replace (dict_set t (stored (fetched env a t)) (results_of done))
      with (results_of (done ++ [t])).
    2:{ rewrite dict_set_new.
        - unfold results_of. now rewrite map_app.
        - unfold results_of, dict_keys. rewrite map_map. simpl. now rewrite map_id. }
    rewrite IH.
    + simpl flat_map. unfold started_events at 2. rewrite (Hup t) by (now left).
      rewrite <- !app_assoc. reflexivity.
    + now rewrite <- app_assoc.
    + intros u Hu. apply Hup. now right.
Qed.

End Workers.



(** ** The tickers of a call *)

Lemma resolve_isins_state (env : Env) (l : list string) (st : Shared) :
  let st' := snd (resolve_isins env l st) in
  _DFS st' = _DFS st /\ _ERRORS st' = _ERRORS st
  /\ _TRACEBACKS st' = _TRACEBACKS st
  /\ exists ks, trace st' = trace st ++ map SetISINS ks.
Proof.
  revert st. induction l as [| t r IH]; intros st; simpl.
  - repeat split; auto. exists []. now rewrite app_nil_r.
  - destruct (is_isin env t).
    + specialize (IH (set_ISINS (get_ticker_by_isin env t) t st)).
      destruct (resolve_isins env r _) as [r' st'] eqn:E. simpl in *.
      destruct IH as (H1 & H2 & H3 & ks & H4). repeat split; auto.
      exists (get_ticker_by_isin env t :: ks). rewrite H4.
      now rewrite <- app_assoc.
    + specialize (IH st).
      destruct (resolve_isins env r st) as [r' st'] eqn:E. simpl in *. exact IH.
Qed.

Lemma distinct_upper_NoDup (l : list string) : NoDup (distinct_upper l).
Proof. unfold distinct_upper. apply NoDup_elements. Qed.

Lemma distinct_upper_In (l : list string) (t : string) :
  In t (distinct_upper l) <-> In t (map PyStr.upper l).
Proof.
  unfold distinct_upper. rewrite <- !list_elem_of_In, elem_of_elements.
  apply elem_of_list_to_set.
Qed.

Lemma distinct_upper_upper (l : list string) (t : string) :
  In t (distinct_upper l) -> PyStr.upper t = t.
Proof.
  intros H. apply distinct_upper_In, in_map_iff in H.
  destruct H as [x [<- _]]. apply upper_idempotent.
Qed.

Section Call.

Variables (env : Env) (a : Args).

Local Abbreviation initial := (Multi.initial env a).
Local Abbreviation fetched_state := (Multi.fetched_state env a).

Lemma prepare_eq : prepare env a = (symbols env a, initial).
Proof.
  unfold symbols, Multi.initial, prepare.
  now destruct (resolve_isins env _ _).
Qed.

Lemma symbols_NoDup : NoDup (symbols env a).
Proof.
  unfold symbols, prepare. destruct (resolve_isins env _ _). apply distinct_upper_NoDup.
Qed.

Lemma symbols_upper t : In t (symbols env a) -> PyStr.upper t = t.
Proof.
  unfold symbols, prepare. destruct (resolve_isins env _ _). apply distinct_upper_upper.
Qed.

Lemma initial_state :
  _DFS initial = [] /\ _ERRORS initial = [] /\ _TRACEBACKS initial = []
  /\ exists ks, trace initial = map SetISINS ks.
Proof.
  unfold Multi.initial, prepare.
  pose proof (resolve_isins_state env (ticker_list (tickers a))
                (mkShared [] [] [] [] [])) as H.
  destruct (resolve_isins env _ _) as [l st]. simpl in *. exact H.
Qed.

Lemma write_order_Permutation : Permutation (write_order env a) (symbols env a).
Proof.
  unfold write_order. destruct (truthy _); [| reflexivity].
  apply completion_order_Permutation.
Qed.

Lemma write_order_NoDup : NoDup (write_order env a).
Proof.
  rewrite write_order_Permutation. apply symbols_NoDup.
Qed.

Lemma write_order_In t : In t (write_order env a) <-> In t (symbols env a).
Proof.
  split; apply Permutation_in;
    [apply write_order_Permutation | symmetry; apply write_order_Permutation].
Qed.

(** What the workers of a call with threads run after their assignment to
    [shared._DFS] are assignments of lines 267-268 of workers whose fetch
    raised. *)
Lemma reports_In (s : Stmt) :
  In s (reports env a) ->
  exists t, In t (symbols env a) /\ In s (reported_later env a t).
Proof.
  intros H. apply landed_In in H as (t & l & Hin & Hs).
  unfold left_behind in Hin. apply in_map_iff in Hin as (t' & [= <- <-] & Ht).
  rewrite until_result_worker in Hs. eauto.
Qed.

Lemma reports_are_reports : forallb is_report (reports env a) = true.
Proof.
  apply forallb_forall. intros s Hs.
  apply reports_In in Hs as (t & _ & Hs). unfold reported_later in Hs.
  destruct (fetched env a t); [destruct Hs |].
  destruct Hs as [<- | [<- | []]]; reflexivity.
Qed.

(** Lines 128-152 come to an end: every worker assigns its entry of
    [shared._DFS], so the polling loop is left. *)
Lemma fetch_all_spec :
  fetch_all env a (symbols env a) initial = (Ok tt, fetched_state).
Proof.
  destruct initial_state as (H1 & H2 & H3 & _).
  assert (Hinit : initial
                  = mkShared (results_of env a []) [] [] (_ISINS initial)
                             (trace initial)).
  { destruct initial; simpl in *; subst; reflexivity. }
  unfold fetch_all, Multi.fetched_state, fetch_events, write_order.
  destruct (truthy (effective_threads env a)) eqn:Et.
  - assert (Hnd : NoDup (completion_order (length (symbols env a))
                           (schedule env) (symbols env a))).
    { rewrite completion_order_Permutation. apply symbols_NoDup. }
    assert (Hstart :
              foldl (fun st t => run (fst (until_result (worker env a t))) st)
                    initial
                    (completion_order (length (symbols env a)) (schedule env)
                                      (symbols env a))
              = mkShared (results_of env a
                            (completion_order (length (symbols env a))
                                              (schedule env) (symbols env a)))
                         [] [] (_ISINS initial)
                         (trace initial
                          ++ flat_map started_events
                               (completion_order (length (symbols env a))
                                                 (schedule env) (symbols env a)))).
    { rewrite Hinit at 1. rewrite start_workers_from; [reflexivity | exact Hnd |].
      intros t Ht. apply symbols_upper.
      now apply (Permutation_in _ (completion_order_Permutation _ _)) in Ht. }
    unfold download_threaded. cbv zeta. rewrite Hstart.
    cbn [_DFS]. unfold results_of at 1. rewrite length_map.
    rewrite (Permutation_length (completion_order_Permutation _ _)).
    rewrite Nat.ltb_irrefl.
    change (landed _ (landing env)) with (reports env a).
    rewrite run_reports by apply reports_are_reports.
    cbn [_DFS _ERRORS _TRACEBACKS _ISINS trace]. now rewrite <- app_assoc.
  - rewrite Hinit at 1.
    change (@nil (string * string)) with (errors_of env a []) at 1.
    change (@nil (string * string)) with (tracebacks_of env a []) at 1.
    rewrite download_synchronously_from.
    + reflexivity.
    + apply symbols_NoDup.
    + intros t Ht. now apply symbols_upper.
Qed.

End Call.

(** ** Lines 187-190 *)

(** The loop either reaches its end, having localized every frame with rows,
    or stops at a frame with rows whose index is a plain [Index]. *)
Lemma localize_all_from (done rest : pydict DataFrame) (st : Shared) :
  _DFS st = done ++ rest ->
  NoDup (dict_keys (done ++ rest)) ->
  localize_all (dict_keys rest) st
  = (Ok tt, mkShared (done ++ map localize_entry rest) (_ERRORS st)
                     (_TRACEBACKS st) (_ISINS st)
                     (trace st ++ localize_events rest))
  \/ (exists e st', localize_all (dict_keys rest) st = (Raised e, st')
      /\ (exists kv, In kv rest /\ has_rows kv = true
                     /\ df_kind (snd kv) = ObjectIndex)
      /\ dict_keys (_DFS st') = dict_keys (done ++ rest)
      /\ _ERRORS st' = _ERRORS st /\ _TRACEBACKS st' = _TRACEBACKS st
      /\ _ISINS st' = _ISINS st
      /\ exists ks, trace st' = trace st ++ map Localize ks).
Proof.
  revert done st. induction rest as [| [k df] rest IH]; intros done st Hd Hnd.
  - left. simpl. unfold localize_events. simpl. rewrite !app_nil_r.
    rewrite app_nil_r in Hd. destruct st; simpl in *; subst; reflexivity.
  - simpl. rewrite Hd.
    assert (Hk : ~ In k (dict_keys done)).
    { unfold dict_keys in *. rewrite map_app in Hnd. simpl in Hnd.
      apply NoDup_app in Hnd as (_ & Hdis & _). intros Hin.
      apply (Hdis k); [now apply list_elem_of_In | apply list_elem_of_here]. }
    rewrite dict_get_middle by exact Hk.
    assert (Hnd' : NoDup (dict_keys ((done ++ [(k, localized df)]) ++ rest))).
    { unfold dict_keys in *. rewrite <- app_assoc. simpl.
      rewrite map_app in *. exact Hnd. }
    destruct (0 <? len df)%nat eqn:Hlen.
    + destruct (tz_localize_None df) as [df' | e |] eqn:Htz.
      * specialize (IH (done ++ [(k, localized df)]) (mutate_DFS k df' st)).
        assert (Hloc : localized df = df').
        { unfold localized. now rewrite Hlen, Htz. }
        destruct IH as [IH | IH].
        -- simpl. rewrite Hd, dict_set_middle by exact Hk.
           rewrite Hloc, <- app_assoc. reflexivity.
        -- exact Hnd'.
        -- left. rewrite IH. simpl. unfold localize_events, localize_entry.
           simpl. unfold has_rows at 2. simpl. rewrite Hlen. simpl.
           rewrite <- !app_assoc. simpl. now rewrite Hloc.
        -- right. destruct IH as (e & st' & Heq & (kv & Hin & Hr & Hkind) & Hkeys & He & Ht & Hi & ks & Htr).
           exists e, st'. split; [exact Heq |]. split.
           { exists kv. split; [now right | auto]. }
           simpl in *. rewrite Hkeys.
           unfold dict_keys. rewrite !map_app. simpl.
           rewrite <- app_assoc. simpl.
           refine (conj eq_refl (conj He (conj Ht (conj Hi _)))).
           exists (k :: ks). rewrite Htr, <- app_assoc. reflexivity.
      * right. exists e, st. split; [reflexivity |]. split.
        { exists (k, df). split; [now left |]. split; [exact Hlen |].
          simpl. unfold tz_localize_None in Htz.
          destruct (df_kind df) as [| [off |]]; congruence. }
        refine (conj (f_equal _ Hd) (conj eq_refl (conj eq_refl (conj eq_refl _)))).
        exists []. simpl. now rewrite app_nil_r.
      * unfold tz_localize_None in Htz.
        destruct (df_kind df) as [| [off |]]; discriminate.
    + specialize (IH (done ++ [(k, df)]) st).
      assert (Hloc : localized df = df).
      { unfold localized. now rewrite Hlen. }
      rewrite Hloc in Hnd'.
      destruct IH as [IH | IH].
      * rewrite Hd, <- app_assoc. reflexivity.
      * exact Hnd'.
      * left. rewrite IH. unfold localize_events, localize_entry. simpl.
        unfold has_rows at 2. simpl. rewrite Hlen, Hloc.
        rewrite <- !app_assoc. reflexivity.
      * right. destruct IH as (e & st' & Heq & (kv & Hin & Hr & Hkind) & Hrest).
        exists e, st'. split; [exact Heq |]. split.
        { exists kv. split; [now right | auto]. }
        destruct Hrest as (Hkeys & Hrest). split; [| exact Hrest].
        rewrite Hkeys. now rewrite <- app_assoc.
Qed.

(** ** [_realign_dfs] *)

Lemma realign_from (idx : option Index) (done rest : pydict DataFrame)
    (st : Shared) :
  _DFS st = done ++ rest ->
  NoDup (dict_keys (done ++ rest)) ->
  foldl (realign_step idx) st (dict_keys rest)
  = mkShared (done ++ map (realign_entry idx) rest) (_ERRORS st)
             (_TRACEBACKS st) (_ISINS st) (trace st ++ realign_events rest).
Proof.
  revert done st. induction rest as [| [k df] rest IH]; intros done st Hd Hnd.
  - simpl. rewrite !app_nil_r. rewrite app_nil_r in Hd.
    destruct st; simpl in *; subst; reflexivity.
  - assert (Hk : ~ In k (dict_keys done)).
    { unfold dict_keys in *. rewrite map_app in Hnd. simpl in Hnd.
      apply NoDup_app in Hnd as (_ & Hdis & _). intros Hin.
      apply (Hdis k); [now apply list_elem_of_In | apply list_elem_of_here]. }
    simpl. unfold realign_step at 2. rewrite Hd, dict_get_middle by exact Hk.
    cbv zeta.
    rewrite (IH (done ++ [realign_entry idx (k, df)])).
    + simpl. rewrite <- !app_assoc. reflexivity.
    + simpl. rewrite Hd. rewrite !dict_set_middle by exact Hk.
      now rewrite <- app_assoc.
    + unfold dict_keys in *. rewrite <- app_assoc. simpl.
      rewrite map_app in *. exact Hnd.
Qed.

(** Every entry of [shared._DFS] is replaced, by two assignments each. *)
Lemma realign_dfs_spec (st : Shared) :
  NoDup (dict_keys (_DFS st)) ->
  _realign_dfs st
  = mkShared (map (realign_entry (reference_index (dict_values (_DFS st))))
                  (_DFS st))
             (_ERRORS st) (_TRACEBACKS st) (_ISINS st)
             (trace st ++ realign_events (_DFS st)).
Proof.
  intros Hnd. unfold _realign_dfs.
  change (foldl _ st (dict_keys (_DFS st)))
    with (foldl (realign_step (reference_index (dict_values (_DFS st)))) st
                (dict_keys (_DFS st))).
  now rewrite (realign_from _ [] (_DFS st) st).
Qed.

(** ** The whole call *)

Lemma dict_keys_map_entries {V W} (g : string * V -> string * W) (d : pydict V) :
  (forall kv, fst (g kv) = fst kv) -> dict_keys (map g d) = dict_keys d.
Proof.
  intros Hg. unfold dict_keys. rewrite map_map. apply map_ext. exact Hg.
Qed.

Lemma reindex_not_Hangs (target : Index) (df : DataFrame) :
  reindex target df <> Hangs.
Proof.
  unfold reindex. destruct (index_equals _ _); [discriminate |].
  destruct (has_duplicates _); discriminate.
Qed.

Lemma collect_not_Hangs {A B} (g : A -> Outcome B) (l : list A) :
  (forall x, g x <> Hangs) -> collect (map g l) <> Hangs.
Proof.
  intros Hg. induction l as [| x l IH]; simpl; [discriminate |].
  destruct (g x) eqn:Egx; simpl; try discriminate.
  - destruct (collect (map g l)); simpl; try discriminate. contradiction.
  - now apply Hg in Egx.
Qed.

(** A concatenation returns or raises. *)
Lemma concat_axis1_not_Hangs (frames : pydict DataFrame) :
  concat_axis1 frames <> Hangs.
Proof.
  unfold concat_axis1. destruct frames as [| f frames]; [discriminate |].
  destruct (mixed_awareness _); [discriminate |].
  match goal with
  | |- context [collect (map ?g ?l)] =>
      pose proof (collect_not_Hangs g l) as Hc
  end.
  match type of Hc with
  | _ -> ?c <> _ => destruct c; simpl; try discriminate
  end.
  exfalso. apply Hc; [| reflexivity].
  intros x. simpl. pose proof (reindex_not_Hangs
    (combined_kind (map (fun f0 => df_kind (snd f0)) (f :: frames)),
     combined_labels (map (fun f0 => labels (snd f0)) (f :: frames))) (snd x)) as Hr.
  destruct (reindex _ (snd x)); simpl; [discriminate | discriminate | contradiction].
Qed.

Section Whole.

Variables (env : Env) (a : Args).

Lemma symbols_eq : symbols env a = distinct_upper (resolved_tickers env a).
Proof.
  unfold symbols, prepare, resolved_tickers.
  now destruct (resolve_isins env _ _).
Qed.

Lemma download_eq :
  download env a
  = match aligned env a with
    | (Ok _, st) =>
        match concat_or_realign st with
        | (Ok data, st) => (Ok (finish a (symbols env a) (_ISINS st) data), st)
        | (Raised e, st) => (Raised e, st)
        | (Hangs, st) => (Hangs, st)
        end
    | (Raised e, st) => (Raised e, st)
    | (Hangs, st) => (Hangs, st)
    end.
Proof.
  unfold download, aligned. rewrite prepare_eq, fetch_all_spec. reflexivity.
Qed.

Lemma results_of_keys order : dict_keys (results_of env a order) = order.
Proof.
  unfold results_of, dict_keys. rewrite map_map. simpl. apply map_id.
Qed.

Lemma fetched_state_keys_NoDup : NoDup (dict_keys (_DFS (fetched_state env a))).
Proof. simpl. rewrite results_of_keys. apply write_order_NoDup. Qed.

Lemma realign_events_keys (d : pydict DataFrame) :
  realign_events d = realign_writes (dict_keys d).
Proof.
  unfold realign_events, realign_writes, dict_keys.
  induction d as [| kv d IH]; simpl; [reflexivity | now rewrite IH].
Qed.

(** What lines 187-190 leave behind, whatever their outcome. *)
Lemma aligned_frame :
  let st := snd (aligned env a) in
  dict_keys (_DFS st) = write_order env a
  /\ _ERRORS st = _ERRORS (fetched_state env a)
  /\ _TRACEBACKS st = _TRACEBACKS (fetched_state env a)
  /\ _ISINS st = _ISINS (initial env a)
  /\ (exists ks, trace st = trace (fetched_state env a) ++ map Localize ks)
  /\ (fst (aligned env a) = Ok tt
      -> _DFS st = (if default_ignore_tz (ignore_tz a) (interval a)
                    then map localize_entry (_DFS (fetched_state env a))
                    else _DFS (fetched_state env a))
         /\ trace st = trace (fetched_state env a)
                       ++ (if default_ignore_tz (ignore_tz a) (interval a)
                           then localize_events (_DFS (fetched_state env a))
                           else []))
  /\ fst (aligned env a) <> Hangs.
Proof.
  unfold aligned. destruct (default_ignore_tz _ _).
  - destruct (localize_all_from [] (_DFS (fetched_state env a)) (fetched_state env a)
                eq_refl fetched_state_keys_NoDup) as [H | H].
    + rewrite H. simpl. rewrite dict_keys_map_entries, results_of_keys by reflexivity.
      refine (conj eq_refl (conj eq_refl (conj eq_refl (conj eq_refl (conj _ (conj _ _)))))).
      * exists (map fst (List.filter has_rows (_DFS (fetched_state env a)))).
        unfold localize_events. now rewrite map_map.
      * intros _. split; reflexivity.
      * discriminate.
    + destruct H as (e & st' & Heq & _ & Hk & He & Ht & Hi & Htr).
      rewrite Heq. simpl in *. rewrite results_of_keys in Hk.
      refine (conj Hk (conj He (conj Ht (conj Hi (conj Htr (conj _ _)))))).
      * discriminate.
      * discriminate.
  - simpl. rewrite results_of_keys.
    refine (conj eq_refl (conj eq_refl (conj eq_refl (conj eq_refl (conj _ (conj _ _)))))).
    + exists []. simpl. now rewrite app_nil_r.
    + intros _. split; [reflexivity | now rewrite app_nil_r].
    + discriminate.
Qed.

(** What lines 192-198 do to the module [shared]. *)
Lemma concat_or_realign_frame (st : Shared) :
  NoDup (dict_keys (_DFS st)) ->
  let st' := snd (concat_or_realign st) in
  dict_keys (_DFS st') = dict_keys (_DFS st)
  /\ _ERRORS st' = _ERRORS st /\ _TRACEBACKS st' = _TRACEBACKS st
  /\ _ISINS st' = _ISINS st
  /\ (exists tail, trace st' = trace st ++ tail
                   /\ concat_events (dict_keys (_DFS st)) tail
                   /\ tail <> [])
  /\ fst (concat_or_realign st) <> Hangs.
Proof.
  intros Hnd. unfold concat_or_realign.
  assert (Hlog : _DFS (log (Concat (_DFS st)) st) = _DFS st) by reflexivity.
  rewrite Hlog.
  assert (Hre : forall x : Outcome Table * Shared,
             x = (let st0 := _realign_dfs (log Realign (log (Concat (_DFS st)) st)) in
                  let st1 := log (Concat (_DFS st0)) st0 in
                  (concat_axis1 (_DFS st1), st1)) ->
             dict_keys (_DFS (snd x)) = dict_keys (_DFS st)
             /\ _ERRORS (snd x) = _ERRORS st /\ _TRACEBACKS (snd x) = _TRACEBACKS st
             /\ _ISINS (snd x) = _ISINS st
             /\ (exists tail, trace (snd x) = trace st ++ tail
                              /\ concat_events (dict_keys (_DFS st)) tail
                              /\ tail <> [])).
  { intros x ->. cbv zeta. rewrite realign_dfs_spec by exact Hnd. simpl.
    rewrite dict_keys_map_entries by reflexivity.
    refine (conj eq_refl (conj eq_refl (conj eq_refl (conj eq_refl _)))).
    eexists. split; [| split].
    - rewrite <- !app_assoc. reflexivity.
    - rewrite realign_events_keys. apply two_concats.
    - discriminate. }
  pose proof concat_axis1_not_Hangs as Hnh.
  destruct (concat_axis1 (_DFS st)) as [data | e |] eqn:Ec.
  - simpl. refine (conj eq_refl (conj eq_refl (conj eq_refl (conj eq_refl (conj _ _))))).
    + eexists. split; [reflexivity |]. split; [apply one_concat | discriminate].
    + discriminate.
  - destruct (Hre _ eq_refl) as (H1 & H2 & H3 & H4 & H5).
    refine (conj H1 (conj H2 (conj H3 (conj H4 (conj H5 _))))).
    apply Hnh.
  - exfalso. now apply (Hnh (_DFS st)).
Qed.

End Whole.

(** ** Counting events *)

Lemma occurrences_app (e : Event) (l1 l2 : list Event) :
  occurrences e (l1 ++ l2) = (occurrences e l1 + occurrences e l2)%nat.
Proof. apply count_occ_app. Qed.

Lemma occurrences_none (e : Event) (l : list Event) :
  (forall x, In x l -> x <> e) -> occurrences e l = 0%nat.
Proof.
  intros H. apply count_occ_not_In. intros Hin. now apply (H e).
Qed.

Lemma occurrences_map_other {A} (f : A -> Event) (e : Event) (l : list A) :
  (forall x, f x <> e) -> occurrences e (map f l) = 0%nat.
Proof.
  intros H. apply occurrences_none. intros x Hx.
  apply in_map_iff in Hx as [y [<- _]]. apply H.
Qed.

(** Events of which each item of a duplicate-free list emits [n], and only
    the item [t] itself. *)
Lemma occurrences_flat_map {A} `{EqDecision A} (f : A -> list Event)
    (e : Event) (t : A) (n : nat) (l : list A) :
  NoDup l ->
  (forall x, x ∈ l -> x <> t -> occurrences e (f x) = 0%nat) ->
  (t ∈ l -> occurrences e (f t) = n) ->
  occurrences e (flat_map f l) = if bool_decide (t ∈ l) then n else 0%nat.
Proof.
  intros Hnd H0 Ht. induction Hnd as [| x l Hx Hnd IH]; [reflexivity |].
  simpl flat_map. rewrite occurrences_app.
  rewrite IH.
  2:{ intros y Hy. apply H0. now right. }
  2:{ intros Hin. apply Ht. now right. }
  destruct (decide (x = t)) as [-> | Hne].
  - rewrite Ht by (now left).
    rewrite (bool_decide_eq_true_2 (t ∈ t :: l)) by (now left).
    rewrite bool_decide_eq_false_2 by exact Hx. lia.
  - rewrite H0; [| now left | exact Hne]. simpl.
    apply (f_equal (fun b : bool => if b then n else 0%nat)).
    apply bool_decide_ext. rewrite elem_of_cons. intuition congruence.
Qed.

Ltac count_events :=
  unfold occurrences;
  repeat first
    [ rewrite count_occ_nil
    | rewrite count_occ_cons_eq by congruence
    | rewrite count_occ_cons_neq by congruence ].

Section Counting.

Variables (env : Env) (a : Args).

Lemma occurrences_worker_Fetch (t u : string) :
  occurrences (Fetch t) (worker_events env a u)
  = if bool_decide (u = t) then 1%nat else 0%nat.
Proof.
  unfold worker_events.
  destruct (fetch_raises _);
    destruct (decide (u = t)) as [-> | Hne];
    rewrite ?bool_decide_eq_true_2, ?bool_decide_eq_false_2 by congruence;
    simpl andb; cbv iota; count_events; reflexivity.
Qed.

Lemma occurrences_worker_SetDFS (t u : string) :
  occurrences (SetDFS t) (worker_events env a u)
  = if bool_decide (PyStr.upper u = t) then 1%nat else 0%nat.
Proof.
  unfold worker_events.
  destruct (fetch_raises _);
    destruct (decide (PyStr.upper u = t)) as [<- | Hne];
    rewrite ?bool_decide_eq_true_2, ?bool_decide_eq_false_2 by congruence;
    simpl andb; cbv iota; count_events; reflexivity.
Qed.

Lemma occurrences_worker_SetERRORS (t u : string) :
  occurrences (SetERRORS t) (worker_events env a u)
  = if bool_decide (PyStr.upper u = t) && fetch_raises (fetched env a u)
    then 1%nat else 0%nat.
Proof.
  unfold worker_events.
  destruct (fetch_raises _);
    destruct (decide (PyStr.upper u = t)) as [<- | Hne];
    rewrite ?bool_decide_eq_true_2, ?bool_decide_eq_false_2 by congruence;
    simpl andb; cbv iota; count_events; reflexivity.
Qed.

Lemma occurrences_worker_SetTRACEBACKS (t u : string) :
  occurrences (SetTRACEBACKS t) (worker_events env a u)
  = if bool_decide (PyStr.upper u = t) && fetch_raises (fetched env a u)
    then 1%nat else 0%nat.
Proof.
  unfold worker_events.
  destruct (fetch_raises _);
    destruct (decide (PyStr.upper u = t)) as [<- | Hne];
    rewrite ?bool_decide_eq_true_2, ?bool_decide_eq_false_2 by congruence;
    simpl andb; cbv iota; count_events; reflexivity.
Qed.

Lemma occurrences_worker_other (e : Event) (u : string) :
  (forall k, e <> Fetch k) -> (forall k, e <> SetDFS k) ->
  (forall k, e <> SetERRORS k) -> (forall k, e <> SetTRACEBACKS k) ->
  occurrences e (worker_events env a u) = 0%nat.
Proof.
  intros H1 H2 H3 H4. apply occurrences_none. intros x Hx.
  unfold worker_events in Hx. simpl in Hx.
  destruct Hx as [<- | [<- | Hx]]; [auto | auto |].
  destruct (fetch_raises _); simpl in Hx; [| tauto].
  destruct Hx as [<- | [<- | []]]; auto.
Qed.

(** Among the workers of the call, exactly the one of ticker [t] fetches
    [t] and assigns [shared._DFS[t]]. *)
Lemma occurrences_loop_Fetch (t : string) :
  occurrences (Fetch t) (flat_map (worker_events env a) (write_order env a))
  = if bool_decide (t ∈ symbols env a) then 1%nat else 0%nat.
Proof.
  rewrite (occurrences_flat_map _ _ t 1%nat).
  - apply (f_equal (fun b : bool => if b then 1%nat else 0%nat)).
    apply bool_decide_ext. rewrite !list_elem_of_In. apply write_order_In.
  - apply write_order_NoDup.
  - intros x _ Hne. rewrite occurrences_worker_Fetch.
    now rewrite bool_decide_eq_false_2.
  - intros _. rewrite occurrences_worker_Fetch.
    now rewrite bool_decide_eq_true_2.
Qed.

Lemma occurrences_loop_SetDFS (t : string) :
  occurrences (SetDFS t) (flat_map (worker_events env a) (write_order env a))
  = if bool_decide (t ∈ symbols env a) then 1%nat else 0%nat.
Proof.
  rewrite (occurrences_flat_map _ _ t 1%nat).
  - apply (f_equal (fun b : bool => if b then 1%nat else 0%nat)).
    apply bool_decide_ext. rewrite !list_elem_of_In. apply write_order_In.
  - apply write_order_NoDup.
  - intros x Hx Hne. rewrite occurrences_worker_SetDFS.
    rewrite (symbols_upper env a) by (now apply write_order_In, list_elem_of_In).
    now rewrite bool_decide_eq_false_2.
  - intros Ht. rewrite occurrences_worker_SetDFS.
    rewrite (symbols_upper env a) by (now apply write_order_In, list_elem_of_In).
    now rewrite bool_decide_eq_true_2.
Qed.

Lemma occurrences_loop_SetERRORS (t : string) :
  (occurrences (SetERRORS t) (flat_map (worker_events env a) (write_order env a))
   <= 1)%nat.
Proof.
  rewrite (occurrences_flat_map _ _ t
             (if fetch_raises (fetched env a t) then 1%nat else 0%nat)).
  - destruct (bool_decide _); [destruct (fetch_raises _) |]; lia.
  - apply write_order_NoDup.
  - intros x Hx Hne. rewrite occurrences_worker_SetERRORS.
    rewrite (symbols_upper env a) by (now apply write_order_In, list_elem_of_In).
    now rewrite bool_decide_eq_false_2.
  - intros Ht. rewrite occurrences_worker_SetERRORS.
    rewrite (symbols_upper env a) by (now apply write_order_In, list_elem_of_In).
    now rewrite bool_decide_eq_true_2.
Qed.

Lemma occurrences_loop_SetTRACEBACKS (t : string) :
  (occurrences (SetTRACEBACKS t)
               (flat_map (worker_events env a) (write_order env a)) <= 1)%nat.
Proof.
  rewrite (occurrences_flat_map _ _ t
             (if fetch_raises (fetched env a t) then 1%nat else 0%nat)).
  - destruct (bool_decide _); [destruct (fetch_raises _) |]; lia.
  - apply write_order_NoDup.
  - intros x Hx Hne. rewrite occurrences_worker_SetTRACEBACKS.
    rewrite (symbols_upper env a) by (now apply write_order_In, list_elem_of_In).
    now rewrite bool_decide_eq_false_2.
  - intros Ht. rewrite occurrences_worker_SetTRACEBACKS.
    rewrite (symbols_upper env a) by (now apply write_order_In, list_elem_of_In).
    now rewrite bool_decide_eq_true_2.
Qed.

Lemma occurrences_loop_other (e : Event) :
  (forall k, e <> Fetch k) -> (forall k, e <> SetDFS k) ->
  (forall k, e <> SetERRORS k) -> (forall k, e <> SetTRACEBACKS k) ->
  occurrences e (flat_map (worker_events env a) (write_order env a)) = 0%nat.
Proof.
  intros H1 H2 H3 H4. apply occurrences_none. intros x Hx.
  apply in_flat_map in Hx as (u & _ & Hx). intros Heq. subst x.
  pose proof (occurrences_worker_other e u H1 H2 H3 H4) as H0.
  unfold occurrences in H0. apply count_occ_not_In in H0. contradiction.
Qed.

(** The events of the steps that workers take after their assignment to
    [shared._DFS]: no more of any than the workers had left to run. *)
Lemma landed_occurrences (e : Event) (left : pydict (list Stmt))
    (steps : list string) :
  (occurrences e (map event_of (landed left steps))
   <= occurrences e (map event_of (concat (dict_values left))))%nat.
Proof.
  revert left. induction steps as [| t steps IH]; intros left; simpl; [lia |].
  destruct (dict_get t left) as [[| s0 l] |] eqn:E; try apply IH.
  destruct (dict_get_split left t (s0 :: l) E) as (d1 & d2 & -> & Hn).
  specialize (IH (dict_set t l (d1 ++ (t, s0 :: l) :: d2))).
  rewrite dict_set_middle in IH by exact Hn.
  rewrite dict_set_middle by exact Hn.
  unfold dict_values in *. rewrite !map_app, !concat_app in *.
  cbn [map concat] in *. rewrite !map_app in *. cbn [map app].
  rewrite !occurrences_app in *. cbn [app map].
  change (event_of s0 :: map event_of (landed (d1 ++ (t, l) :: d2) steps))
    with ([event_of s0] ++ map event_of (landed (d1 ++ (t, l) :: d2) steps)).
  change (event_of s0 :: map event_of l)
    with ([event_of s0] ++ map event_of l).
  rewrite !occurrences_app. cbn [snd] in *.
  change (map event_of (s0 :: l)) with ([event_of s0] ++ map event_of l).
  rewrite occurrences_app. lia.
Qed.

Lemma left_behind_events :
  map event_of (concat (dict_values (left_behind env a)))
  = flat_map (fun t => map event_of (reported_later env a t)) (symbols env a).
Proof.
  unfold left_behind, dict_values. rewrite concat_map, !map_map.
  rewrite flat_map_concat_map. f_equal. apply map_ext.
  intros t. cbn [snd]. now rewrite until_result_worker.
Qed.

Lemma occurrences_reports (e : Event) :
  (occurrences e (map event_of (reports env a))
   <= occurrences e (flat_map (fun t => map event_of (reported_later env a t))
                              (symbols env a)))%nat.
Proof. rewrite <- left_behind_events. apply landed_occurrences. Qed.

Lemma occurrences_reported_later (e : Event) (u : string) :
  occurrences e (map event_of (reported_later env a u))
  = match e with
    | SetERRORS k | SetTRACEBACKS k =>
        if bool_decide (PyStr.upper u = k) && fetch_raises (fetched env a u)
        then 1%nat else 0%nat
    | _ => 0%nat
    end.
Proof.
  unfold reported_later.
  destruct (fetched env a u) as [data | err tb]; cbn [map event_of fetch_raises].
  - destruct e; rewrite ?andb_false_r; reflexivity.
  - rewrite ?andb_true_r.
    destruct e; try (count_events; reflexivity);
      (destruct (decide (PyStr.upper u = key)) as [<- | Hne];
       [rewrite bool_decide_eq_true_2 by reflexivity
       | rewrite bool_decide_eq_false_2 by exact Hne];
       count_events; reflexivity).
Qed.

(** No statement of lines 267-268 is run twice, and none is a fetch or an
    assignment to [shared._DFS]. *)
Lemma occurrences_reports_le (e : Event) :
  (occurrences e (map event_of (reports env a))
   <= match e with
      | SetERRORS k | SetTRACEBACKS k => 1
      | _ => 0
      end)%nat.
Proof.
  etransitivity; [apply occurrences_reports |].
  assert (Hzero : (forall k, e <> SetERRORS k) -> (forall k, e <> SetTRACEBACKS k) ->
                  occurrences e (flat_map (fun t => map event_of
                                                      (reported_later env a t))
                                          (symbols env a)) = 0%nat).
  { intros H1 H2. apply occurrences_none. intros x Hx.
    apply in_flat_map in Hx as (u & _ & Hx). intros ->.
    pose proof (occurrences_reported_later e u) as H0.
    unfold occurrences in H0.
    assert (Hc : count_occ Event_eq_dec (map event_of (reported_later env a u)) e
                 = 0%nat).
    { rewrite H0. destruct e; try reflexivity; [now elim (H1 key) | now elim (H2 key)]. }
    apply count_occ_not_In in Hc. contradiction. }
  assert (Hone : forall k, (e = SetERRORS k \/ e = SetTRACEBACKS k) ->
                 (occurrences e (flat_map (fun t => map event_of
                                                      (reported_later env a t))
                                          (symbols env a)) <= 1)%nat).
  { intros k Hk.
    rewrite (occurrences_flat_map _ _ k
               (if fetch_raises (fetched env a k) then 1%nat else 0%nat)).
    - destruct (bool_decide _); [destruct (fetch_raises _) |]; lia.
    - apply symbols_NoDup.
    - intros x Hx Hne. rewrite occurrences_reported_later.
      rewrite (symbols_upper env a) by (now apply list_elem_of_In).
      destruct Hk as [-> | ->]; now rewrite bool_decide_eq_false_2.
    - intros Ht. rewrite occurrences_reported_later.
      rewrite (symbols_upper env a) by (now apply list_elem_of_In).
      destruct Hk as [-> | ->]; now rewrite bool_decide_eq_true_2. }
  destruct e; try (rewrite Hzero by discriminate; lia);
    apply (Hone key); auto.
Qed.

Lemma occurrences_started (e : Event) (u : string) :
  occurrences e (started_events u)
  = match e with
    | Fetch t => if bool_decide (u = t) then 1%nat else 0%nat
    | SetDFS t => if bool_decide (PyStr.upper u = t) then 1%nat else 0%nat
    | _ => 0%nat
    end.
Proof.
  unfold started_events.
  destruct e; try (count_events; reflexivity).
  - destruct (decide (u = ticker)) as [<- | Hne];
      [rewrite bool_decide_eq_true_2 by reflexivity
      | rewrite bool_decide_eq_false_2 by exact Hne];
      count_events; reflexivity.
  - destruct (decide (PyStr.upper u = key)) as [<- | Hne];
      [rewrite bool_decide_eq_true_2 by reflexivity
      | rewrite bool_decide_eq_false_2 by exact Hne];
      count_events; reflexivity.
Qed.

Lemma occurrences_all_started (e : Event) :
  occurrences e (flat_map started_events (write_order env a))
  = match e with
    | Fetch t | SetDFS t =>
        if bool_decide (t ∈ symbols env a) then 1%nat else 0%nat
    | _ => 0%nat
    end.
Proof.
  assert (Hzero : (forall k, e <> Fetch k) -> (forall k, e <> SetDFS k) ->
                  occurrences e (flat_map started_events (write_order env a))
                  = 0%nat).
  { intros H1 H2. apply occurrences_none. intros x Hx.
    apply in_flat_map in Hx as (u & _ & Hx). unfold started_events in Hx.
    destruct Hx as [<- | [<- | []]]; auto. }
  assert (Hone : forall t, (e = Fetch t \/ e = SetDFS t) ->
                 occurrences e (flat_map started_events (write_order env a))
                 = if bool_decide (t ∈ symbols env a) then 1%nat else 0%nat).
  { intros t Ht. rewrite (occurrences_flat_map _ _ t 1%nat).
    - apply (f_equal (fun b : bool => if b then 1%nat else 0%nat)).
      apply bool_decide_ext. rewrite !list_elem_of_In. apply write_order_In.
    - apply write_order_NoDup.
    - intros x Hx Hne. rewrite occurrences_started.
      destruct Ht as [-> | ->].
      + now rewrite bool_decide_eq_false_2.
      + rewrite (symbols_upper env a) by (now apply write_order_In, list_elem_of_In).
        now rewrite bool_decide_eq_false_2.
    - intros Hin. rewrite occurrences_started.
      destruct Ht as [-> | ->].
      + now rewrite bool_decide_eq_true_2.
      + rewrite (symbols_upper env a) by (now apply write_order_In, list_elem_of_In).
        now rewrite bool_decide_eq_true_2. }
  destruct e; try (apply Hzero; discriminate).
  - apply (Hone ticker). now left.
  - apply (Hone key). now right.
Qed.

(** Among the fetches of the call, with threads or without, exactly the
    one of ticker [t] fetches [t] and assigns [shared._DFS[t]]. *)
Lemma occurrences_workers_Fetch (t : string) :
  occurrences (Fetch t) (fetch_events env a)
  = if bool_decide (t ∈ symbols env a) then 1%nat else 0%nat.
Proof.
  unfold fetch_events. destruct (truthy _); [| apply occurrences_loop_Fetch].
  rewrite occurrences_app, occurrences_all_started.
  pose proof (occurrences_reports_le (Fetch t)). simpl in *. lia.
Qed.

Lemma occurrences_workers_SetDFS (t : string) :
  occurrences (SetDFS t) (fetch_events env a)
  = if bool_decide (t ∈ symbols env a) then 1%nat else 0%nat.
Proof.
  unfold fetch_events. destruct (truthy _); [| apply occurrences_loop_SetDFS].
  rewrite occurrences_app, occurrences_all_started.
  pose proof (occurrences_reports_le (SetDFS t)). simpl in *. lia.
Qed.

Lemma occurrences_workers_SetERRORS (t : string) :
  (occurrences (SetERRORS t) (fetch_events env a) <= 1)%nat.
Proof.
  unfold fetch_events. destruct (truthy _); [| apply occurrences_loop_SetERRORS].
  rewrite occurrences_app, occurrences_all_started.
  pose proof (occurrences_reports_le (SetERRORS t)). simpl in *. lia.
Qed.

Lemma occurrences_workers_SetTRACEBACKS (t : string) :
  (occurrences (SetTRACEBACKS t) (fetch_events env a) <= 1)%nat.
Proof.
  unfold fetch_events. destruct (truthy _); [| apply occurrences_loop_SetTRACEBACKS].
  rewrite occurrences_app, occurrences_all_started.
  pose proof (occurrences_reports_le (SetTRACEBACKS t)). simpl in *. lia.
Qed.

Lemma occurrences_workers_other (e : Event) :
  (forall k, e <> Fetch k) -> (forall k, e <> SetDFS k) ->
  (forall k, e <> SetERRORS k) -> (forall k, e <> SetTRACEBACKS k) ->
  occurrences e (fetch_events env a) = 0%nat.
Proof.
  intros H1 H2 H3 H4. unfold fetch_events.
  destruct (truthy _); [| now apply occurrences_loop_other].
  rewrite occurrences_app, occurrences_all_started.
  pose proof (occurrences_reports_le e) as Hle.
  destruct e; try lia; [now elim (H1 ticker) | now elim (H2 key)
                        | now elim (H3 key) | now elim (H4 key)].
Qed.

Lemma occurrences_realign_writes (t : string) (keys : list string) :
  NoDup keys ->
  occurrences (SetDFS t) (realign_writes keys)
  = if bool_decide (t ∈ keys) then 2%nat else 0%nat.
Proof.
  intros Hnd. unfold realign_writes.
  apply occurrences_flat_map; [exact Hnd | |].
  - intros x _ Hne. count_events. reflexivity.
  - intros _. count_events. reflexivity.
Qed.

Lemma occurrences_realign_writes_other (e : Event) (keys : list string) :
  (forall k, e <> SetDFS k) -> occurrences e (realign_writes keys) = 0%nat.
Proof.
  intros H. apply occurrences_none. intros x Hx.
  unfold realign_writes in Hx. apply in_flat_map in Hx as (u & _ & Hx).
  simpl in Hx. destruct Hx as [<- | [<- | []]]; intros Heq; now apply (H u).
Qed.

End Counting.

(** ** The module [shared] and the trace after a call *)

Section AfterCall.

Variables (env : Env) (a : Args).

Lemma download_frame :
  let st := snd (download env a) in
  dict_keys (_DFS st) = write_order env a
  /\ _ERRORS st = _ERRORS (fetched_state env a)
  /\ _TRACEBACKS st = _TRACEBACKS (fetched_state env a)
  /\ (exists ks tail,
        trace st = trace (initial env a)
                   ++ fetch_events env a
                   ++ map Localize ks ++ tail
        /\ concat_events (write_order env a) tail)
  /\ fst (download env a) <> Hangs.
Proof.
  rewrite download_eq.
  destruct aligned_frame with (env := env) (a := a)
    as (Hk & He & Ht & Hi & (ks & Htr) & _ & Hnh).
  destruct (aligned env a) as [[[] | e |] st1]; simpl in *.
  - assert (Hnd : NoDup (dict_keys (_DFS st1))).
    { rewrite Hk. apply write_order_NoDup. }
    destruct (concat_or_realign_frame st1 Hnd)
      as (Hk' & He' & Ht' & Hi' & (tail & Htr' & Hshape & _) & Hnh').
    assert (Hst : let st := snd (concat_or_realign st1) in
              dict_keys (_DFS st) = write_order env a
              /\ _ERRORS st = _ERRORS (fetched_state env a)
              /\ _TRACEBACKS st = _TRACEBACKS (fetched_state env a)
              /\ (exists ks tail,
                    trace st = trace (initial env a)
                               ++ fetch_events env a
                               ++ map Localize ks ++ tail
                    /\ concat_events (write_order env a) tail)).
    { cbv zeta. rewrite Hk', He', Ht', Hk, He, Ht.
      refine (conj eq_refl (conj eq_refl (conj eq_refl _))).
      exists ks, tail. rewrite Htr', Htr, Hk in *. split; [| exact Hshape].
      now rewrite <- !app_assoc. }
    destruct (concat_or_realign st1) as [[data | e |] st2]; simpl in *.
    + destruct Hst as (H1 & H2 & H3 & H4). repeat split; auto; discriminate.
    + destruct Hst as (H1 & H2 & H3 & H4). repeat split; auto; discriminate.
    + contradiction.
  - refine (conj Hk (conj He (conj Ht (conj _ _)))); [| discriminate].
    exists ks, []. rewrite Htr. split; [| constructor].
    now rewrite <- !app_assoc, app_nil_r.
  - contradiction.
Qed.

End AfterCall.

(** Characters that are the same letter have the same upper case, and the
    upper case of a character is the same letter. *)
Lemma same_letter_upper (c d : ascii) :
  PyStr.same_letter c d = true -> PyStr.upper_ascii c = PyStr.upper_ascii d.
Proof.
  unfold PyStr.same_letter. intros H. apply orb_true_iff in H.
  destruct H as [H | H].
  - apply Ascii.eqb_eq in H. now subst.
  - apply existsb_exists in H. destruct H as ([x y] & Hin & H).
    cbn [fst snd] in H. apply orb_true_iff in H.
    assert (Hxy : PyStr.upper_ascii x = y /\ PyStr.upper_ascii y = y).
    { vm_compute in Hin.
      repeat (destruct Hin as [[= <- <-] | Hin]; [split; reflexivity |]).
      contradiction. }
    destruct Hxy as (Hx & Hy).
    destruct H as [H | H]; apply andb_true_iff in H; destruct H as (Hc & Hd);
      apply Ascii.eqb_eq in Hc, Hd; subst c d; congruence.
Qed.

Lemma upper_same_letter (c : ascii) :
  PyStr.same_letter c (PyStr.upper_ascii c) = true.
Proof. destruct c as [[] [] [] [] [] [] [] []]; reflexivity. Qed.

Lemma equal_ignoring_case_upper (s t : string) :
  PyStr.equal_ignoring_case s t = true -> PyStr.upper s = PyStr.upper t.
Proof.
  revert t. induction s as [| c s IH]; intros [| d t] H; simpl in *;
    try discriminate; [reflexivity |].
  apply andb_true_iff in H. destruct H as (Hc & Hs).
  now rewrite (same_letter_upper _ _ Hc), (IH _ Hs).
Qed.

Lemma upper_equal_ignoring_case (s : string) :
  PyStr.equal_ignoring_case s (PyStr.upper s) = true.
Proof.
  induction s as [| c s IH]; simpl; [reflexivity |].
  now rewrite upper_same_letter, IH.
Qed.



(** ** Write-once keys *)

Lemma concat_or_realign_ok (st : Shared) :
  is_ok (concat_axis1 (_DFS st)) = true ->
  concat_or_realign st = (concat_axis1 (_DFS st), log (Concat (_DFS st)) st).
Proof.
  unfold concat_or_realign.
  change (_DFS (log (Concat (_DFS st)) st)) with (_DFS st).
  destruct (concat_axis1 (_DFS st)); simpl; [reflexivity | discriminate ..].
Qed.




(** ** Threads *)

(** Lines 187-210 read [shared._DFS] and [shared._ISINS] and nothing else
    of the module. *)
Lemma localize_all_frames (keys : list string) (st st' : Shared) :
  same_frames st st' ->
  fst (localize_all keys st) = fst (localize_all keys st')
  /\ same_frames (snd (localize_all keys st)) (snd (localize_all keys st')).
Proof.
  revert st st'. induction keys as [| k keys IH]; intros st st' [Hd Hi].
  - simpl. now split.
  - simpl. rewrite <- Hd.
    destruct (dict_get k (_DFS st)) as [df |]; [| now split].
    destruct (0 <? len df)%nat; [| now apply IH].
    destruct (tz_localize_None df) as [df' | e |]; [| now split ..].
    apply IH. split; simpl; congruence.
Qed.

Lemma realign_frames (idx : option Index) (keys : list string)
    (st st' : Shared) :
  same_frames st st' ->
  same_frames (foldl (realign_step idx) st keys)
              (foldl (realign_step idx) st' keys).
Proof.
  revert st st'. induction keys as [| k keys IH]; intros st st' [Hd Hi];
    [now split |].
  simpl. apply IH. unfold realign_step. rewrite <- Hd.
  destruct (dict_get k (_DFS st)); split; simpl; congruence.
Qed.

Lemma concat_or_realign_frames (st st' : Shared) :
  same_frames st st' ->
  fst (concat_or_realign st) = fst (concat_or_realign st')
  /\ same_frames (snd (concat_or_realign st)) (snd (concat_or_realign st')).
Proof.
  intros [Hd Hi]. unfold concat_or_realign. cbn [log _DFS]. rewrite <- Hd.
  assert (Hre : same_frames (_realign_dfs (log Realign (log (Concat (_DFS st)) st)))
                            (_realign_dfs (log Realign (log (Concat (_DFS st)) st')))).
  { unfold _realign_dfs. cbn [log _DFS]. rewrite <- Hd.
    apply (realign_frames (reference_index (dict_values (_DFS st)))).
    now split. }
  destruct Hre as [Hd' Hi'].
  destruct (concat_axis1 (_DFS st)); cbn [fst snd log _DFS];
    try (rewrite <- Hd'; split; [reflexivity | now split]).
  now split.
Qed.

Lemma aggregate_frames (a : Args) (tkrs : list string) (st st' : Shared) :
  same_frames st st' ->
  fst (aggregate a tkrs st) = fst (aggregate a tkrs st')
  /\ _DFS (snd (aggregate a tkrs st)) = _DFS (snd (aggregate a tkrs st')).
Proof.
  intros Hs. unfold aggregate.
  assert (Hal : fst (if default_ignore_tz (ignore_tz a) (interval a)
                     then localize_all (dict_keys (_DFS st)) st else (Ok tt, st))
                = fst (if default_ignore_tz (ignore_tz a) (interval a)
                       then localize_all (dict_keys (_DFS st')) st'
                       else (Ok tt, st'))
                /\ same_frames
                     (snd (if default_ignore_tz (ignore_tz a) (interval a)
                           then localize_all (dict_keys (_DFS st)) st
                           else (Ok tt, st)))
                     (snd (if default_ignore_tz (ignore_tz a) (interval a)
                           then localize_all (dict_keys (_DFS st')) st'
                           else (Ok tt, st')))).
  { destruct (default_ignore_tz _ _); [| now split].
    destruct Hs as [Hd Hi]. rewrite <- Hd. apply localize_all_frames. now split. }
  destruct (if default_ignore_tz (ignore_tz a) (interval a)
            then localize_all (dict_keys (_DFS st)) st else (Ok tt, st))
    as [o1 st1].
  destruct (if default_ignore_tz (ignore_tz a) (interval a)
            then localize_all (dict_keys (_DFS st')) st' else (Ok tt, st'))
    as [o1' st1'].
  cbn [fst snd] in Hal. destruct Hal as [<- Hs1].
  destruct o1 as [[] | e |]; [| split; [reflexivity | apply Hs1] ..].
  destruct (concat_or_realign_frames st1 st1' Hs1) as [Hf [Hd2 Hi2]].
  destruct (concat_or_realign st1) as [o2 st2].
  destruct (concat_or_realign st1') as [o2' st2'].
  cbn [fst snd] in *. subst o2'.
  destruct o2; cbn [fst snd]; split; congruence.
Qed.

Lemma assign_errors_get (l : list Stmt) (d : pydict string) (k e : string) :
  dict_get k (assign_errors l d) = Some e ->
  dict_get k d = Some e \/ In (AssignERRORS k e) l.
Proof.
  revert d. induction l as [| s l IH]; intros d; [now left |].
  unfold assign_errors in *. simpl foldl. intros H.
  apply IH in H as [H | H]; [| right; now right].
  destruct s as [| | k0 e0 |]; auto.
  destruct (String.eqb_spec k0 k) as [-> | Hne].
  - rewrite dict_get_set_eq in H. injection H as ->. right. now left.
  - rewrite dict_get_set_ne in H by exact Hne. now left.
Qed.

Lemma assign_tracebacks_get (l : list Stmt) (d : pydict string) (k tb : string) :
  dict_get k (assign_tracebacks l d) = Some tb ->
  dict_get k d = Some tb \/ In (AssignTRACEBACKS k tb) l.
Proof.
  revert d. induction l as [| s l IH]; intros d; [now left |].
  unfold assign_tracebacks in *. simpl foldl. intros H.
  apply IH in H as [H | H]; [| right; now right].
  destruct s as [| | | k0 tb0]; auto.
  destruct (String.eqb_spec k0 k) as [-> | Hne].
  - rewrite dict_get_set_eq in H. injection H as ->. right. now left.
  - rewrite dict_get_set_ne in H by exact Hne. now left.
Qed.

Section Threads.

Variables (env : Env) (a : Args).

(** The synchronous loop, whatever the order in which it visits the
    symbols. *)
Lemma run_in_order (order : list string) :
  NoDup order -> (forall t, In t order -> In t (symbols env a)) ->
  download_synchronously env a order (initial env a)
  = mkShared (results_of env a order) (errors_of env a order)
             (tracebacks_of env a order) (_ISINS (initial env a))
             (trace (initial env a) ++ flat_map (worker_events env a) order).
Proof.
  intros Hnd Hin.
  destruct (initial_state env a) as (H1 & H2 & H3 & _).
  replace (initial env a) with
    (mkShared (results_of env a []) (errors_of env a [])
              (tracebacks_of env a []) (_ISINS (initial env a))
              (trace (initial env a))) at 1.
  2:{ destruct (initial env a); simpl in *; subst; reflexivity. }
  rewrite download_synchronously_from.
  - reflexivity.
  - exact Hnd.
  - intros t Ht. apply (symbols_upper env a). now apply Hin.
Qed.

Lemma download_aggregate :
  download env a = aggregate a (symbols env a) (fetched_state env a).
Proof. rewrite download_eq. reflexivity. Qed.

(** A call without threads is its synchronous loop over the symbols. *)
Lemma download_is_download_in_order :
  truthy (effective_threads env a) = false ->
  download env a = download_in_order env a (symbols env a).
Proof.
  intros Ht. unfold download_in_order.
  rewrite run_in_order by (auto using symbols_NoDup).
  rewrite download_aggregate. unfold fetched_state, fetch_events, write_order.
  now rewrite Ht.
Qed.

Lemma dict_get_results_of (order : list string) (k : string) :
  dict_get k (results_of env a order)
  = if bool_decide (k ∈ order) then Some (stored (fetched env a k)) else None.
Proof.
  induction order as [| t r IH]; [reflexivity |].
  simpl. destruct (String.eqb_spec k t) as [-> | Hne].
  - now rewrite bool_decide_eq_true_2 by apply list_elem_of_here.
  - rewrite IH. apply (f_equal (fun b : bool => if b then _ else _)).
    apply bool_decide_ext. rewrite elem_of_cons. intuition congruence.
Qed.

Lemma errors_of_cons (t : string) (r : list string) :
  errors_of env a (t :: r)
  = match error_of (fetched env a t) with
    | Some e => (t, e) :: errors_of env a r
    | None => errors_of env a r
    end.
Proof. unfold errors_of. simpl. now destruct (error_of _). Qed.

Lemma tracebacks_of_cons (t : string) (r : list string) :
  tracebacks_of env a (t :: r)
  = match traceback_of (fetched env a t) with
    | Some e => (t, e) :: tracebacks_of env a r
    | None => tracebacks_of env a r
    end.
Proof. unfold tracebacks_of. simpl. now destruct (traceback_of _). Qed.

Lemma dict_get_errors_of (order : list string) (k : string) :
  dict_get k (errors_of env a order)
  = if bool_decide (k ∈ order) then error_of (fetched env a k) else None.
Proof.
  induction order as [| t r IH]; [reflexivity |].
  rewrite errors_of_cons. destruct (decide (k = t)) as [-> | Hne].
  - rewrite bool_decide_eq_true_2 by apply list_elem_of_here.
    destruct (error_of (fetched env a t)) eqn:E.
    + simpl. now rewrite String.eqb_refl.
    + rewrite IH. now destruct (bool_decide _).
  - assert (Hb : bool_decide (k ∈ t :: r) = bool_decide (k ∈ r)).
    { apply bool_decide_ext. rewrite elem_of_cons. intuition congruence. }
    rewrite Hb, <- IH.
    destruct (error_of (fetched env a t)); [| reflexivity].
    simpl. destruct (String.eqb_spec k t); [congruence | reflexivity].
Qed.

Lemma dict_get_tracebacks_of (order : list string) (k : string) :
  dict_get k (tracebacks_of env a order)
  = if bool_decide (k ∈ order) then traceback_of (fetched env a k) else None.
Proof.
  induction order as [| t r IH]; [reflexivity |].
  rewrite tracebacks_of_cons. destruct (decide (k = t)) as [-> | Hne].
  - rewrite bool_decide_eq_true_2 by apply list_elem_of_here.
    destruct (traceback_of (fetched env a t)) eqn:E.
    + simpl. now rewrite String.eqb_refl.
    + rewrite IH. now destruct (bool_decide _).
  - assert (Hb : bool_decide (k ∈ t :: r) = bool_decide (k ∈ r)).
    { apply bool_decide_ext. rewrite elem_of_cons. intuition congruence. }
    rewrite Hb, <- IH.
    destruct (traceback_of (fetched env a t)); [| reflexivity].
    simpl. destruct (String.eqb_spec k t); [congruence | reflexivity].
Qed.

Lemma in_write_order (k : string) :
  bool_decide (k ∈ write_order env a) = bool_decide (k ∈ symbols env a).
Proof.
  apply bool_decide_ext. rewrite !list_elem_of_In. apply write_order_In.
Qed.

(** An entry of [shared._ERRORS] after the fetches belongs to a symbol whose
    fetch raised, and is the [repr] of its exception. *)
Lemma reported_error (k e : string) :
  dict_get k (_ERRORS (fetched_state env a)) = Some e ->
  In k (symbols env a) /\ error_of (fetched env a k) = Some e.
Proof.
  cbn [_ERRORS fetched_state]. destruct (truthy (effective_threads env a)).
  - intros H. apply assign_errors_get in H as [H | H]; [discriminate |].
    apply reports_In in H as (t & Ht & Hs). unfold reported_later in Hs.
    destruct (fetched env a t) as [data | e' tb] eqn:Ef; [destruct Hs |].
    rewrite (symbols_upper env a t Ht) in Hs.
    destruct Hs as [[= <- <-] | [[=] | []]]. now rewrite Ef.
  - rewrite dict_get_errors_of, in_write_order.
    destruct (bool_decide (k ∈ symbols env a)) eqn:Ek; [| discriminate].
    apply bool_decide_eq_true_1, list_elem_of_In in Ek. auto.
Qed.

Lemma reported_traceback (k tb : string) :
  dict_get k (_TRACEBACKS (fetched_state env a)) = Some tb ->
  In k (symbols env a) /\ traceback_of (fetched env a k) = Some tb.
Proof.
  cbn [_TRACEBACKS fetched_state]. destruct (truthy (effective_threads env a)).
  - intros H. apply assign_tracebacks_get in H as [H | H]; [discriminate |].
    apply reports_In in H as (t & Ht & Hs). unfold reported_later in Hs.
    destruct (fetched env a t) as [data | e' tb'] eqn:Ef; [destruct Hs |].
    rewrite (symbols_upper env a t Ht) in Hs.
    destruct Hs as [[=] | [[= <- <-] | []]]. now rewrite Ef.
  - rewrite dict_get_tracebacks_of, in_write_order.
    destruct (bool_decide (k ∈ symbols env a)) eqn:Ek; [| discriminate].
    apply bool_decide_eq_true_1, list_elem_of_In in Ek. auto.
Qed.

(** Without threads every worker has run to its end. *)
Lemma reported_without_threads :
  truthy (effective_threads env a) = false ->
  _ERRORS (fetched_state env a) = errors_of env a (symbols env a)
  /\ _TRACEBACKS (fetched_state env a) = tracebacks_of env a (symbols env a).
Proof.
  intros Ht. cbn [_ERRORS _TRACEBACKS fetched_state]. unfold write_order.
  rewrite Ht. split; reflexivity.
Qed.

End Threads.



(** ** Time zones and the concatenation *)

Lemma localize_all_Ok_kinds (done rest : pydict DataFrame) (st : Shared) :
  _DFS st = done ++ rest ->
  NoDup (dict_keys (done ++ rest)) ->
  fst (localize_all (dict_keys rest) st) = Ok tt ->
  forall kv, In kv rest -> has_rows kv = true -> df_kind (snd kv) <> ObjectIndex.
Proof.
  revert done st. induction rest as [| [k df] rest IH]; intros done st Hd Hnd Hok kv Hin;
    [destruct Hin |].
  simpl in Hok. rewrite Hd in Hok.
  assert (Hk : ~ In k (dict_keys done)).
  { unfold dict_keys in *. rewrite map_app in Hnd. simpl in Hnd.
    apply NoDup_app in Hnd as (_ & Hdis & _). intros Hi.
    apply (Hdis k); [now apply list_elem_of_In | apply list_elem_of_here]. }
  rewrite dict_get_middle in Hok by exact Hk.
  destruct (0 <? len df)%nat eqn:Hlen.
  - destruct (tz_localize_None df) as [df' | e |] eqn:Htz; try discriminate.
    destruct Hin as [<- | Hin].
    + intros _ Hkind. simpl in Hkind. unfold tz_localize_None in Htz.
      rewrite Hkind in Htz. discriminate.
    + apply (IH (done ++ [(k, df')]) (mutate_DFS k df' st)); auto.
      * simpl. rewrite Hd, dict_set_middle by exact Hk.
        now rewrite <- app_assoc.
      * unfold dict_keys in *. rewrite <- app_assoc. simpl.
        rewrite map_app in *. exact Hnd.
  - destruct Hin as [<- | Hin].
    + unfold has_rows. simpl. rewrite Hlen. discriminate.
    + apply (IH (done ++ [(k, df)]) st); auto.
      * now rewrite Hd, <- app_assoc.
      * now rewrite <- app_assoc.
Qed.

Lemma tz_localize_None_naive (df df' : DataFrame) :
  tz_localize_None df = Ok df' ->
  df_kind df' = DatetimeIndex None /\ len df' = len df
  /\ df_columns df' = df_columns df.
Proof.
  unfold tz_localize_None. destruct df as [[| [off |]] cols rows]; simpl;
    intros [= <-]; simpl; repeat split; auto.
  unfold len. simpl. now rewrite length_map.
Qed.

Lemma localized_len (df : DataFrame) : len (localized df) = len df.
Proof.
  unfold localized. destruct (0 <? len df)%nat; [| reflexivity].
  destruct (tz_localize_None df) eqn:E; try reflexivity.
  now apply tz_localize_None_naive in E.
Qed.

Lemma localized_naive (df : DataFrame) :
  (0 < len df)%nat -> df_kind df <> ObjectIndex ->
  df_kind (localized df) = DatetimeIndex None.
Proof.
  intros Hlen Hkind. unfold localized.
  apply Nat.ltb_lt in Hlen. rewrite Hlen.
  destruct (tz_localize_None df) eqn:E.
  - now apply tz_localize_None_naive in E.
  - unfold tz_localize_None in E. destruct (df_kind df) as [| [|]]; congruence.
  - unfold tz_localize_None in E. destruct (df_kind df) as [| [|]]; congruence.
Qed.

(** Line 193 comes first in lines 192-198, and nothing after it touches the
    zones. *)
Lemma concat_or_realign_trace (st : Shared) :
  NoDup (dict_keys (_DFS st)) ->
  exists tail,
    trace (snd (concat_or_realign st)) = trace st ++ Concat (_DFS st) :: tail
    /\ forall k, ~ In (Localize k) tail.
Proof.
  intros Hnd. unfold concat_or_realign.
  change (_DFS (log (Concat (_DFS st)) st)) with (_DFS st).
  destruct (concat_axis1 (_DFS st)).
  - exists []. split; [reflexivity | intros k []].
  - cbv zeta. rewrite realign_dfs_spec by exact Hnd. simpl.
    eexists. split.
    + rewrite <- !app_assoc. simpl. reflexivity.
    + intros k Hin. simpl in Hin. destruct Hin as [Hin | Hin]; [discriminate |].
      apply in_app_or in Hin as [Hin | Hin].
      * unfold realign_events in Hin. apply in_flat_map in Hin as (kv & _ & Hin).
        simpl in Hin. intuition discriminate.
      * simpl in Hin. intuition discriminate.
  - cbv zeta. rewrite realign_dfs_spec by exact Hnd. simpl.
    eexists. split.
    + rewrite <- !app_assoc. simpl. reflexivity.
    + intros k Hin. simpl in Hin. destruct Hin as [Hin | Hin]; [discriminate |].
      apply in_app_or in Hin as [Hin | Hin].
      * unfold realign_events in Hin. apply in_flat_map in Hin as (kv & _ & Hin).
        simpl in Hin. intuition discriminate.
      * simpl in Hin. intuition discriminate.
Qed.

Lemma finish_kind (a : Args) (tkrs : list string) (isins : pydict string)
    (data : Table) :
  t_kind (finish a tkrs isins data) = DatetimeIndex (Some 0).
Proof.
  unfold finish. destruct (String.eqb (group_by a) "column");
    destruct (negb (multi_level_index a) && Nat.eqb (length tkrs) 1);
    reflexivity.
Qed.

(** C5 as the specification has it fails: with [ignore_tz] in force the
    concatenation is given the frames after line 190 has dropped their zones. *)
Lemma concatenation_sees_naive_timestamps :
  default_ignore_tz (ignore_tz Examples.args_one_failing)
                    (interval Examples.args_one_failing) = true
  /\ concat_saw_naive
       (trace (snd (download Examples.env_one_failing Examples.args_one_failing)))
     = true.
Proof. split; vm_compute; reflexivity. Qed.

(** C5, amended: when [ignore_tz] is in force and line 190 does not raise,
    every frame with rows is made zone-naive before the concatenation: the
    first [pd.concat] is given the localized frames, in which every index
    with rows is zone-naive, no index is localized afterwards, and the index
    of the returned table is made zone-aware (UTC) after the concatenation. *)
Theorem zones_are_dropped_before_the_concatenation (env : Env) (a : Args) :
  default_ignore_tz (ignore_tz a) (interval a) = true ->
  fst (aligned env a) = Ok tt ->
  exists ks tail,
    trace (snd (download env a))
    = trace (fetched_state env a) ++ map Localize ks
      ++ Concat (map localize_entry (_DFS (fetched_state env a))) :: tail
    /\ (forall k, In k ks <-> exists df, In (k, df) (_DFS (fetched_state env a))
                                         /\ (0 < len df)%nat)
    /\ (forall k, ~ In (Localize k) tail)
    /\ (forall k df, In (k, df) (map localize_entry (_DFS (fetched_state env a))) ->
                     (0 < len df)%nat -> df_kind df = DatetimeIndex None)
    /\ (forall T, fst (download env a) = Ok T -> t_kind T = DatetimeIndex (Some 0)).
Proof.
  intros Hig Hok.
  pose proof (aligned_frame env a) as Hfr. cbv zeta in Hfr.
  destruct Hfr as (Hkeys & _ & _ & _ & _ & Hst & _).
  destruct (Hst Hok) as (Hdfs & Htr). rewrite Hig in Hdfs, Htr.
  assert (Hkinds : forall kv, In kv (_DFS (fetched_state env a)) ->
                              has_rows kv = true -> df_kind (snd kv) <> ObjectIndex).
  { apply (localize_all_Ok_kinds [] _ (fetched_state env a) eq_refl
             (fetched_state_keys_NoDup env a)).
    unfold aligned in Hok. now rewrite Hig in Hok. }
  assert (Hnd : NoDup (dict_keys (_DFS (snd (aligned env a))))).
  { rewrite Hkeys. apply write_order_NoDup. }
  destruct (concat_or_realign_trace _ Hnd) as (tail & Htail & Hno).
  rewrite download_eq.
  destruct (aligned env a) as [o st1]. simpl in *. subst o.
  exists (map fst (List.filter has_rows (_DFS (fetched_state env a)))), tail.
  split; [| split; [| split; [| split]]].
  - assert (Htr2 : trace (snd (concat_or_realign st1))
                   = trace (fetched_state env a)
                     ++ map Localize (map fst (List.filter has_rows
                                                 (_DFS (fetched_state env a))))
                     ++ Concat (map localize_entry (_DFS (fetched_state env a)))
                        :: tail).
    { rewrite Htail, Htr, Hdfs. unfold localize_events.
      rewrite map_map, <- app_assoc. reflexivity. }
    destruct (concat_or_realign st1) as [[data | e |] st2]; exact Htr2.
  - intros k. rewrite in_map_iff. split.
    + intros ([k' df] & <- & Hin). apply filter_In in Hin as [Hin Hr].
      exists df. split; [exact Hin |]. now apply Nat.ltb_lt in Hr.
    + intros (df & Hin & Hlen). exists (k, df). split; [reflexivity |].
      apply filter_In. split; [exact Hin |]. now apply Nat.ltb_lt.
  - exact Hno.
  - intros k df Hin Hlen. apply in_map_iff in Hin as ([k' df0] & Heq & Hin).
    unfold localize_entry in Heq. simpl in Heq. injection Heq as <- <-.
    rewrite localized_len in Hlen. apply localized_naive; [exact Hlen |].
    apply (Hkinds (k', df0) Hin). now apply Nat.ltb_lt.
  - intros T HT.
    destruct (concat_or_realign st1) as [[data | e |] st2]; simpl in HT;
      try discriminate.
    injection HT as <-. apply finish_kind.
Qed.

(** The amended C5 on the call of the counterexample. *)
Lemma zones_are_dropped_before_the_concatenation_witness :
  exists ks tail,
    trace (snd (download Examples.env_one_failing Examples.args_one_failing))
    = trace (fetched_state Examples.env_one_failing Examples.args_one_failing)
      ++ map Localize ks
      ++ Concat (map localize_entry
                     (_DFS (fetched_state Examples.env_one_failing
                                          Examples.args_one_failing))) :: tail.
Proof.
  destruct (zones_are_dropped_before_the_concatenation
              Examples.env_one_failing Examples.args_one_failing
              eq_refl eq_refl) as (ks & tail & H & _).
  exists ks, tail. exact H.
Defined.

(** ** The shape of the returned table *)

Lemma insert_sorted_Permutation {A} (leb : A -> A -> bool) (x : A) (l : list A) :
  Permutation (insert_sorted leb x l) (x :: l).
Proof.
  induction l as [| y l IH]; simpl; [reflexivity |].
  destruct (leb x y); [reflexivity |].
  rewrite IH. apply perm_swap.
Qed.

Lemma isort_Permutation {A} (leb : A -> A -> bool) (l : list A) :
  Permutation (isort leb l) l.
Proof.
  induction l as [| x l IH]; simpl; [reflexivity |].
  rewrite insert_sorted_Permutation. now constructor.
Qed.

Lemma collect_Ok {A B} (g : A -> Outcome B) (l : list A) (cols : list B) :
  collect (map g l) = Ok cols -> map g l = map Ok cols.
Proof.
  revert cols. induction l as [| x l IH]; intros cols; simpl.
  - now intros [= <-].
  - destruct (g x) as [b | |]; simpl; try discriminate.
    destruct (collect (map g l)) as [bs | |]; simpl; try discriminate.
    intros [= <-]. simpl. f_equal. now apply IH.
Qed.

Lemma reindex_columns (target : Index) (df r : DataFrame) :
  reindex target df = Ok r ->
  df_columns r = df_columns df /\ df_kind r = fst target.
Proof.
  unfold reindex. destruct (index_equals _ _); [now intros [= <-] |].
  destruct (has_duplicates _); [discriminate | now intros [= <-]].
Qed.

(** The concatenated table: its combined index, and the columns of every
    frame, laid out on that index, under the key of the frame. *)
Lemma concat_axis1_Ok (frames : pydict DataFrame) (T : Table) :
  concat_axis1 frames = Ok T ->
  let target : Index :=
    (combined_kind (map (fun f => df_kind (snd f)) frames),
     combined_labels (map (fun f => labels (snd f)) frames)) in
  exists rs : list DataFrame,
    map (fun f => reindex target (snd f)) frames = map Ok rs
    /\ T = mkTable (fst target) (snd target) [Some "Ticker"; Some "Price"]
                   (List.concat (map (fun fr => frame_columns (fst (fst fr)) (snd fr))
                                     (combine frames rs))).
Proof.
  unfold concat_axis1. destruct frames as [| f0 frames0] eqn:Ef; [discriminate |].
  rewrite <- Ef. clear Ef f0 frames0.
  destruct (mixed_awareness _); [discriminate |].
  set (target := (combined_kind _, combined_labels _)).
  cbv zeta.
  assert (Hgen : forall l cols,
             collect (map (fun f : string * DataFrame =>
                             let! r := reindex target (snd f) in
                             Ok (frame_columns (fst f) r)) l) = Ok cols ->
             exists rs, map (fun f => reindex target (snd f)) l = map Ok rs
                        /\ cols = map (fun fr => frame_columns (fst (fst fr)) (snd fr))
                                      (combine l rs)).
  { induction l as [| x l IH]; intros cols; simpl.
    - intros [= <-]. now exists [].
    - destruct (reindex target (snd x)) as [r | |]; simpl; try discriminate.
      destruct (collect _) as [cs | |] eqn:Ec; simpl; try discriminate.
      intros [= <-]. destruct (IH cs eq_refl) as (rs & Hrs & ->).
      exists (r :: rs). simpl. now rewrite Hrs. }
  destruct (collect _) as [cols | |] eqn:Ec; simpl; try discriminate.
  intros [= <-]. destruct (Hgen _ _ Ec) as (rs & Hrs & ->).
  exists rs. split; [exact Hrs | reflexivity].
Qed.

Lemma in_combine_map_Ok {A B} (g : A -> Outcome B) (l : list A) (rs : list B)
    (x : A) (r : B) :
  map g l = map Ok rs -> In (x, r) (combine l rs) -> In x l /\ g x = Ok r.
Proof.
  revert rs. induction l as [| y l IH]; intros [| r0 rs]; simpl; try tauto;
    try discriminate.
  intros [= Hy Hrest] [[= -> ->] | Hin]; [auto |].
  destruct (IH rs Hrest Hin). auto.
Qed.

Lemma concat_axis1_keys (frames : pydict DataFrame) (T : Table) :
  concat_axis1 frames = Ok T ->
  t_names T = [Some "Ticker"; Some "Price"]
  /\ forall key cells, In (key, cells) (t_columns T) ->
       exists k df c, In (k, df) frames /\ In c (df_columns df) /\ key = [k; c].
Proof.
  intros H. apply concat_axis1_Ok in H. cbv zeta in H.
  destruct H as (rs & Hrs & ->). simpl. split; [reflexivity |].
  intros key cells Hin. apply in_concat in Hin as (col & Hcol & Hin).
  apply in_map_iff in Hcol as ([[k df] r] & <- & Hfr).
  destruct (in_combine_map_Ok _ _ _ _ _ Hrs Hfr) as (Hf & Hr). simpl in *.
  apply reindex_columns in Hr as (Hcols & _).
  unfold frame_columns in Hin. apply list_elem_of_In in Hin.
  apply elem_of_lookup_imap in Hin as (j & c & Heq & Hj).
  injection Heq as -> ->. exists k, df, c. split; [exact Hf |]. split; [| reflexivity].
  rewrite <- Hcols. apply list_elem_of_In. eapply list_elem_of_lookup_2; eauto.
Qed.

Lemma finish_names (a : Args) (tkrs : list string) (isins : pydict string)
    (data : Table) :
  t_names data = [Some "Ticker"; Some "Price"] ->
  t_names (finish a tkrs isins data) = final_names a tkrs.
Proof.
  intros Hn. unfold finish, final_names.
  destruct (negb (multi_level_index a) && Nat.eqb (length tkrs) 1);
    destruct (String.eqb (group_by a) "column"); simpl; now rewrite ?Hn.
Qed.

Lemma finish_columns (a : Args) (tkrs : list string) (isins : pydict string)
    (data : Table) :
  Permutation (t_columns (finish a tkrs isins data))
              (map (fun c => (final_key a tkrs isins (fst c), snd c))
                   (t_columns data)).
Proof.
  unfold finish, final_key.
  destruct (negb (multi_level_index a) && Nat.eqb (length tkrs) 1);
    destruct (String.eqb (group_by a) "column"); simpl;
    rewrite ?isort_Permutation, ?map_map; simpl; reflexivity.
Qed.

Lemma finish_index (a : Args) (tkrs : list string) (isins : pydict string)
    (data : Table) :
  t_index (finish a tkrs isins data) = t_index data.
Proof.
  unfold finish.
  destruct (negb (multi_level_index a) && Nat.eqb (length tkrs) 1);
    destruct (String.eqb (group_by a) "column"); reflexivity.
Qed.

(** The table lines 192-198 produce has the keys of [shared._DFS] as its
    outer column labels. *)
Lemma concat_or_realign_keys (st st' : Shared) (data : Table) :
  NoDup (dict_keys (_DFS st)) ->
  concat_or_realign st = (Ok data, st') ->
  _ISINS st' = _ISINS st
  /\ t_names data = [Some "Ticker"; Some "Price"]
  /\ forall key cells, In (key, cells) (t_columns data) ->
       exists k c, In k (dict_keys (_DFS st)) /\ key = [k; c].
Proof.
  intros Hnd. unfold concat_or_realign.
  change (_DFS (log (Concat (_DFS st)) st)) with (_DFS st).
  assert (Hkeys : forall frames T, concat_axis1 frames = Ok T ->
            dict_keys frames = dict_keys (_DFS st) ->
            t_names T = [Some "Ticker"; Some "Price"]
            /\ forall key cells, In (key, cells) (t_columns T) ->
                 exists k c, In k (dict_keys (_DFS st)) /\ key = [k; c]).
  { intros frames T HT Hk. apply concat_axis1_keys in HT as (Hn & Hc).
    split; [exact Hn |]. intros key cells Hin.
    destruct (Hc key cells Hin) as (k & df & c & Hf & _ & ->).
    exists k, c. split; [| reflexivity]. rewrite <- Hk.
    apply in_map_iff. now exists (k, df). }
  destruct (concat_axis1 (_DFS st)) as [T | e |] eqn:Ec.
  - intros [= <- <-]. split; [reflexivity |]. now apply (Hkeys (_DFS st)).
  - cbv zeta. rewrite realign_dfs_spec by exact Hnd. simpl.
    intros [= HT <-]. split; [reflexivity |].
    apply (Hkeys _ _ HT). now apply dict_keys_map_entries.
  - now apply concat_axis1_not_Hangs in Ec.
Qed.




(** ** The realignment *)

Lemma drop_duplicated_index_In (rows : list (Z * list Cell)) (x : Z * list Cell) :
  In x (drop_duplicated_index rows) -> In x rows.
Proof.
  induction rows as [| [l r] rows IH]; simpl; [tauto |].
  destruct (bool_decide _); simpl; tauto.
Qed.

(** After line 232 no timestamp is repeated. *)
Lemma drop_duplicated_index_NoDup (rows : list (Z * list Cell)) :
  NoDup (map fst (drop_duplicated_index rows)).
Proof.
  induction rows as [| [l r] rows IH]; simpl; [constructor |].
  destruct (bool_decide (l ∈ map fst rows)) eqn:E; [exact IH |].
  simpl. constructor; [| exact IH].
  apply bool_decide_eq_false_1 in E. intros Hin. apply E.
  apply list_elem_of_In. apply list_elem_of_In, in_map_iff in Hin.
  destruct Hin as (x & <- & Hx). apply in_map.
  now apply drop_duplicated_index_In.
Qed.

Lemma drop_duplicate_rows_In (seen : list (list Cell))
    (rows : list (Z * list Cell)) (x : Z * list Cell) :
  In x (drop_duplicate_rows seen rows) -> In x rows.
Proof.
  revert seen. induction rows as [| [l r] rows IH]; intros seen; simpl; [tauto |].
  destruct (bool_decide _); simpl; [right; eauto |].
  intros [<- | H]; [now left | right; eauto].
Qed.

Lemma drop_duplicates_In (df : DataFrame) (x : Z * list Cell) :
  In x (df_rows (drop_duplicates df)) -> In x (df_rows df).
Proof.
  unfold drop_duplicates. destruct (df_columns df); [tauto |].
  simpl. apply drop_duplicate_rows_In.
Qed.

Lemma drop_duplicates_kind (df : DataFrame) :
  df_kind (drop_duplicates df) = df_kind df.
Proof. unfold drop_duplicates. now destruct (df_columns df). Qed.

Lemma lookup_row_In (l : Z) (rows : list (Z * list Cell)) (r : list Cell) :
  lookup_row l rows = Some r -> In (l, r) rows.
Proof.
  induction rows as [| [l' r'] rows IH]; simpl; [discriminate |].
  destruct (Z.eqb_spec l l') as [-> | Hne]; [intros [= ->]; now left | auto].
Qed.

(** Reindexing matches timestamps exactly: a row of the result stands at a
    label of the target and is the row the frame has at that very label, or
    all NaN. *)
Lemma reindex_rows (target : Index) (df r : DataFrame) :
  reindex target df = Ok r ->
  forall l cells, In (l, cells) (df_rows r) ->
    In l (snd target)
    /\ (In (l, cells) (df_rows df) \/ cells = nan_row (length (df_columns df))).
Proof.
  unfold reindex. destruct (index_equals target (index df)) eqn:Eeq.
  - intros [= <-] l cells Hin. simpl in Hin.
    unfold index_equals in Eeq. apply andb_true_iff in Eeq as [Hl _].
    apply bool_decide_eq_true_1 in Hl. simpl in Hl. rewrite Hl.
    split; [| now left]. unfold labels. apply in_map_iff. now exists (l, cells).
  - destruct (has_duplicates _); [discriminate |].
    intros [= <-] l cells Hin. simpl in Hin. unfold take_rows in Hin.
    apply in_map_iff in Hin as (l0 & [= -> <-] & Hl0).
    split; [exact Hl0 |].
    destruct (comparable _ _); [| now right].
    destruct (lookup_row l (df_rows df)) eqn:El; simpl; [| now right].
    left. now apply lookup_row_In.
Qed.

Lemma reindex_raises_duplicates (target : Index) (df : DataFrame) :
  is_ok (reindex target df) = false -> has_duplicates (labels df) = true.
Proof.
  unfold reindex. destruct (index_equals _ _); [discriminate |].
  destruct (has_duplicates _); [reflexivity | discriminate].
Qed.

Lemma nth_nan_row (j n : nat) : nth j (nan_row n) (None : Cell) = None.
Proof.
  unfold nan_row. revert j. induction n as [| n IH]; intros [| j]; simpl; auto.
Qed.

Lemma relayout_nan (cols : list string) (df : DataFrame) (n : nat) :
  relayout cols df (nan_row n) = nan_row (length cols).
Proof.
  unfold relayout. induction cols as [| c cols IH]; simpl; [reflexivity |].
  rewrite IH.
  change (nan_row (S (length cols))) with (None :: nan_row (length cols)).
  f_equal. destruct (position c (df_columns df)); [apply nth_nan_row | reflexivity].
Qed.

Lemma reference_index_from (dfs seen : list DataFrame) (n : nat)
    (idx : option Index) :
  (idx = None -> n = 0%nat) ->
  first_longest seen idx ->
  (forall i, idx = Some i ->
     exists pre df post, seen = pre ++ df :: post /\ i = index df /\ n = len df) ->
  first_longest (seen ++ dfs)
    (snd (foldl (fun (acc : nat * option Index) df =>
                   if (fst acc <? len df)%nat then (len df, Some (index df))
                   else acc) (n, idx) dfs)).
Proof.
  revert seen n idx. induction dfs as [| d dfs IH]; intros seen n idx Hn Hfl Hlen.
  - simpl. now rewrite app_nil_r.
  - simpl. replace (seen ++ d :: dfs) with ((seen ++ [d]) ++ dfs)
      by now rewrite <- app_assoc.
    destruct (n <? len d)%nat eqn:E; simpl.
    + apply Nat.ltb_lt in E. apply IH.
      * discriminate.
      * simpl. exists seen, d, []. split; [reflexivity |]. split; [reflexivity |].
        split; [lia |]. split; [| constructor].
        destruct idx as [i |]; simpl in Hfl.
        -- destruct (Hlen i eq_refl) as (pre0 & df0 & post0 & Hs0 & _ & Hn0).
           destruct Hfl as (pre & df & post & Hs & Hi & Hpos & Hpre & Hpost).
           assert (Hlen_df : len df = n).
           { destruct (Hlen i eq_refl) as (p1 & d1 & q1 & Hs1 & Hi1 & Hn1).
             rewrite Hi in Hi1. unfold index in Hi1. injection Hi1 as _ Hl.
             unfold len. unfold labels in Hl.
             rewrite <- (length_map fst (df_rows df)), Hl, length_map.
             exact (eq_sym Hn1). }
           rewrite Hs. apply Forall_app. split.
           ++ eapply Forall_impl; [exact Hpre |]. simpl. intros; lia.
           ++ constructor; [lia |].
              eapply Forall_impl; [exact Hpost |]. simpl. intros; lia.
        -- specialize (Hn eq_refl). subst n.
           eapply Forall_impl; [exact Hfl |]. simpl. intros; lia.
      * intros i [= <-]. exists seen, d, []. auto.
    + apply Nat.ltb_ge in E. apply IH.
      * exact Hn.
      * destruct idx as [i |]; simpl in *.
        -- destruct Hfl as (pre & df & post & Hs & Hi & Hpos & Hpre & Hpost).
           assert (Hlen_df : len df = n).
           { destruct (Hlen i eq_refl) as (p1 & d1 & q1 & Hs1 & Hi1 & Hn1).
             rewrite Hi in Hi1. unfold index in Hi1. injection Hi1 as _ Hl.
             unfold len. unfold labels in Hl.
             rewrite <- (length_map fst (df_rows df)), Hl, length_map.
             exact (eq_sym Hn1). }
           exists pre, df, (post ++ [d]). rewrite Hs, <- app_assoc. simpl.
           split; [reflexivity |]. split; [exact Hi |]. split; [exact Hpos |].
           split; [exact Hpre |]. apply Forall_app. split; [exact Hpost |].
           constructor; [lia | constructor].
        -- specialize (Hn eq_refl). subst n. apply Forall_app.
           split; [exact Hfl |]. constructor; [lia | constructor].
      * intros i Hi. destruct (Hlen i Hi) as (pre & df & post & Hs & Hidx & Hn').
        exists pre, df, (post ++ [d]). rewrite Hs, <- app_assoc. auto.
Qed.

(** Lines 214-220 choose the first of the longest frames. *)
Lemma reference_index_first_longest (dfs : list DataFrame) :
  first_longest dfs (reference_index dfs).
Proof.
  unfold reference_index.
  apply (reference_index_from dfs [] 0%nat None); [auto | constructor | discriminate].
Qed.

Lemma concat_or_realign_failed (st : Shared) :
  NoDup (dict_keys (_DFS st)) ->
  is_ok (concat_axis1 (_DFS st)) = false ->
  let frames :=
    map (realign_entry (reference_index (dict_values (_DFS st)))) (_DFS st) in
  concat_or_realign st
  = (concat_axis1 frames,
     mkShared frames (_ERRORS st) (_TRACEBACKS st) (_ISINS st)
              (trace st ++ [Concat (_DFS st); Realign]
               ++ realign_events (_DFS st) ++ [Concat frames])).
Proof.
  intros Hnd Hfail. unfold concat_or_realign.
  change (_DFS (log (Concat (_DFS st)) st)) with (_DFS st).
  destruct (concat_axis1 (_DFS st)) as [T | e |] eqn:Ec; [discriminate | |];
    cbv zeta; rewrite realign_dfs_spec by exact Hnd; unfold log; simpl;
    rewrite <- !app_assoc; reflexivity.
Qed.

(** Line 232 keeps, of the rows that share a timestamp, the last one, and
    every timestamp. *)
Lemma drop_duplicated_index_last (rows : list (Z * list Cell)) (l : Z)
    (cells : list Cell) :
  In (l, cells) (drop_duplicated_index rows) <-> last_at l cells rows.
Proof.
  induction rows as [| [l0 r0] rows IH]; simpl.
  - split; [tauto |]. intros (pre & post & H & _). now destruct pre.
  - assert (Hcons : last_at l cells ((l0, r0) :: rows)
                    <-> ((l0, r0) = (l, cells) /\ ~ In l (map fst rows))
                        \/ last_at l cells rows).
    { split.
      - intros (pre & post & H & Hn). destruct pre as [| x pre]; simpl in H.
        + injection H as H1 H2 H3. subst. now left.
        + injection H as H1 H2. subst. right. now exists pre, post.
      - intros [[H Hn] | (pre & post & H & Hn)].
        + injection H as H1 H2. subst. now exists [], rows.
        + subst. now exists ((l0, r0) :: pre), post. }
    rewrite Hcons.
    destruct (bool_decide (l0 ∈ map fst rows)) eqn:E.
    + apply bool_decide_eq_true_1, list_elem_of_In in E. rewrite IH. split.
      * tauto.
      * intros [[H Hn] | H]; [| exact H].
        injection H as H1 H2. subst. contradiction.
    + apply bool_decide_eq_false_1 in E. rewrite list_elem_of_In in E.
      simpl. rewrite IH. split.
      * intros [H | H]; [| now right]. left. split; [exact H |].
        injection H as H1 H2. now subst.
      * intros [[H _] | H]; [now left | now right].
Qed.

(** [drop_duplicates] keeps the values of every row, at the label of the
    first row that has them. *)
Lemma drop_duplicate_rows_values (seen : list (list Cell))
    (rows : list (Z * list Cell)) (l : Z) (cells : list Cell) :
  In (l, cells) rows ->
  In cells seen \/ exists l', In (l', cells) (drop_duplicate_rows seen rows).
Proof.
  revert seen. induction rows as [| [l0 r0] rows IH]; intros seen; simpl;
    [tauto |].
  intros [[= -> ->] | Hin].
  - destruct (bool_decide (cells ∈ seen)) eqn:E.
    + left. apply bool_decide_eq_true_1 in E. now apply list_elem_of_In.
    + right. exists l. now left.
  - destruct (bool_decide (r0 ∈ seen)) eqn:E.
    + apply IH, Hin.
    + destruct (IH (r0 :: seen) Hin) as [[<- | Hs] | (l' & Hl')].
      * right. exists l0. now left.
      * now left.
      * right. exists l'. now right.
Qed.

Lemma drop_duplicates_values (df : DataFrame) (l : Z) (cells : list Cell) :
  In (l, cells) (df_rows df) ->
  exists l', In (l', cells) (df_rows (drop_duplicates df)).
Proof.
  intros Hin. unfold drop_duplicates. destruct (df_columns df); [eauto |].
  simpl. destruct (drop_duplicate_rows_values [] _ _ _ Hin) as [[] | H].
  exact H.
Qed.

Lemma lookup_row_labels (l : Z) (rows : list (Z * list Cell)) :
  In l (map fst rows) -> exists cells, lookup_row l rows = Some cells.
Proof.
  induction rows as [| [l0 r0] rows IH]; simpl; [tauto |].
  intros H. destruct (Z.eqb_spec l l0) as [-> | Hne]; [eauto |].
  destruct H as [-> | H]; [contradiction | auto].
Qed.

Lemma index_equals_comparable (a b : Index) :
  index_equals a b = true -> comparable (fst a) (fst b) = true.
Proof.
  unfold index_equals, comparable. intros H.
  apply andb_true_iff in H as (_ & H).
  destruct (fst a) as [| [z |]], (fst b) as [| [z' |]]; try reflexivity;
    exfalso; rewrite !orb_true_iff in H; destruct H as [[H | H] | H];
    apply bool_decide_eq_true_1 in H; discriminate.
Qed.

(** The rows of a reindexed frame: one for every label of the target. *)
Lemma reindex_all_rows (target : Index) (df r : DataFrame) (l : Z) :
  reindex target df = Ok r ->
  In l (snd target) ->
  In (l, if comparable (fst target) (df_kind df)
         then default (nan_row (length (df_columns df)))
                      (lookup_row l (df_rows df))
         else nan_row (length (df_columns df)))
     (df_rows r).
Proof.
  unfold reindex. destruct (index_equals target (index df)) eqn:Eeq.
  - intros [= <-] Hl. simpl.
    pose proof (index_equals_comparable _ _ Eeq) as Hc. simpl in Hc.
    rewrite Hc. clear Hc.
    unfold index_equals in Eeq. apply andb_true_iff in Eeq as [Hls _].
    apply bool_decide_eq_true_1 in Hls. simpl in Hls. rewrite Hls in Hl.
    destruct (lookup_row_labels _ _ Hl) as (cells & Hc). rewrite Hc. simpl.
    now apply lookup_row_In.
  - destruct (has_duplicates _); [discriminate |].
    intros [= <-] Hl. simpl. unfold take_rows.
    apply in_map_iff. now exists l.
Qed.

(** What lines 223-229 assign to [shared._DFS[key]]. *)
Lemma realigned_series (idx : option Index) (df : DataFrame) :
  match DataFrame_from idx df with
  | Ok _ =>
      (forall l cells, In (l, cells) (df_rows (realigned idx df)) ->
         (forall target, idx = Some target -> In l (snd target))
         /\ (In (l, cells) (df_rows df)
             \/ cells = nan_row (length (df_columns df))))
      /\ (forall target l, idx = Some target -> In l (snd target) ->
            exists l',
              In (l', if comparable (fst target) (df_kind df)
                      then default (nan_row (length (df_columns df)))
                                   (lookup_row l (df_rows df))
                      else nan_row (length (df_columns df)))
                 (df_rows (realigned idx df)))
  | _ =>
      has_duplicates (labels df) = true
      /\ exists target,
           idx = Some target
           /\ df_columns (realigned idx df)
              = isort String.leb (remove_dups (price_columns ++ df_columns df))
           /\ df_rows (realigned idx df)
              = map (fun l => (l, nan_row (length (df_columns (realigned idx df)))))
                    (snd target)
                ++ map (fun r => (fst r, relayout (df_columns (realigned idx df))
                                                  df (snd r)))
                       (List.filter (fun r => forallb not_nan (snd r)) (df_rows df))
  end.
Proof.
  unfold realigned.
  destruct (DataFrame_from idx df) as [r | e |] eqn:Er.
  - split.
    + intros l cells Hin. apply drop_duplicates_In in Hin.
      destruct idx as [target |]; simpl in Er.
      * destruct (reindex_rows _ _ _ Er l cells Hin) as (Hl & Hc).
        split; [now intros t [= <-] | exact Hc].
      * injection Er as <-. split; [discriminate | now left].
    + intros target l -> Hl. simpl in Er.
      apply (drop_duplicates_values _ l), (reindex_all_rows _ _ _ _ Er Hl).
  - destruct idx as [target |]; simpl in Er; [| discriminate].
    split.
    { apply (reindex_raises_duplicates target). now rewrite Er. }
    exists target. split; [reflexivity |].
    destruct target as [k ls]. unfold concat_axis0. cbn [df_columns df_rows empty_df dropna snd].
    split; [reflexivity |].
    rewrite !map_map. cbn [fst snd]. f_equal.
    apply map_ext. intros l. now rewrite relayout_nan.
  - destruct idx as [target |]; simpl in Er; [| discriminate].
    now apply reindex_not_Hangs in Er.
Qed.

(** C3 as the specification has it fails: a series with a repeated timestamp
    cannot be reindexed, and what [_realign_dfs] does instead keeps its
    timestamp 5, which the reference (1, 2, 3, 4) does not have; the result
    is not the series laid out on the reference. *)
Lemma realignment_keeps_timestamp_outside_reference :
  let st := snd (aligned Examples.env_repeated Examples.args_repeated) in
  let final := snd (download Examples.env_repeated Examples.args_repeated) in
  is_ok (concat_axis1 (_DFS st)) = false
  /\ reference_index (dict_values (_DFS st))
     = Some (DatetimeIndex (Some 0), [1; 2; 3; 4])
  /\ exists df', dict_get "B" (_DFS final) = Some df'
       /\ labels df' = [1; 3; 4; 2; 5]
       /\ df' <> realigned_as_specified
                   (reference_index (dict_values (_DFS st)))
                   Examples.repeated_timestamp.
Proof.
  cbv zeta. split; [reflexivity |]. split; [reflexivity |].
  eexists. split; [vm_compute; reflexivity |]. split; [reflexivity |].
  intros H. vm_compute in H. discriminate H.
Qed.

(** C3, amended: if the first concatenation raises, [download] realigns and
    concatenates again.  The reference is the index of the first of the
    longest series.  What lines 223-229 first assign for a series that can be
    reindexed (no repeated timestamp, or the reference's own index) has only
    rows at timestamps of the reference, each the series' own row at that
    very timestamp or NaN; and for every timestamp of the reference the
    values of the row that the series has there (NaN without one) are the
    values of one of its rows.  For a series with a repeated timestamp they
    assign, on the sorted columns of the placeholder and the series, a NaN
    row for every timestamp of the reference followed by the series' own
    rows without NaN, those at timestamps outside the reference included.
    Line 232 then keeps every timestamp once: a row stays exactly when it is
    the last one at its timestamp. *)
Theorem realignment_after_failed_concatenation (env : Env) (a : Args)
    (st : Shared) :
  aligned env a = (Ok tt, st) ->
  is_ok (concat_axis1 (_DFS st)) = false ->
  let idx := reference_index (dict_values (_DFS st)) in
  let final := snd (download env a) in
  first_longest (dict_values (_DFS st)) idx
  /\ fst (download env a)
     = match concat_axis1 (_DFS final) with
       | Ok data => Ok (finish a (symbols env a) (_ISINS final) data)
       | Raised e => Raised e
       | Hangs => Hangs
       end
  /\ forall k df, In (k, df) (_DFS st) ->
       exists first df',
         dict_get k (_DFS final) = Some df'
         /\ df_columns df' = df_columns first
         /\ NoDup (labels df')
         /\ (forall l cells,
               In (l, cells) (df_rows df') <-> last_at l cells (df_rows first))
         /\ match DataFrame_from idx df with
            | Ok _ =>
                (forall l cells, In (l, cells) (df_rows first) ->
                   (forall target, idx = Some target -> In l (snd target))
                   /\ (In (l, cells) (df_rows df)
                       \/ cells = nan_row (length (df_columns df))))
                /\ (forall target l, idx = Some target -> In l (snd target) ->
                      exists l',
                        In (l', if comparable (fst target) (df_kind df)
                                then default (nan_row (length (df_columns df)))
                                             (lookup_row l (df_rows df))
                                else nan_row (length (df_columns df)))
                           (df_rows first))
            | _ =>
                has_duplicates (labels df) = true
                /\ exists target,
                     idx = Some target
                     /\ df_columns first
                        = isort String.leb
                                (remove_dups (price_columns ++ df_columns df))
                     /\ df_rows first
                        = map (fun l => (l, nan_row (length (df_columns first))))
                              (snd target)
                          ++ map (fun r => (fst r, relayout (df_columns first)
                                                            df (snd r)))
                                 (List.filter (fun r => forallb not_nan (snd r))
                                              (df_rows df))
            end.
Proof.
  intros Hal Hfail. cbv zeta.
  pose proof (aligned_frame env a) as Hfr. cbv zeta in Hfr.
  destruct Hfr as (Hkeys & _). rewrite Hal in Hkeys. simpl in Hkeys.
  assert (Hnd : NoDup (dict_keys (_DFS st))).
  { rewrite Hkeys. apply write_order_NoDup. }
  split; [apply reference_index_first_longest |].
  rewrite download_eq, Hal.
  pose proof (concat_or_realign_failed st Hnd Hfail) as Hcr. cbv zeta in Hcr.
  rewrite Hcr.
  set (frames := map (realign_entry (reference_index (dict_values (_DFS st))))
                     (_DFS st)).
  split.
  - destruct (concat_axis1 frames) eqn:Ec; simpl; rewrite Ec; reflexivity.
  - intros k df Hin.
    exists (realigned (reference_index (dict_values (_DFS st))) df),
           (loc_not_duplicated_last
              (realigned (reference_index (dict_values (_DFS st))) df)).
    split; [| split; [reflexivity | split; [apply drop_duplicated_index_NoDup |]]].
    + assert (Hget : dict_get k frames
                     = Some (loc_not_duplicated_last
                               (realigned (reference_index (dict_values (_DFS st))) df))).
      { apply dict_get_In.
        - unfold frames. now rewrite dict_keys_map_entries.
        - unfold frames. apply in_map_iff. now exists (k, df). }
      destruct (concat_axis1 frames); exact Hget.
    + split; [intros l cells; apply drop_duplicated_index_last |].
      apply realigned_series.
Qed.

(** The amended C3 on the call of the counterexample: of the two rows that
    the series B has at the timestamp 2 the last one stays, and its row at
    the timestamp 5, which the reference does not have. *)
Lemma realignment_after_failed_concatenation_witness :
  exists df',
    dict_get "B" (_DFS (snd (download Examples.env_repeated
                                      Examples.args_repeated))) = Some df'
    /\ lookup_row 2 (df_rows df')
       = Some [None; Some 8; None; None; None; None]
    /\ lookup_row 5 (df_rows df')
       = Some [None; Some 9; None; None; None; None].
Proof.
  destruct (realignment_after_failed_concatenation Examples.env_repeated
              Examples.args_repeated _ eq_refl eq_refl)
    as (_ & _ & H).
  destruct (H "B" Examples.repeated_timestamp) as (first & df' & Hget & _).
  { vm_compute. tauto. }
  exists df'. split; [exact Hget |].
  assert (Hc : dict_get "B" (_DFS (snd (download Examples.env_repeated
                                                 Examples.args_repeated)))
               = Some (mkDF (DatetimeIndex (Some 0))
                            ["Adj Close"; "Close"; "High"; "Low"; "Open"; "Volume"]
                            [(1, [None; None; None; None; None; None]);
                             (3, [None; None; None; None; None; None]);
                             (4, [None; None; None; None; None; None]);
                             (2, [None; Some 8; None; None; None; None]);
                             (5, [None; Some 9; None; None; None; None])]))
    by (vm_compute; reflexivity).
  rewrite Hc in Hget. injection Hget as <-. split; reflexivity.
Defined.

(** ** When the concatenation succeeds *)

Lemma has_duplicates_false (l : list Z) : NoDup l -> has_duplicates l = false.
Proof.
  intros H. unfold has_duplicates. now rewrite bool_decide_eq_true_2.
Qed.

(** A frame without repeated timestamps can always be reindexed. *)
Lemma reindex_unique (target : Index) (df : DataFrame) :
  NoDup (labels df) ->
  reindex target df
  = Ok (mkDF (fst target) (df_columns df)
             (if index_equals target (index df) then df_rows df
              else take_rows target df)).
Proof.
  intros H. unfold reindex. rewrite (has_duplicates_false _ H).
  now destruct (index_equals _ _).
Qed.

Lemma collect_all_Ok {A B} (g : A -> Outcome B) (l : list A) :
  (forall x, In x l -> exists b, g x = Ok b) ->
  exists bs, collect (map g l) = Ok bs.
Proof.
  induction l as [| x l IH]; intros H; simpl; [now exists [] |].
  destruct (H x) as (b & ->); [now left |].
  destruct IH as (bs & ->); [intros y Hy; apply H; now right |].
  simpl. now exists (b :: bs).
Qed.

(** Frames without repeated timestamps, not both zone-naive and zone-aware,
    can be concatenated. *)
Lemma concat_axis1_succeeds (frames : pydict DataFrame) :
  frames <> [] ->
  mixed_awareness (map (fun f => df_kind (snd f)) frames) = false ->
  (forall k df, In (k, df) frames -> NoDup (labels df)) ->
  exists T, concat_axis1 frames = Ok T.
Proof.
  intros Hne Hmix Hnd. unfold concat_axis1.
  destruct frames as [| f0 frames0] eqn:Ef; [congruence |].
  rewrite <- Ef in *. clear Ef f0 frames0 Hne. rewrite Hmix.
  match goal with
  | |- context [collect (map ?g frames)] =>
      destruct (collect_all_Ok g frames) as (cols & ->)
  end.
  - intros [k df] Hin. simpl. rewrite reindex_unique by eauto. simpl. eauto.
  - simpl. eauto.
Qed.

Lemma mixed_awareness_same_kind (kinds : list IndexKind) (k : IndexKind) :
  (forall k', In k' kinds -> k' = k) -> mixed_awareness kinds = false.
Proof.
  intros H. unfold mixed_awareness.
  destruct (existsb is_naive kinds) eqn:En; [| reflexivity].
  destruct (existsb is_aware kinds) eqn:Ea; [| reflexivity].
  apply existsb_exists in En as (k1 & H1 & Hn).
  apply existsb_exists in Ea as (k2 & H2 & Ha).
  rewrite (H k1 H1) in Hn. rewrite (H k2 H2) in Ha.
  destruct k as [| [|]]; discriminate.
Qed.

Lemma mixed_awareness_no_naive (kinds : list IndexKind) :
  (forall k, In k kinds -> is_naive k = false) -> mixed_awareness kinds = false.
Proof.
  intros H. unfold mixed_awareness.
  destruct (existsb is_naive kinds) eqn:En; [| reflexivity].
  apply existsb_exists in En as (k1 & H1 & Hn). rewrite (H k1 H1) in Hn.
  discriminate.
Qed.

Lemma mixed_awareness_no_aware (kinds : list IndexKind) :
  (forall k, In k kinds -> is_aware k = false) -> mixed_awareness kinds = false.
Proof.
  intros H. unfold mixed_awareness.
  destruct (existsb is_aware kinds) eqn:Ea; [| apply andb_false_r].
  apply existsb_exists in Ea as (k1 & H1 & Hn). rewrite (H k1 H1) in Hn.
  discriminate.
Qed.

Lemma first_longest_Some (dfs : list DataFrame) (df : DataFrame) :
  In df dfs -> (0 < len df)%nat -> exists i, reference_index dfs = Some i.
Proof.
  intros Hin Hlen. pose proof (reference_index_first_longest dfs) as H.
  destruct (reference_index dfs) as [i |]; [eauto |].
  simpl in H. rewrite List.Forall_forall in H. specialize (H df Hin). lia.
Qed.

Lemma realigned_unique (target : Index) (df : DataFrame) :
  NoDup (labels df) ->
  df_kind (loc_not_duplicated_last (realigned (Some target) df)) = fst target.
Proof.
  intros H. unfold realigned, DataFrame_from. rewrite reindex_unique by exact H.
  simpl. now rewrite drop_duplicates_kind.
Qed.

(** Lines 192-198 return a table for frames without repeated timestamps of
    which the zone-naive ones have rows: if the first concatenation raises,
    the realignment puts all frames on the reference and the second one
    does not. *)
Lemma concat_or_realign_succeeds (st : Shared) :
  NoDup (dict_keys (_DFS st)) ->
  _DFS st <> [] ->
  (forall k df, In (k, df) (_DFS st) ->
     NoDup (labels df) /\ (is_naive (df_kind df) = true -> (0 < len df)%nat)) ->
  exists T, fst (concat_or_realign st) = Ok T.
Proof.
  intros Hnd Hne Hwf.
  destruct (mixed_awareness (map (fun f => df_kind (snd f)) (_DFS st))) eqn:Emix.
  - (* the first concatenation raises *)
    assert (Hfail : is_ok (concat_axis1 (_DFS st)) = false).
    { unfold concat_axis1. destruct (_DFS st); [reflexivity |]. now rewrite Emix. }
    pose proof (concat_or_realign_failed st Hnd Hfail) as Hcr. cbv zeta in Hcr.
    rewrite Hcr. simpl.
    assert (Hidx : exists target, reference_index (dict_values (_DFS st)) = Some target).
    { unfold mixed_awareness in Emix. apply andb_true_iff in Emix as [En _].
      apply existsb_exists in En as (k & Hk & Hn).
      apply in_map_iff in Hk as ([key df] & <- & Hin). simpl in Hn.
      apply (first_longest_Some _ df).
      - unfold dict_values. apply in_map_iff. now exists (key, df).
      - now apply (Hwf key df Hin). }
    destruct Hidx as (target & ->).
    apply concat_axis1_succeeds.
    + destruct (_DFS st); [congruence | discriminate].
    + apply (mixed_awareness_same_kind _ (fst target)).
      intros k Hk. apply in_map_iff in Hk as ([key df'] & <- & Hin).
      apply in_map_iff in Hin as ([key0 df] & [= <- <-] & Hin).
      simpl. apply realigned_unique. now apply (Hwf key0 df Hin).
    + intros k df' Hin. apply in_map_iff in Hin as ([key0 df] & [= <- <-] & Hin).
      apply drop_duplicated_index_NoDup.
  - destruct (concat_axis1_succeeds (_DFS st) Hne Emix) as (T & HT).
    { intros k df Hin. now apply (Hwf k df Hin). }
    exists T. rewrite concat_or_realign_ok by now rewrite HT. exact HT.
Qed.

(** ** One failing symbol *)

Lemma in_results_of (env : Env) (a : Args) (order : list string) (k : string)
    (df : DataFrame) :
  In (k, df) (results_of env a order) <->
  In k order /\ df = stored (fetched env a k).
Proof.
  unfold results_of. rewrite in_map_iff. split.
  - intros (t & [= <- <-] & Ht). auto.
  - intros (Hk & ->). now exists k.
Qed.

Lemma labels_shift_NoDup (off : Z) (rows : list (Z * list Cell)) :
  NoDup (map fst rows) ->
  NoDup (map fst (map (fun r : Z * list Cell => (fst r + off, snd r)) rows)).
Proof.
  rewrite map_map. simpl. intros H.
  replace (map (fun x : Z * list Cell => fst x + off) rows)
    with (map (fun l => l + off) (map fst rows)) by now rewrite map_map.
  apply NoDup_fmap_2; [| exact H]. intros x y Hxy. lia.
Qed.

(** What line 190 makes of a well-formed series: its timestamps stay
    distinct, and it is zone-naive only if it has rows. *)
Lemma localized_well_formed (df : DataFrame) :
  well_formed df ->
  NoDup (labels (localized df))
  /\ (is_naive (df_kind (localized df)) = true -> (0 < len (localized df))%nat)
  /\ (0 < len df -> df_kind (localized df) = DatetimeIndex None)%nat.
Proof.
  intros [Haw Hnd]. unfold localized.
  destruct (0 <? len df)%nat eqn:Hlen.
  - apply Nat.ltb_lt in Hlen. unfold tz_localize_None.
    destruct df as [[| [off |]] cols rows]; simpl in *; try discriminate.
    split; [now apply labels_shift_NoDup |].
    split; [| reflexivity]. intros _. unfold len in *. simpl in *.
    now rewrite length_map.
  - apply Nat.ltb_ge in Hlen. split; [exact Hnd |]. split; [| lia].
    intros Hn. destruct (df_kind df) as [| [|]]; discriminate.
Qed.

Section OneFailing.

Variables (env : Env) (a : Args).

(** Every fetch of the call either returns a well-formed series or raises. *)
Hypothesis series_well_formed :
  forall t df, In t (symbols env a) -> fetched env a t = Returns df ->
               well_formed df.

Lemma stored_cases (t : string) :
  In t (symbols env a) ->
  stored (fetched env a t) = empty_df None
  \/ well_formed (stored (fetched env a t)).
Proof.
  intros Ht. destruct (fetched env a t) as [df | e tb] eqn:E; simpl.
  - right. now apply (series_well_formed t).
  - now left.
Qed.

(** Line 190 raises for none of the frames. *)
Lemma aligned_Ok :
  aligned env a
  = (Ok tt,
     mkShared (if default_ignore_tz (ignore_tz a) (interval a)
               then map localize_entry (_DFS (fetched_state env a))
               else _DFS (fetched_state env a))
              (_ERRORS (fetched_state env a))
              (_TRACEBACKS (fetched_state env a))
              (_ISINS (fetched_state env a))
              (trace (fetched_state env a)
               ++ (if default_ignore_tz (ignore_tz a) (interval a)
                   then localize_events (_DFS (fetched_state env a))
                   else []))).
Proof.
  unfold aligned. destruct (default_ignore_tz _ _).
  - destruct (localize_all_from [] (_DFS (fetched_state env a))
                (fetched_state env a) eq_refl (fetched_state_keys_NoDup env a))
      as [H | H]; [exact H |].
    exfalso. destruct H as (e & st' & _ & ([k df] & Hin & Hrows & Hkind) & _).
    simpl in Hin. apply in_results_of in Hin as (Hk & ->).
    apply write_order_In in Hk. unfold has_rows in Hrows. simpl in *.
    destruct (stored_cases k Hk) as [Heq | [Haw _]].
    + rewrite Heq in Hrows. discriminate.
    + rewrite Hkind in Haw. discriminate.
  - rewrite app_nil_r. now destruct (fetched_state env a).
Qed.

(** A failing fetch does not keep [download] from returning a table. *)
Lemma download_returns :
  symbols env a <> [] -> exists T, fst (download env a) = Ok T.
Proof.
  intros Hne. rewrite download_eq, aligned_Ok.
  set (st1 := mkShared _ _ _ _ _).
  assert (Hkeys : dict_keys (_DFS st1) = write_order env a).
  { unfold st1. simpl. destruct (default_ignore_tz _ _);
      rewrite ?dict_keys_map_entries by reflexivity; apply results_of_keys. }
  destruct (concat_or_realign_succeeds st1) as (T & HT).
  - rewrite Hkeys. apply write_order_NoDup.
  - intros Hnil. rewrite Hnil in Hkeys. simpl in Hkeys.
    apply Hne. pose proof (write_order_Permutation env a) as Hp.
    rewrite <- Hkeys in Hp. now apply Permutation_nil in Hp.
  - intros k df Hin. unfold st1 in Hin. simpl in Hin.
    destruct (default_ignore_tz _ _).
    + apply in_map_iff in Hin as ([k0 df0] & [= <- <-] & Hin).
      apply in_results_of in Hin as (Hk & ->). apply write_order_In in Hk.
      destruct (stored_cases k0 Hk) as [-> | Hwf].
      * split; [constructor | discriminate].
      * destruct (localized_well_formed _ Hwf) as (H1 & H2 & _). auto.
    + apply in_results_of in Hin as (Hk & ->). apply write_order_In in Hk.
      destruct (stored_cases k Hk) as [-> | [Haw Hnd]].
      * split; [constructor | discriminate].
      * split; [exact Hnd |]. intros Hn.
        destruct (df_kind _) as [| [|]]; discriminate.
  - destruct (concat_or_realign st1) as [[data | e |] st2]; simpl in *;
      try discriminate. eauto.
Qed.

End OneFailing.


Lemma example_series_well_formed (t : string) :
  In t (symbols Examples.env_one_failing Examples.args_one_failing) ->
  t <> "ATVI" ->
  exists df, fetched Examples.env_one_failing Examples.args_one_failing t
             = Returns df /\ well_formed df.
Proof.
  intros Ht Hne.
  assert (Hs : symbols Examples.env_one_failing Examples.args_one_failing
               = ["INTC"; "AAPL"; "ATVI"]) by (vm_compute; reflexivity).
  rewrite Hs in Ht. destruct Ht as [Ht | [Ht | [Ht | []]]].
  - subst t. exists Examples.intc. split; [vm_compute; reflexivity |].
    split; [reflexivity |].
    refine (bool_decide_eq_true_1 (NoDup _) _); vm_compute; reflexivity.
  - subst t. exists Examples.aapl. split; [vm_compute; reflexivity |].
    split; [reflexivity |].
    refine (bool_decide_eq_true_1 (NoDup _) _); vm_compute; reflexivity.
  - exfalso. apply Hne. symmetry. exact Ht.
Qed.


(** ** A call with threads that returns before the error is recorded *)

(** C1 on [download(["AAPL", "ATVI"])] with threads, when the loop of line
    140 sees the two entries of [shared._DFS] before the worker of ATVI has
    run line 267: the fetch of ATVI raises, the placeholder is stored, AAPL
    has its series and [download] returns a table, but [shared._ERRORS] and
    [shared._TRACEBACKS] have no entry for ATVI when [download] returns.
    The synchronous loop on the same tickers has recorded both by then. *)
Theorem error_not_recorded_when_download_returns :
  let env := Examples.env_one_failing in
  let a := Examples.args_invalid_ticker in
  let final := snd (download env a) in
  let final_sync := snd (download env (with_threads (ThreadsBool false) a)) in
  fetch_raises (fetched env a "ATVI") = true
  /\ dict_get "ATVI" (_DFS (fetched_state env a)) = Some (empty_df None)
  /\ dict_get "AAPL" (_DFS (fetched_state env a)) = Some Examples.aapl
  /\ (exists T, fst (download env a) = Ok T)
  /\ dict_get "ATVI" (_ERRORS final) = None
  /\ dict_get "ATVI" (_TRACEBACKS final) = None
  /\ dict_get "ATVI" (_ERRORS final_sync)
     = Some "YFPricesMissingError('no price data found')"
  /\ dict_get "ATVI" (_TRACEBACKS final_sync)
     = Some "Traceback (most recent call last): ...".
Proof.
  cbv zeta. repeat split; try (vm_compute; reflexivity).
  eexists. vm_compute. reflexivity.
Qed.

(** C2 on the same call, N = 2: the table that [download] returns has the
    columns of both symbols, those of AAPL with its values and those of ATVI
    all NaN, while the error map holds no entry instead of one; the
    failures of lines 157-185 are not logged either. *)
Theorem error_map_empty_after_one_failed_fetch :
  let env := Examples.env_one_failing in
  let a := Examples.args_invalid_ticker in
  let final := snd (download env a) in
  symbols env a = ["AAPL"; "ATVI"]
  /\ fetch_raises (fetched env a "AAPL") = false
  /\ fetch_raises (fetched env a "ATVI") = true
  /\ (exists T,
        fst (download env a) = Ok T
        /\ t_columns T
           = [(["Adj Close"; "ATVI"], [None; None]);
              (["Close"; "AAPL"], [Some 1; Some 2]);
              (["Close"; "ATVI"], [None; None]);
              (["High"; "ATVI"], [None; None]);
              (["Low"; "ATVI"], [None; None]);
              (["Open"; "ATVI"], [None; None]);
              (["Volume"; "AAPL"], [Some 10; Some 20]);
              (["Volume"; "ATVI"], [None; None])])
  /\ length (_ERRORS final) = 0%nat
  /\ log_failures final = []
  /\ length (_ERRORS (snd (download env (with_threads (ThreadsBool false) a))))
     = 1%nat.
Proof.
  cbv zeta. repeat split; try (vm_compute; reflexivity).
  eexists. split; vm_compute; reflexivity.
Qed.

(** * Further properties of [download] *)

(** ** The empty call, DEBUG logging *)

Lemma symbols_nil (env : Env) (a : Args) :
  ticker_list (tickers a) = [] -> symbols env a = [].
Proof.
  intros H. unfold symbols, prepare. rewrite H. simpl.
  unfold distinct_upper. simpl. apply elements_empty.
Qed.

(** X3: a call without any ticker raises: [pd.concat] has no objects to
    concatenate, the realignment changes nothing, and the second
    [pd.concat] raises the same [ValueError], which leaves [download]. *)
Theorem download_without_tickers_raises (env : Env) (a : Args) :
  ticker_list (tickers a) = [] ->
  fst (download env a) = Raised "ValueError: No objects to concatenate"
  /\ _DFS (snd (download env a)) = []
  /\ _ERRORS (snd (download env a)) = [].
Proof.
  intros H. apply (symbols_nil env) in H.
  assert (Hw : write_order env a = []).
  { apply Permutation_nil. rewrite <- H. symmetry.
    apply write_order_Permutation. }
  assert (Hrep : reports env a = []).
  { unfold reports, left_behind. rewrite H. simpl.
    induction (landing env) as [| t l IH]; simpl; auto. }
  assert (Herr : _ERRORS (snd (download env a)) = []).
  { destruct (download_frame env a) as (_ & -> & _).
    cbn [_ERRORS fetched_state]. rewrite Hrep, Hw.
    now destruct (truthy _). }
  split; [| split; [| exact Herr]].
  - rewrite download_eq. unfold aligned, fetched_state. rewrite Hw. simpl.
    destruct (default_ignore_tz _ _); reflexivity.
  - rewrite download_eq. unfold aligned, fetched_state. rewrite Hw. simpl.
    destruct (default_ignore_tz _ _); reflexivity.
Qed.

(** X3 on the call [download(" , ,")]. *)
Lemma download_without_tickers_raises_witness :
  fst (download Examples.env_one_failing Examples.args_no_tickers)
  = Raised "ValueError: No objects to concatenate".
Proof.
  assert (H : ticker_list (tickers Examples.args_no_tickers) = [])
    by (vm_compute; reflexivity).
  exact (proj1 (download_without_tickers_raises Examples.env_one_failing
                  Examples.args_no_tickers H)).
Defined.

Lemma write_order_debug (env : Env) (a : Args) :
  debug_logging env = true -> write_order env a = symbols env a.
Proof.
  intros H. unfold write_order, effective_threads. rewrite H. simpl.
  destruct (truthy (threads a)) eqn:E; simpl; rewrite ?E; reflexivity.
Qed.

Lemma write_order_synchronous (env : Env) (a : Args) :
  write_order env (with_threads (ThreadsBool false) a) = symbols env a.
Proof.
  unfold write_order, effective_threads. simpl truthy.
  rewrite andb_false_r. reflexivity.
Qed.

(** X4: with DEBUG logging enabled the threads are switched off (lines
    80-86): whatever [threads] is and whatever the scheduler would do, the
    call is the synchronous call. *)
Theorem debug_logging_makes_the_call_synchronous (env : Env) (a : Args) :
  debug_logging env = true ->
  write_order env a = symbols env a
  /\ download env a = download env (with_threads (ThreadsBool false) a).
Proof.
  intros H. split; [now apply write_order_debug |].
  rewrite (download_is_download_in_order env a).
  2:{ unfold effective_threads. rewrite H. simpl.
      destruct (truthy (threads a)) eqn:E; simpl; rewrite ?E; reflexivity. }
  rewrite (download_is_download_in_order env (with_threads (ThreadsBool false) a)).
  2:{ unfold effective_threads. simpl truthy. now rewrite andb_false_r. }
  reflexivity.
Qed.

(** X4 on a call with threads whose scheduler would reorder the workers. *)
Lemma debug_logging_makes_the_call_synchronous_witness :
  download Examples.env_debug Examples.args_two_symbols
  = download Examples.env_debug
             (with_threads (ThreadsBool false) Examples.args_two_symbols).
Proof.
  exact (proj2 (debug_logging_makes_the_call_synchronous Examples.env_debug
                  Examples.args_two_symbols eq_refl)).
Defined.

(** ** The error report *)

Lemma errors_of_keys (env : Env) (a : Args) (order : list string) :
  dict_keys (errors_of env a order)
  = List.filter (fun t => fetch_raises (fetched env a t)) order.
Proof.
  induction order as [| t r IH]; [reflexivity |].
  rewrite errors_of_cons. simpl.
  destruct (fetched env a t); simpl; now rewrite IH.
Qed.

Lemma tracebacks_of_keys (env : Env) (a : Args) (order : list string) :
  dict_keys (tracebacks_of env a order)
  = List.filter (fun t => fetch_raises (fetched env a t)) order.
Proof.
  induction order as [| t r IH]; [reflexivity |].
  rewrite tracebacks_of_cons. simpl.
  destruct (fetched env a t); simpl; now rewrite IH.
Qed.

(** X5: whatever happens later in the call, an entry that
    [shared._ERRORS] or [shared._TRACEBACKS] has when [download] returns
    belongs to a symbol whose fetch raised, is the [repr] or the traceback of
    its own exception, and that symbol got the empty placeholder in
    [shared._DFS].  Without threads (or with DEBUG logging) the two
    dictionaries hold exactly the symbols whose fetch raised, in the order of
    the loop; with threads the call does not wait for these entries. *)
Theorem error_report_has_only_failed_symbols (env : Env) (a : Args) :
  let final := snd (download env a) in
  (forall k e, dict_get k (_ERRORS final) = Some e ->
     In k (symbols env a) /\ error_of (fetched env a k) = Some e
     /\ dict_get k (_DFS (fetched_state env a)) = Some (empty_df None))
  /\ (forall k tb, dict_get k (_TRACEBACKS final) = Some tb ->
        In k (symbols env a) /\ traceback_of (fetched env a k) = Some tb)
  /\ (truthy (effective_threads env a) = false ->
      dict_keys (_ERRORS final)
      = List.filter (fun t => fetch_raises (fetched env a t)) (symbols env a)
      /\ dict_keys (_TRACEBACKS final) = dict_keys (_ERRORS final)
      /\ forall k : string,
           dict_get k (_ERRORS final)
           = (if bool_decide (k ∈ symbols env a) then error_of (fetched env a k)
              else None)
           /\ dict_get k (_TRACEBACKS final)
              = (if bool_decide (k ∈ symbols env a)
                 then traceback_of (fetched env a k) else None)).
Proof.
  cbv zeta. destruct (download_frame env a) as (_ & He & Ht & _).
  rewrite He, Ht. split; [| split].
  - intros k e Hk. apply reported_error in Hk as (Hin & Hk).
    split; [exact Hin |]. split; [exact Hk |].
    cbn [_DFS fetched_state]. rewrite dict_get_results_of, in_write_order.
    rewrite bool_decide_eq_true_2 by now apply list_elem_of_In.
    destruct (fetched env a k); [discriminate | reflexivity].
  - intros k tb Hk. now apply reported_traceback in Hk.
  - intros Hsync. destruct (reported_without_threads env a Hsync) as [-> ->].
    rewrite errors_of_keys, tracebacks_of_keys.
    split; [reflexivity |]. split; [reflexivity |].
    intros k. now rewrite dict_get_errors_of, dict_get_tracebacks_of.
Qed.

(** ** The rows of the returned table *)

Lemma insert_sorted_Sorted {A} (leb : A -> A -> bool) (x : A) (l : list A) :
  (forall a b, leb a b = true \/ leb b a = true) ->
  Sorted (fun a b => leb a b = true) l ->
  Sorted (fun a b => leb a b = true) (insert_sorted leb x l).
Proof.
  intros Htot Hs. induction Hs as [| y l Hs IH Hhd]; simpl.
  - repeat constructor.
  - destruct (leb x y) eqn:E.
    + constructor; [now constructor | now constructor].
    + constructor; [exact IH |].
      assert (Hyx : leb y x = true).
      { destruct (Htot x y); congruence. }
      destruct Hhd as [| z l' Hyz]; simpl.
      * now constructor.
      * destruct (leb x z); now constructor.
Qed.

(** The sort sorts, for every total comparison. *)
Lemma isort_Sorted {A} (leb : A -> A -> bool) (l : list A) :
  (forall a b, leb a b = true \/ leb b a = true) ->
  Sorted (fun a b => leb a b = true) (isort leb l).
Proof.
  intros Htot. induction l as [| x l IH]; simpl; [constructor |].
  now apply insert_sorted_Sorted.
Qed.

Lemma Zleb_total (x y : Z) : Z.leb x y = true \/ Z.leb y x = true.
Proof. destruct (Z.leb_spec x y); [now left | right; apply Z.leb_le; lia]. Qed.

Lemma remove_first_In (x y : Z) (l : list Z) :
  In y (remove_first x l) -> In y l.
Proof.
  induction l as [| z l IH]; simpl; [tauto |].
  destruct (Z.eqb x z); simpl; tauto.
Qed.

Lemma excess_In (b budget : list Z) (x : Z) : In x (excess b budget) -> In x b.
Proof.
  revert budget. induction b as [| y b IH]; intros budget; simpl; [tauto |].
  destruct (bool_decide _); simpl; [right; eauto |].
  intros [-> | H]; [now left | right; eauto].
Qed.

Lemma excess_covers (b budget : list Z) (x : Z) :
  In x b -> In x budget \/ In x (excess b budget).
Proof.
  revert budget. induction b as [| y b IH]; intros budget; simpl; [tauto |].
  intros [-> | Hin].
  - destruct (bool_decide (x ∈ budget)) eqn:E.
    + left. apply bool_decide_eq_true_1 in E. now apply list_elem_of_In.
    + right. now left.
  - destruct (bool_decide (y ∈ budget)) eqn:E.
    + destruct (IH (remove_first y budget) Hin) as [H | H]; [| now right].
      left. now apply remove_first_In in H.
    + destruct (IH budget Hin) as [H | H]; [now left | right; now right].
Qed.

Lemma union_with_duplicates_In (a b : list Z) (x : Z) :
  In x (union_with_duplicates a b) <-> In x a \/ In x b.
Proof.
  unfold union_with_duplicates. rewrite in_app_iff. split.
  - intros [H | H]; [now left | right; now apply excess_In in H].
  - intros [H | H]; [now left |].
    destruct (excess_covers b a x H); [now left | now right].
Qed.

Lemma foldl_union_In (ls : list (list Z)) (acc : list Z) (x : Z) :
  In x (foldl union_with_duplicates acc ls) <->
  In x acc \/ exists l, In l ls /\ In x l.
Proof.
  revert acc. induction ls as [| l ls IH]; intros acc; simpl.
  - split; [now left | intros [H | (l & [] & _)]; exact H].
  - rewrite IH, union_with_duplicates_In. split.
    + intros [[H | H] | (l' & Hl' & Hx)]; [now left | right | right].
      * exists l. auto.
      * exists l'. auto.
    + intros [H | (l' & [<- | Hl'] & Hx)]; [now left; left | now left; right |].
      right. now exists l'.
Qed.

(** The joined index has the labels of all frames and no others. *)
Lemma combined_labels_In (ls : list (list Z)) (x : Z) :
  In x (combined_labels ls) <-> exists l, In l ls /\ In x l.
Proof.
  unfold combined_labels. split.
  - intros H. apply (Permutation_in _ (isort_Permutation _ _)) in H.
    apply foldl_union_In in H as [[] | H]. exact H.
  - intros H. apply (Permutation_in _ (Permutation_sym (isort_Permutation _ _))).
    apply foldl_union_In. now right.
Qed.

Lemma combined_labels_Sorted (ls : list (list Z)) :
  Sorted (fun x y => Z.leb x y = true) (combined_labels ls).
Proof. apply isort_Sorted, Zleb_total. Qed.

Section Returned.

Variables (env : Env) (a : Args).

(** A returned table is the concatenation of the frames that
    [shared._DFS] holds at the end, after lines 199-208. *)
Lemma download_table (T : Table) :
  fst (download env a) = Ok T ->
  exists data,
    concat_axis1 (_DFS (snd (download env a))) = Ok data
    /\ T = finish a (symbols env a) (_ISINS (initial env a)) data.
Proof.
  intros HT. rewrite download_eq in *.
  pose proof (aligned_frame env a) as Hfr. cbv zeta in Hfr.
  destruct Hfr as (Hkeys & _ & _ & Hisins & _).
  destruct (aligned env a) as [[[] | e |] st1]; simpl in *; try discriminate.
  assert (Hnd : NoDup (dict_keys (_DFS st1))).
  { rewrite Hkeys. apply write_order_NoDup. }
  destruct (is_ok (concat_axis1 (_DFS st1))) eqn:Eok.
  - rewrite (concat_or_realign_ok st1 Eok) in *.
    destruct (concat_axis1 (_DFS st1)) as [data | |] eqn:Ec; simpl in *;
      try discriminate.
    injection HT as <-. exists data. split; [exact Ec | now rewrite Hisins].
  - pose proof (concat_or_realign_failed st1 Hnd Eok) as Hcr. cbv zeta in Hcr.
    rewrite Hcr in *. clear Hcr.
    destruct (concat_axis1 (map _ (_DFS st1))) as [data | |] eqn:Ec; simpl in *;
      try discriminate.
    injection HT as <-. exists data. rewrite Ec. split; [reflexivity |].
    now rewrite Hisins.
Qed.

End Returned.

(** X6: the row index of every returned table is in non-decreasing order and
    holds exactly the timestamps of the frames that [shared._DFS] holds when
    [download] returns: no timestamp of a series is dropped by the
    concatenation and none is invented. *)
Theorem returned_index_is_sorted_union (env : Env) (a : Args) (T : Table) :
  fst (download env a) = Ok T ->
  Sorted (fun x y => Z.leb x y = true) (t_index T)
  /\ forall l : Z,
       In l (t_index T) <->
       exists k df, In (k, df) (_DFS (snd (download env a))) /\ In l (labels df).
Proof.
  intros HT. destruct (download_table env a T HT) as (data & Hc & ->).
  rewrite finish_index. apply concat_axis1_Ok in Hc. cbv zeta in Hc.
  destruct Hc as (rs & _ & ->). simpl.
  split; [apply combined_labels_Sorted |].
  intros l. rewrite combined_labels_In. split.
  - intros (ls & Hls & Hl). apply in_map_iff in Hls as ([k df] & <- & Hin).
    now exists k, df.
  - intros (k & df & Hin & Hl). exists (labels df). split; [| exact Hl].
    apply in_map_iff. now exists (k, df).
Qed.

Lemma example_one_failing_returns :
  exists T,
    fst (download Examples.env_one_failing Examples.args_one_failing) = Ok T.
Proof. eexists. vm_compute. reflexivity. Qed.

(** X6 on the call for AAPL, ATVI and INTC. *)
Lemma returned_index_is_sorted_union_witness :
  exists T,
    fst (download Examples.env_one_failing Examples.args_one_failing) = Ok T
    /\ Sorted (fun x y => Z.leb x y = true) (t_index T).
Proof.
  destruct example_one_failing_returns as (T & HT).
  exists T. split; [exact HT |].
  exact (proj1 (returned_index_is_sorted_union _ _ T HT)).
Defined.

(** ** The cells of the returned table *)

Lemma lookup_map {A B} (f : A -> B) (l : list A) (i : nat) :
  map f l !! i = f <$> (l !! i).
Proof.
  revert i. induction l as [| x l IH]; intros [| i]; simpl; auto.
Qed.

Lemma In_lookup {A} (l : list A) (x : A) : In x l -> exists i, l !! i = Some x.
Proof.
  intros H. apply list_elem_of_In in H. now apply list_elem_of_lookup_1.
Qed.

Lemma lookup_In {A} (l : list A) (i : nat) (x : A) : l !! i = Some x -> In x l.
Proof.
  intros H. apply list_elem_of_In. eapply list_elem_of_lookup_2; eauto.
Qed.

Lemma lookup_row_NoDup (rows : list (Z * list Cell)) (l : Z) (r : list Cell) :
  NoDup (map fst rows) -> In (l, r) rows -> lookup_row l rows = Some r.
Proof.
  induction rows as [| [l' r'] rows IH]; simpl; [tauto |].
  intros Hnd [[= -> ->] | Hin].
  - now rewrite Z.eqb_refl.
  - apply NoDup_cons in Hnd as [Hl Hnd].
    destruct (Z.eqb_spec l l') as [-> | Hne]; [| auto].
    exfalso. apply Hl. apply list_elem_of_In, in_map_iff. now exists (l', r).
Qed.

Lemma has_duplicates_NoDup (l : list Z) : has_duplicates l = false -> NoDup l.
Proof.
  unfold has_duplicates. intros H. apply negb_false_iff in H.
  now apply bool_decide_eq_true_1 in H.
Qed.

(** The rows of a reindexed frame stand on the labels of the target. *)
Lemma reindex_labels (target : Index) (df r : DataFrame) :
  reindex target df = Ok r -> map fst (df_rows r) = snd target.
Proof.
  unfold reindex. destruct (index_equals target (index df)) eqn:Eeq.
  - intros [= <-]. simpl. unfold index_equals in Eeq.
    apply andb_true_iff in Eeq as [Hl _]. apply bool_decide_eq_true_1 in Hl.
    now rewrite Hl.
  - destruct (has_duplicates _); [discriminate |]. intros [= <-]. simpl.
    unfold take_rows. rewrite map_map. simpl. apply map_id.
Qed.

(** Reindexing onto labels that include its own loses no row of a frame. *)
Lemma reindex_keeps_rows (target : Index) (df r : DataFrame) :
  reindex target df = Ok r ->
  comparable (fst target) (df_kind df) = true ->
  (forall l, In l (labels df) -> In l (snd target)) ->
  forall l row, In (l, row) (df_rows df) ->
    exists i, df_rows r !! i = Some (l, row).
Proof.
  unfold reindex. destruct (index_equals target (index df)) eqn:Eeq.
  - intros [= <-] _ _ l row Hin. simpl. now apply In_lookup.
  - destruct (has_duplicates (labels df)) eqn:Edup; [discriminate |].
    intros [= <-] Hcmp Hsub l row Hin. simpl. unfold take_rows. rewrite Hcmp.
    assert (Hl : In l (snd target)).
    { apply Hsub. unfold labels. apply in_map_iff. now exists (l, row). }
    apply In_lookup in Hl as (i & Hi). exists i.
    rewrite lookup_map, Hi. simpl.
    rewrite (lookup_row_NoDup _ l row); [reflexivity | | exact Hin].
    now apply has_duplicates_NoDup.
Qed.

Lemma concat_axis1_not_mixed (frames : pydict DataFrame) (T : Table) :
  concat_axis1 frames = Ok T ->
  mixed_awareness (map (fun f => df_kind (snd f)) frames) = false.
Proof.
  unfold concat_axis1. destruct frames as [| f frames]; [discriminate |].
  destruct (mixed_awareness _); [discriminate | reflexivity].
Qed.

Lemma comparable_same (k : IndexKind) : comparable k k = true.
Proof. now destruct k as [| [|]]. Qed.

(** Labels of a frame can be matched against the joined index. *)
Lemma comparable_combined (kinds : list IndexKind) (k : IndexKind) :
  mixed_awareness kinds = false -> In k kinds ->
  comparable (combined_kind kinds) k = true.
Proof.
  intros Hmix Hin. unfold combined_kind.
  destruct kinds as [| k0 r]; [destruct Hin |].
  destruct (forallb (fun k' => bool_decide (k' = k0)) r) eqn:Eall.
  - assert (k = k0) as ->.
    { destruct Hin as [<- | Hin]; [reflexivity |].
      rewrite forallb_forall in Eall. specialize (Eall k Hin).
      now apply bool_decide_eq_true_1 in Eall. }
    apply comparable_same.
  - destruct (forallb is_aware (k0 :: r)) eqn:Eaw.
    + rewrite forallb_forall in Eaw. specialize (Eaw k Hin).
      destruct k as [| [|]]; try discriminate. reflexivity.
    + now destruct k as [| [|]].
Qed.

Lemma in_map_Ok_combine {A B} (g : A -> Outcome B) (l : list A) (rs : list B)
    (x : A) :
  map g l = map Ok rs -> In x l -> exists r, In (x, r) (combine l rs) /\ g x = Ok r.
Proof.
  revert rs. induction l as [| y l IH]; intros [| r0 rs]; simpl; try tauto;
    try discriminate.
  intros [= Hy Hrest] [-> | Hin].
  - exists r0. auto.
  - destruct (IH rs Hrest Hin) as (r & Hr & Hg). exists r. auto.
Qed.

Lemma nth_nan_row_None (j n : nat) : nth j (nan_row n) (None : Cell) = None.
Proof.
  unfold nan_row. revert j. induction n as [| n IH]; intros [| j]; simpl; auto.
Qed.

(** Every column of every concatenated frame is a column of the table,
    cell by cell on the joined index. *)
Lemma concat_axis1_cells (frames : pydict DataFrame) (data : Table)
    (k : string) (df : DataFrame) (j : nat) (c : string) :
  concat_axis1 frames = Ok data ->
  In (k, df) frames ->
  df_columns df !! j = Some c ->
  exists cells,
    In ([k; c], cells) (t_columns data)
    /\ length cells = length (t_index data)
    /\ (forall l row, In (l, row) (df_rows df) ->
          exists i, t_index data !! i = Some l
                    /\ cells !! i = Some (nth j row None))
    /\ (forall i l v, t_index data !! i = Some l -> cells !! i = Some (Some v) ->
          exists row, In (l, row) (df_rows df) /\ nth j row None = Some v).
Proof.
  intros Hc Hin Hj.
  pose proof (concat_axis1_not_mixed _ _ Hc) as Hmix.
  apply concat_axis1_Ok in Hc. cbv zeta in Hc. destruct Hc as (rs & Hrs & ->).
  set (target := (combined_kind (map (fun f => df_kind (snd f)) frames),
                  combined_labels (map (fun f => labels (snd f)) frames))) in *.
  destruct (in_map_Ok_combine _ _ _ (k, df) Hrs Hin) as (r & Hcomb & Hr).
  simpl in Hr.
  destruct (reindex_columns _ _ _ Hr) as (Hcols & _).
  pose proof (reindex_labels _ _ _ Hr) as Hlab.
  exists (column_cells j (df_rows r)). simpl.
  split; [| split; [| split]].
  - apply in_concat. exists (frame_columns k r). split.
    + apply in_map_iff. now exists ((k, df), r).
    + unfold frame_columns. apply list_elem_of_In.
      apply elem_of_lookup_imap. exists j, c. split; [reflexivity |].
      now rewrite Hcols.
  - unfold column_cells. rewrite length_map.
    change (combined_labels _) with (snd target).
    now rewrite <- Hlab, length_map.
  - intros l row Hrow.
    assert (Hcmp : comparable (fst target) (df_kind df) = true).
    { apply comparable_combined; [exact Hmix |].
      apply in_map_iff. now exists (k, df). }
    assert (Hsub : forall l0, In l0 (labels df) -> In l0 (snd target)).
    { intros l0 Hl0. apply combined_labels_In. exists (labels df).
      split; [| exact Hl0]. apply in_map_iff. now exists (k, df). }
    destruct (reindex_keeps_rows _ _ _ Hr Hcmp Hsub l row Hrow) as (i & Hi).
    exists i. change (combined_labels _) with (snd target).
    rewrite <- Hlab. split.
    + rewrite lookup_map. exact (f_equal (fmap fst) Hi).
    + unfold column_cells.
      rewrite (lookup_map (fun r0 : Z * list Cell => nth j (snd r0) None)).
      exact (f_equal (fmap (fun r0 : Z * list Cell => nth j (snd r0) None)) Hi).
  - intros i l v Hi Hv. change (combined_labels _) with (snd target) in Hi.
    rewrite <- Hlab in Hi. rewrite lookup_map in Hi.
    assert (Hv' : (fun r0 : Z * list Cell => nth j (snd r0) None)
                    <$> (df_rows r !! i) = Some (Some v)).
    { rewrite <- lookup_map. exact Hv. }
    destruct (df_rows r !! i) as [[l' row] |] eqn:Erow; [| discriminate].
    simpl in Hi, Hv'. injection Hi as ->. injection Hv' as Hv'.
    apply lookup_In in Erow.
    destruct (reindex_rows _ _ _ Hr l row Erow) as (_ & [Hrow | ->]).
    + now exists row.
    + rewrite nth_nan_row_None in Hv'. discriminate.
Qed.

(** X7: in every returned table each column of each frame of [shared._DFS]
    stands under the key of its symbol and field, as long as the row index;
    every value of the frame is in the column at the position of its own
    timestamp, and every value in the column is the frame's value at that
    very timestamp: missing combinations are NaN, nothing is interpolated
    or shifted. *)
Theorem cells_stand_at_their_own_timestamps (env : Env) (a : Args) (T : Table)
    (k : string) (df : DataFrame) (j : nat) (c : string) :
  fst (download env a) = Ok T ->
  In (k, df) (_DFS (snd (download env a))) ->
  df_columns df !! j = Some c ->
  exists cells,
    In (final_key a (symbols env a) (_ISINS (initial env a)) [k; c], cells)
       (t_columns T)
    /\ length cells = length (t_index T)
    /\ (forall l row, In (l, row) (df_rows df) ->
          exists i, t_index T !! i = Some l /\ cells !! i = Some (nth j row None))
    /\ (forall i l v, t_index T !! i = Some l -> cells !! i = Some (Some v) ->
          exists row, In (l, row) (df_rows df) /\ nth j row None = Some v).
Proof.
  intros HT Hin Hj. destruct (download_table env a T HT) as (data & Hc & ->).
  destruct (concat_axis1_cells _ _ k df j c Hc Hin Hj)
    as (cells & Hcol & Hlen & Hfw & Hbw).
  exists cells. rewrite finish_index.
  split; [| split; [exact Hlen | split; [exact Hfw | exact Hbw]]].
  apply (Permutation_in _ (Permutation_sym (finish_columns _ _ _ _))).
  apply in_map_iff. now exists ([k; c], cells).
Qed.

(** X7 on the call for AAPL, ATVI and INTC: the closing prices of AAPL. *)
Lemma cells_stand_at_their_own_timestamps_witness :
  exists T cells,
    fst (download Examples.env_one_failing Examples.args_one_failing) = Ok T
    /\ In (["Close"; "AAPL"], cells) (t_columns T)
    /\ length cells = length (t_index T).
Proof.
  destruct example_one_failing_returns as (T & HT).
  assert (Hin : In ("AAPL", Examples.aapl_wall_clock)
                   (_DFS (snd (download Examples.env_one_failing
                                        Examples.args_one_failing)))).
  { vm_compute. tauto. }
  destruct (cells_stand_at_their_own_timestamps Examples.env_one_failing
              Examples.args_one_failing T "AAPL" Examples.aapl_wall_clock
              0%nat "Close" HT Hin eq_refl) as (cells & Hcol & Hlen & _).
  exists T, cells. split; [exact HT |]. split; [| exact Hlen].
  assert (Hkey : final_key Examples.args_one_failing
                   (symbols Examples.env_one_failing Examples.args_one_failing)
                   (_ISINS (initial Examples.env_one_failing
                                    Examples.args_one_failing))
                   ["AAPL"; "Close"] = ["Close"; "AAPL"]).
  { vm_compute. reflexivity. }
  rewrite Hkey in Hcol. exact Hcol.
Defined.

(** ** Failed and fetched symbols in the returned table *)

Lemma drop_duplicates_columns (df : DataFrame) :
  df_columns (drop_duplicates df) = df_columns df.
Proof. unfold drop_duplicates. now destruct (df_columns df) eqn:E. Qed.

(** What the realignment makes of a placeholder: its six columns, NaN rows. *)
Lemma realigned_placeholder (idx : option Index) :
  let d := loc_not_duplicated_last (realigned idx (empty_df None)) in
  df_columns d = price_columns
  /\ forall l row, In (l, row) (df_rows d) -> row = nan_row (length price_columns).
Proof.
  cbv zeta. unfold realigned, DataFrame_from.
  destruct idx as [target |].
  - rewrite reindex_unique by constructor. cbv beta iota.
    split.
    + unfold loc_not_duplicated_last. cbn [df_columns].
      now rewrite drop_duplicates_columns.
    + intros l row Hin. unfold loc_not_duplicated_last in Hin. cbn [df_rows] in Hin.
      apply drop_duplicated_index_In, drop_duplicates_In in Hin.
      cbn [df_rows] in Hin.
      destruct (index_equals _ _); [destruct Hin |].
      unfold take_rows in Hin. apply in_map_iff in Hin as (l0 & Heq & _).
      injection Heq as _ <-.
      now destruct (comparable _ _).
  - cbv beta iota. split; [reflexivity |]. intros l row [].
Qed.

Section Frames.

Variables (env : Env) (a : Args).

(** When [download] returns a table, [shared._DFS] holds these frames, or,
    after a first concatenation that raised, their realignment. *)
Lemma final_frames (T : Table) :
  fst (download env a) = Ok T ->
  (_DFS (snd (download env a)) = frames_before_concat env a
   /\ is_ok (concat_axis1 (frames_before_concat env a)) = true)
  \/ (_DFS (snd (download env a))
      = map (realign_entry
               (reference_index (dict_values (frames_before_concat env a))))
            (frames_before_concat env a)
      /\ is_ok (concat_axis1 (frames_before_concat env a)) = false).
Proof.
  intros HT. rewrite download_eq in *.
  pose proof (aligned_frame env a) as Hfr. cbv zeta in Hfr.
  destruct Hfr as (Hkeys & _ & _ & _ & _ & Hok & _).
  destruct (aligned env a) as [[[] | e |] st1]; simpl in *; try discriminate.
  destruct (Hok eq_refl) as (Hdfs & _).
  assert (Hnd : NoDup (dict_keys (_DFS st1))).
  { rewrite Hkeys. apply write_order_NoDup. }
  change (_DFS st1 = frames_before_concat env a) in Hdfs.
  destruct (is_ok (concat_axis1 (_DFS st1))) eqn:Eok.
  - left. rewrite (concat_or_realign_ok st1 Eok) in *.
    rewrite <- Hdfs. split; [| exact Eok].
    destruct (concat_axis1 (_DFS st1)); reflexivity.
  - right. pose proof (concat_or_realign_failed st1 Hnd Eok) as Hcr.
    cbv zeta in Hcr. rewrite Hcr in *. rewrite <- Hdfs. split; [| exact Eok].
    destruct (concat_axis1 (map _ (_DFS st1))); reflexivity.
Qed.

End Frames.

(** X8: in every returned table a symbol whose fetch raised has the six
    price columns of the placeholder, as long as the row index and NaN
    throughout, also after a realignment. *)
Theorem failed_symbol_has_nan_columns (env : Env) (a : Args) (T : Table)
    (k c : string) :
  fst (download env a) = Ok T ->
  In k (symbols env a) ->
  fetch_raises (fetched env a k) = true ->
  In c price_columns ->
  exists cells,
    In (final_key a (symbols env a) (_ISINS (initial env a)) [k; c], cells)
       (t_columns T)
    /\ length cells = length (t_index T)
    /\ Forall (fun cell : Cell => cell = None) cells.
Proof.
  intros HT Hk Hraise Hc.
  assert (Hstored : stored (fetched env a k) = empty_df None).
  { destruct (fetched env a k); [discriminate | reflexivity]. }
  assert (Hin0 : In (k, empty_df None) (_DFS (fetched_state env a))).
  { simpl. apply in_results_of. split; [now apply write_order_In |].
    now rewrite Hstored. }
  assert (Hin1 : In (k, empty_df None) (frames_before_concat env a)).
  { unfold frames_before_concat. destruct (default_ignore_tz _ _); [| exact Hin0].
    apply in_map_iff. now exists (k, empty_df None). }
  assert (Hfin : exists dfk,
            In (k, dfk) (_DFS (snd (download env a)))
            /\ df_columns dfk = price_columns
            /\ forall l row, In (l, row) (df_rows dfk) ->
                             row = nan_row (length price_columns)).
  { destruct (final_frames env a T HT) as [[-> _] | [-> _]].
    - exists (empty_df None). split; [exact Hin1 |]. split; [reflexivity |].
      intros l row [].
    - eexists. split.
      + apply in_map_iff. exists (k, empty_df None). split; [reflexivity | exact Hin1].
      + apply realigned_placeholder. }
  destruct Hfin as (dfk & Hin & Hcols & Hrows).
  apply In_lookup in Hc as (j & Hj). rewrite <- Hcols in Hj.
  destruct (download_table env a T HT) as (data & Hcat & ->).
  destruct (concat_axis1_cells _ _ k dfk j c Hcat Hin Hj)
    as (cells & Hcol & Hlen & _ & Hbw).
  exists cells. rewrite finish_index.
  split; [| split; [exact Hlen |]].
  - apply (Permutation_in _ (Permutation_sym (finish_columns _ _ _ _))).
    apply in_map_iff. now exists ([k; c], cells).
  - apply List.Forall_forall. intros cell Hcell.
    destruct cell as [v |]; [exfalso | reflexivity].
    apply In_lookup in Hcell as (i & Hi).
    assert (Hidx : exists l, t_index data !! i = Some l).
    { apply lookup_lt_is_Some. rewrite <- Hlen. now apply lookup_lt_Some in Hi. }
    destruct Hidx as (l & Hl).
    destruct (Hbw i l v Hl Hi) as (row & Hrow & Hv).
    rewrite (Hrows l row Hrow), nth_nan_row_None in Hv. discriminate.
Qed.

(** X8 on the call for AAPL, ATVI and INTC: the closing prices of ATVI. *)
Lemma failed_symbol_has_nan_columns_witness :
  exists T cells,
    fst (download Examples.env_one_failing Examples.args_one_failing) = Ok T
    /\ In (["Close"; "ATVI"], cells) (t_columns T)
    /\ Forall (fun cell : Cell => cell = None) cells.
Proof.
  destruct example_one_failing_returns as (T & HT).
  assert (Hin : In "ATVI" (symbols Examples.env_one_failing
                                   Examples.args_one_failing)).
  { vm_compute. tauto. }
  assert (Hr : fetch_raises (fetched Examples.env_one_failing
                                     Examples.args_one_failing "ATVI") = true).
  { vm_compute. reflexivity. }
  assert (Hc : In "Close" price_columns).
  { unfold price_columns. simpl. tauto. }
  destruct (failed_symbol_has_nan_columns Examples.env_one_failing
              Examples.args_one_failing T "ATVI" "Close" HT Hin Hr Hc)
    as (cells & Hcol & _ & Hnan).
  exists T, cells. split; [exact HT |]. split; [| exact Hnan].
  assert (Hkey : final_key Examples.args_one_failing
                   (symbols Examples.env_one_failing Examples.args_one_failing)
                   (_ISINS (initial Examples.env_one_failing
                                    Examples.args_one_failing))
                   ["ATVI"; "Close"] = ["Close"; "ATVI"]).
  { vm_compute. reflexivity. }
  rewrite Hkey in Hcol. exact Hcol.
Defined.



Lemma in_frames_before_concat (env : Env) (a : Args) (k : string) (d : DataFrame) :
  In (k, d) (frames_before_concat env a) <->
  In k (symbols env a)
  /\ d = (if default_ignore_tz (ignore_tz a) (interval a)
          then localized (stored (fetched env a k))
          else stored (fetched env a k)).
Proof.
  unfold frames_before_concat. cbn [_DFS fetched_state].
  destruct (default_ignore_tz _ _).
  - rewrite in_map_iff. split.
    + intros ([k0 d0] & [= <- <-] & Hin). apply in_results_of in Hin as (Hk & ->).
      cbn [snd]. split; [now apply write_order_In | reflexivity].
    + intros (Hk & ->). exists (k, stored (fetched env a k)).
      split; [reflexivity |]. apply in_results_of.
      split; [now apply write_order_In | reflexivity].
  - rewrite in_results_of, write_order_In. reflexivity.
Qed.

Lemma localized_rows (df : DataFrame) (off : Z) :
  df_kind df = DatetimeIndex (Some off) ->
  df_columns (localized df) = df_columns df
  /\ df_rows (localized df)
     = map (fun r : Z * list Cell => (fst r + off, snd r)%Z) (df_rows df).
Proof.
  intros Hk. unfold localized, tz_localize_None. rewrite Hk.
  destruct (0 <? len df)%nat eqn:E; [split; reflexivity |].
  apply Nat.ltb_ge in E. unfold len in E.
  destruct (df_rows df); [split; reflexivity | simpl in E; lia].
Qed.

Section AllSeriesWellFormed.

Variables (env : Env) (a : Args).

Hypothesis series_well_formed :
  forall t df, In t (symbols env a) -> fetched env a t = Returns df ->
               well_formed df.

Hypothesis series_have_rows :
  default_ignore_tz (ignore_tz a) (interval a) = true ->
  forall t df, In t (symbols env a) -> fetched env a t = Returns df ->
               (0 < len df)%nat.

(** The first concatenation of line 193 does not raise. *)
Lemma first_concat_succeeds :
  symbols env a <> [] ->
  is_ok (concat_axis1 (frames_before_concat env a)) = true.
Proof.
  intros Hne.
  destruct (concat_axis1_succeeds (frames_before_concat env a)) as (T & ->);
    [| | | reflexivity].
  - destruct (symbols env a) as [| t0 r] eqn:Es; [congruence |].
    intros Hnil.
    assert (Hin : In (t0, if default_ignore_tz (ignore_tz a) (interval a)
                          then localized (stored (fetched env a t0))
                          else stored (fetched env a t0))
                     (frames_before_concat env a)).
    { apply in_frames_before_concat. rewrite Es. split; [now left | reflexivity]. }
    rewrite Hnil in Hin. destruct Hin.
  - destruct (default_ignore_tz (ignore_tz a) (interval a)) eqn:Eig.
    + apply mixed_awareness_no_aware. intros k Hk.
      apply in_map_iff in Hk as ([t d] & <- & Hin). cbn [snd].
      apply in_frames_before_concat in Hin as (Ht & ->). rewrite Eig.
      destruct (fetched env a t) as [df | e tb] eqn:Ef; [| reflexivity].
      cbn [stored].
      destruct (localized_well_formed df (series_well_formed t df Ht Ef))
        as (_ & _ & Hn).
      now rewrite (Hn (series_have_rows eq_refl t df Ht Ef)).
    + apply mixed_awareness_no_naive. intros k Hk.
      apply in_map_iff in Hk as ([t d] & <- & Hin). cbn [snd].
      apply in_frames_before_concat in Hin as (Ht & ->). rewrite Eig.
      destruct (fetched env a t) as [df | e tb] eqn:Ef; [| reflexivity].
      cbn [stored]. destruct (series_well_formed t df Ht Ef) as [Haw _].
      destruct (df_kind df) as [| [|]]; try discriminate; reflexivity.
  - intros t d Hin. apply in_frames_before_concat in Hin as (Ht & ->).
    destruct (fetched env a t) as [df | e tb] eqn:Ef; cbn [stored].
    + destruct (default_ignore_tz _ _).
      * now apply localized_well_formed, (series_well_formed t).
      * now apply (series_well_formed t df).
    + destruct (default_ignore_tz _ _); constructor.
Qed.

End AllSeriesWellFormed.



(** ** The order of the columns with [group_by='column'] *)

Lemma key_leb_total (a b : list string) :
  key_leb a b = true \/ key_leb b a = true.
Proof.
  revert b. induction a as [| x a IH]; intros [| y b]; simpl; auto.
  rewrite (String.compare_antisym y x).
  destruct (String.compare x y); simpl; auto.
Qed.

Lemma Sorted_map_In {A B} (R : A -> A -> Prop) (R' : B -> B -> Prop)
    (g : A -> B) (l : list A) :
  (forall x y, In x l -> In y l -> R x y -> R' (g x) (g y)) ->
  Sorted R l -> Sorted R' (map g l).
Proof.
  intros Hg Hs. induction Hs as [| x l Hs IH Hhd]; simpl; [constructor |].
  constructor.
  - apply IH. intros u v Hu Hv. apply Hg; now right.
  - destruct Hhd as [| y l Hxy]; simpl; constructor.
    apply Hg; simpl; auto.
Qed.

(** Dropping the second of two levels keeps the order of the keys. *)
Lemma key_leb_drop_second (x1 y1 x2 y2 : string) :
  key_leb [x1; y1] [x2; y2] = true ->
  key_leb (remove_nth 1 [x1; y1]) (remove_nth 1 [x2; y2]) = true.
Proof.
  unfold remove_nth. simpl. now destruct (String.compare x1 x2).
Qed.

(** X11: with [group_by='column'] the column keys of every returned table
    are in lexicographic order, field first: the columns of one field are
    next to each other, the symbols in order below it; this holds also when
    the ticker level is dropped for a single symbol. *)
Theorem columns_are_sorted_by_field (env : Env) (a : Args) (T : Table) :
  fst (download env a) = Ok T ->
  group_by a = "column" ->
  Sorted (fun k1 k2 => key_leb k1 k2 = true) (map fst (t_columns T)).
Proof.
  intros HT Hg.
  destruct (download_table env a T HT) as (data & Hcat & ->).
  apply concat_axis1_keys in Hcat as (_ & Hkeys).
  unfold finish. rewrite Hg. cbn [String.eqb Ascii.eqb Bool.eqb].
  set (cols := t_columns (swaplevel_0_1
                            (rename_columns (_ISINS (initial env a))
                                            (to_datetime_utc data)))).
  assert (Hsorted : Sorted (fun c1 c2 : list string * list Cell =>
                              key_leb (fst c1) (fst c2) = true)
                           (isort (fun c1 c2 => key_leb (fst c1) (fst c2)) cols)).
  { apply (isort_Sorted (fun c1 c2 : list string * list Cell =>
                           key_leb (fst c1) (fst c2))).
    intros c1 c2. apply key_leb_total. }
  destruct (negb (multi_level_index a) && _).
  - cbn [droplevel_rename_axis sort_columns t_columns]. fold cols.
    rewrite map_map. cbn [fst].
    refine (Sorted_map_In _ _ _ _ _ Hsorted).
    intros c1 c2 H1 H2.
    assert (Hlen : forall c, In c (isort (fun c1 c2 : list string * list Cell =>
                                            key_leb (fst c1) (fst c2)) cols) ->
                             exists x y, fst c = [x; y]).
    { intros c Hc. apply (Permutation_in _ (isort_Permutation _ _)) in Hc.
      unfold cols in Hc. cbn in Hc. rewrite map_map in Hc.
      apply in_map_iff in Hc as ([key cells] & <- & Hin). cbn [fst snd].
      destruct (Hkeys key cells Hin) as (k & df & c0 & _ & _ & ->).
      simpl. eauto. }
    destruct (Hlen c1 H1) as (x1 & y1 & ->). destruct (Hlen c2 H2) as (x2 & y2 & ->).
    apply key_leb_drop_second.
  - cbn [sort_columns t_columns]. fold cols.
    refine (Sorted_map_In _ _ _ _ _ Hsorted). auto.
Qed.

(** X11 on the call for AAPL, ATVI and INTC. *)
Lemma columns_are_sorted_by_field_witness :
  exists T,
    fst (download Examples.env_one_failing Examples.args_one_failing) = Ok T
    /\ Sorted (fun k1 k2 => key_leb k1 k2 = true) (map fst (t_columns T)).
Proof.
  destruct example_one_failing_returns as (T & HT).
  exists T. split; [exact HT |].
  apply (columns_are_sorted_by_field Examples.env_one_failing
           Examples.args_one_failing T HT).
  reflexivity.
Defined.

(** ** Tickers given as one string *)

Lemma replace_comma_app (s1 s2 : string) :
  PyStr.replace_comma (s1 ++ s2)%string
  = (PyStr.replace_comma s1 ++ PyStr.replace_comma s2)%string.
Proof. induction s1 as [| c s1 IH]; simpl; [reflexivity | now rewrite IH]. Qed.

Lemma replace_comma_word (w : string) :
  forallb (fun c => negb (is_separator c)) (list_ascii_of_string w) = true ->
  PyStr.replace_comma w = w.
Proof.
  induction w as [| c w IH]; simpl; [reflexivity |].
  intros H. apply andb_true_iff in H as [Hc Hw]. rewrite (IH Hw).
  unfold is_separator in Hc. apply negb_true_iff, orb_false_iff in Hc as [_ Hc].
  now rewrite Hc.
Qed.

(** Reading a run of characters that are not whitespace. *)
Lemma split_ws_aux_word (w r : string) (cur : list ascii) :
  forallb (fun c => negb (is_separator c)) (list_ascii_of_string w) = true ->
  PyStr.split_ws_aux (w ++ r)%string cur
  = PyStr.split_ws_aux r (rev (list_ascii_of_string w) ++ cur).
Proof.
  revert cur. induction w as [| c w IH]; intros cur; simpl; [reflexivity |].
  intros H. apply andb_true_iff in H as [Hc Hw].
  unfold is_separator in Hc. apply negb_true_iff, orb_false_iff in Hc as [Hc _].
  rewrite Hc, (IH _ Hw), <- app_assoc. reflexivity.
Qed.

Lemma flush_word (w : string) :
  is_word w = true ->
  match rev (list_ascii_of_string w) ++ [] with
  | [] => []
  | _ => [string_of_list_ascii (rev (rev (list_ascii_of_string w) ++ []))]
  end = [w].
Proof.
  unfold is_word. cbv zeta. intros H. apply andb_true_iff in H as [Hne _].
  rewrite app_nil_r, rev_involutive, string_of_list_ascii_of_string.
  destruct (list_ascii_of_string w) as [| c l] eqn:E; [discriminate |].
  simpl. now destruct (rev l ++ [c]) eqn:E'; [apply app_eq_nil in E' as [_ [=]] |].
Qed.

Lemma split_comma_separated (ws : list string) :
  Forall (fun w => is_word w = true) ws ->
  PyStr.split_ws_aux (PyStr.replace_comma (String.concat "," ws)) [] = ws.
Proof.
  induction 1 as [| w ws Hw Hws IH]; [reflexivity |].
  assert (Hclean : forallb (fun c => negb (is_separator c))
                           (list_ascii_of_string w) = true).
  { unfold is_word in Hw. now apply andb_true_iff in Hw as [_ Hw]. }
  destruct ws as [| w' ws].
  - cbn [String.concat]. rewrite (replace_comma_word w Hclean).
    assert (Happ : (w ++ EmptyString)%string = w).
    { clear. induction w as [| c w IH]; [reflexivity |].
      change (String c w ++ EmptyString)%string
        with (String c (w ++ EmptyString)%string).
      now rewrite IH. }
    pose proof (split_ws_aux_word w EmptyString [] Hclean) as Hsplit.
    rewrite Happ in Hsplit. rewrite Hsplit.
    cbn [PyStr.split_ws_aux]. now apply flush_word.
  - change (String.concat "," (w :: w' :: ws))
      with (w ++ "," ++ String.concat "," (w' :: ws))%string.
    rewrite !replace_comma_app, (replace_comma_word w Hclean).
    rewrite (split_ws_aux_word w _ [] Hclean).
    change (PyStr.replace_comma ",") with " "%string.
    change (" " ++ ?r)%string with (String " "%char r).
    cbn [PyStr.split_ws_aux].
    change (PyStr.is_space " "%char) with true. cbv iota.
    rewrite (flush_word w Hw), IH. reflexivity.
Qed.

(** What [str.split()] returns are words. *)
Lemma split_ws_aux_words (s : string) (cur : list ascii) (w : string) :
  forallb (fun c => negb (is_separator c)) cur = true ->
  In w (PyStr.split_ws_aux (PyStr.replace_comma s) cur) ->
  is_word w = true.
Proof.
  assert (Hflush : forall cur,
             forallb (fun c => negb (is_separator c)) cur = true ->
             In w match cur with
                  | [] => []
                  | _ => [string_of_list_ascii (rev cur)]
                  end -> is_word w = true).
  { intros [| c l] Hc; [intros [] |]. intros [<- | []].
    unfold is_word. cbv zeta. rewrite list_ascii_of_string_of_list_ascii.
    apply andb_true_iff. split.
    - rewrite length_rev. reflexivity.
    - rewrite forallb_forall in *. intros x Hx. apply Hc. now apply in_rev. }
  revert cur. induction s as [| c s IH]; intros cur Hcur;
    cbn [PyStr.replace_comma PyStr.split_ws_aux].
  - now apply Hflush.
  - destruct (Ascii.eqb c ","%char) eqn:Ec.
    + change (PyStr.is_space " "%char) with true. cbv iota.
      intros Hin. apply in_app_or in Hin as [Hin | Hin];
        [now apply (Hflush cur) | now apply (IH [])].
    + destruct (PyStr.is_space c) eqn:Es.
      * intros Hin. apply in_app_or in Hin as [Hin | Hin];
          [now apply (Hflush cur) | now apply (IH [])].
      * apply IH. cbn [forallb]. rewrite Hcur. unfold is_separator.
        now rewrite Es, Ec.
Qed.

(** X12: tickers that have at least one character and hold neither
    whitespace nor a comma, joined by commas into one string, are read back
    by lines 100-101 as the very list they were: [download("A,B")] works on
    the tickers of [download(["A", "B"])]. *)
Theorem comma_separated_tickers_are_read_back (ws : list string) :
  Forall (fun w => is_word w = true) ws ->
  ticker_list (TickerStr (String.concat "," ws)) = ticker_list (TickerList ws).
Proof. intros Hws. now apply split_comma_separated. Qed.

(** X12 on ["AAPL,MSFT"]. *)
Lemma comma_separated_tickers_are_read_back_witness :
  ticker_list (TickerStr (String.concat "," ["AAPL"; "MSFT"]))
  = ticker_list (TickerList ["AAPL"; "MSFT"]).
Proof.
  apply comma_separated_tickers_are_read_back.
  repeat constructor.
Defined.

(** X13: every ticker read from a string has at least one character and
    holds neither whitespace nor a comma, whatever the string: runs of
    separators, and separators at either end, give no empty ticker. *)
Theorem tickers_read_from_a_string_are_words (s w : string) :
  In w (ticker_list (TickerStr s)) -> is_word w = true.
Proof. apply split_ws_aux_words. reflexivity. Qed.

(** X13 on [" aapl, ,msft "]. *)
Lemma tickers_read_from_a_string_are_words_witness :
  is_word "msft" = true.
Proof.
  apply (tickers_read_from_a_string_are_words " aapl, ,msft " "msft").
  vm_compute. tauto.
Defined.

(** ** Tickers given as ISINs *)

(** Line 108 seen from the ticker list: an ISIN stands for its ticker. *)
Lemma resolve_isins_tickers (env : Env) (l : list string) (st : Shared) :
  fst (resolve_isins env l st)
  = map (fun t => if is_isin env t then get_ticker_by_isin env t else t) l.
Proof.
  revert st. induction l as [| t r IH]; intros st; simpl; [reflexivity |].
  destruct (is_isin env t).
  - specialize (IH (set_ISINS (get_ticker_by_isin env t) t st)).
    destruct (resolve_isins env r _) as [r' st']. simpl in *. now rewrite IH.
  - specialize (IH st).
    destruct (resolve_isins env r st) as [r' st']. simpl in *. now rewrite IH.
Qed.

(** An entry of [shared._ISINS] stays when no other ISIN of the list has
    the same ticker. *)
Lemma resolve_isins_keeps (env : Env) (l : list string) (st : Shared)
    (tk isin : string) :
  dict_get tk (_ISINS st) = Some isin ->
  (forall other, In other l -> is_isin env other = true ->
                 get_ticker_by_isin env other = tk -> other = isin) ->
  dict_get tk (_ISINS (snd (resolve_isins env l st))) = Some isin.
Proof.
  revert st. induction l as [| t r IH]; intros st Hget Huniq; simpl; [exact Hget |].
  destruct (is_isin env t) eqn:Eis.
  - specialize (IH (set_ISINS (get_ticker_by_isin env t) t st)).
    destruct (resolve_isins env r _) as [r' st']. simpl in *. apply IH.
    + destruct (String.eqb_spec (get_ticker_by_isin env t) tk) as [E | E].
      * rewrite E, dict_get_set_eq. f_equal. apply Huniq; auto.
      * now rewrite dict_get_set_ne.
    + intros other Ho. apply Huniq. now right.
  - specialize (IH st).
    destruct (resolve_isins env r st) as [r' st']. simpl in *. apply IH; [exact Hget |].
    intros other Ho. apply Huniq. now right.
Qed.

(** Lines 106-110: after the loop [shared._ISINS] maps the ticker of an ISIN
    of the list to that ISIN. *)
Lemma resolve_isins_get (env : Env) (l : list string) (st : Shared)
    (isin : string) :
  In isin l -> is_isin env isin = true ->
  (forall other, In other l -> is_isin env other = true ->
                 get_ticker_by_isin env other = get_ticker_by_isin env isin ->
                 other = isin) ->
  dict_get (get_ticker_by_isin env isin) (_ISINS (snd (resolve_isins env l st)))
  = Some isin.
Proof.
  revert st. induction l as [| t r IH]; intros st Hin His Huniq; [destruct Hin |].
  assert (Hr : forall other, In other r -> is_isin env other = true ->
                 get_ticker_by_isin env other = get_ticker_by_isin env isin ->
                 other = isin).
  { intros other Ho. apply Huniq. now right. }
  destruct (in_dec String.string_dec isin r) as [Hinr | Hnotr].
  - simpl. destruct (is_isin env t).
    + specialize (IH (set_ISINS (get_ticker_by_isin env t) t st) Hinr His Hr).
      destruct (resolve_isins env r _) as [r' st']. exact IH.
    + specialize (IH st Hinr His Hr).
      destruct (resolve_isins env r st) as [r' st']. exact IH.
  - destruct Hin as [-> | Hin]; [| contradiction].
    simpl. rewrite His.
    pose proof (resolve_isins_keeps env r
                  (set_ISINS (get_ticker_by_isin env isin) isin st)
                  (get_ticker_by_isin env isin) isin) as Hkeep.
    destruct (resolve_isins env r _) as [r' st']. apply Hkeep; [| exact Hr].
    simpl. apply dict_get_set_eq.
Qed.

Lemma rename_label_nil (x : string) : rename_label [] x = x.
Proof. reflexivity. Qed.

(** The renaming of line 201 apart, [final_key] lays a key out. *)
Lemma final_key_renamed (a : Args) (tkrs : list string) (isins : pydict string)
    (key : list string) :
  final_key a tkrs isins key
  = final_key a tkrs [] (map (rename_label isins) key).
Proof.
  unfold final_key. f_equal.
  now rewrite (map_ext _ (fun x => x) rename_label_nil), map_id.
Qed.

(** X14: a ticker given as an ISIN.  When the lookup of line 108 gives a
    ticker in upper case, and no other ISIN of the call has the same ticker,
    then [shared._ISINS] maps the ticker to the ISIN, the series is fetched
    and stored under the ticker, and in the returned table its columns are
    labelled with the ISIN again (line 201), each value at its timestamp. *)
Theorem isin_is_restored_in_the_column_keys (env : Env) (a : Args) (T : Table)
    (isin : string) :
  fst (download env a) = Ok T ->
  In isin (ticker_list (tickers a)) ->
  is_isin env isin = true ->
  PyStr.upper (get_ticker_by_isin env isin) = get_ticker_by_isin env isin ->
  (forall other, In other (ticker_list (tickers a)) ->
     is_isin env other = true ->
     get_ticker_by_isin env other = get_ticker_by_isin env isin ->
     other = isin) ->
  dict_get (get_ticker_by_isin env isin) (_ISINS (initial env a)) = Some isin
  /\ In (get_ticker_by_isin env isin) (symbols env a)
  /\ exists df,
       In (get_ticker_by_isin env isin, df) (_DFS (snd (download env a)))
       /\ forall j c,
            df_columns df !! j = Some c ->
            dict_get c (_ISINS (initial env a)) = None ->
            exists cells,
              In (final_key a (symbols env a) [] [isin; c], cells) (t_columns T)
              /\ forall l row, In (l, row) (df_rows df) ->
                   exists i, t_index T !! i = Some l
                             /\ cells !! i = Some (nth j row None).
Proof.
  intros HT Hin His Hup Huniq.
  set (tk := get_ticker_by_isin env isin) in *.
  assert (Hget : dict_get tk (_ISINS (initial env a)) = Some isin).
  { unfold initial, prepare.
    pose proof (resolve_isins_get env (ticker_list (tickers a))
                  (mkShared [] [] [] [] []) isin Hin His Huniq) as H.
    destruct (resolve_isins env _ _) as [r st]. exact H. }
  assert (Hsym : In tk (symbols env a)).
  { rewrite symbols_eq. apply distinct_upper_In. rewrite <- Hup.
    apply in_map. unfold resolved_tickers. rewrite resolve_isins_tickers.
    apply in_map_iff. exists isin. now rewrite His. }
  split; [exact Hget |]. split; [exact Hsym |].
  destruct (download_frame env a) as (Hkeys & _).
  assert (Hk : In tk (dict_keys (_DFS (snd (download env a))))).
  { rewrite Hkeys. now apply write_order_In. }
  apply in_map_iff in Hk as ([k df] & Hfst & Hdf). simpl in Hfst. subst k.
  exists df. split; [exact Hdf |].
  intros j c Hj Hc.
  destruct (download_table env a T HT) as (data & Hcat & ->).
  destruct (concat_axis1_cells _ _ tk df j c Hcat Hdf Hj)
    as (cells & Hcol & _ & Hfw & _).
  exists cells. split.
  - apply (Permutation_in _ (Permutation_sym (finish_columns _ _ _ _))).
    apply in_map_iff. exists ([tk; c], cells). split; [| exact Hcol].
    cbn [fst snd]. rewrite final_key_renamed. cbn [map].
    unfold rename_label at 1 2. now rewrite Hget, Hc.
  - intros l row Hrow. rewrite finish_index. now apply Hfw.
Qed.

Lemma example_isin_returns :
  exists T, fst (download Examples.env_isin Examples.args_isin) = Ok T.
Proof. eexists. vm_compute. reflexivity. Qed.

(** X14 on a call with the ISIN of AAPL. *)
Lemma isin_is_restored_in_the_column_keys_witness :
  exists T cells,
    fst (download Examples.env_isin Examples.args_isin) = Ok T
    /\ dict_get "AAPL" (_ISINS (initial Examples.env_isin Examples.args_isin))
       = Some "US0378331005"
    /\ In (["US0378331005"; "Close"], cells) (t_columns T).
Proof.
  destruct example_isin_returns as (T & HT).
  destruct (isin_is_restored_in_the_column_keys Examples.env_isin
              Examples.args_isin T "US0378331005" HT)
    as (Hget & _ & df & Hdf & Hcols).
  - simpl. tauto.
  - reflexivity.
  - reflexivity.
  - intros other _ His _. now apply String.eqb_eq in His.
  - assert (Hd : _DFS (snd (download Examples.env_isin Examples.args_isin))
                 = [("INTC", localized Examples.intc);
                    ("AAPL", Examples.aapl_wall_clock)])
      by (vm_compute; reflexivity).
    assert (Hc : df_columns df !! 0%nat = Some "Close").
    { change (get_ticker_by_isin Examples.env_isin "US0378331005")
        with "AAPL" in Hdf.
      rewrite Hd in Hdf. destruct Hdf as [Hdf | [Hdf | []]].
      - discriminate Hdf.
      - injection Hdf as <-. reflexivity. }
    destruct (Hcols 0%nat "Close" Hc) as (cells & Hcol & _).
    { vm_compute. reflexivity. }
    exists T, cells. split; [exact HT |]. split; [exact Hget |].
    assert (Hkey : final_key Examples.args_isin
                     (symbols Examples.env_isin Examples.args_isin) []
                     ["US0378331005"; "Close"] = ["US0378331005"; "Close"])
      by (vm_compute; reflexivity).
    rewrite Hkey in Hcol. exact Hcol.
Defined.

(** A ticker that no lookup of line 108 returns has no entry in
    [shared._ISINS]. *)
Lemma resolve_isins_get_None (env : Env) (l : list string) (st : Shared)
    (k : string) :
  dict_get k (_ISINS st) = None ->
  (forall other, In other l -> is_isin env other = true ->
                 get_ticker_by_isin env other <> k) ->
  dict_get k (_ISINS (snd (resolve_isins env l st))) = None.
Proof.
  revert st. induction l as [| t r IH]; intros st Hget Hno; simpl; [exact Hget |].
  destruct (is_isin env t) eqn:Eis.
  - specialize (IH (set_ISINS (get_ticker_by_isin env t) t st)).
    destruct (resolve_isins env r _) as [r' st']. simpl in *. apply IH.
    + rewrite dict_get_set_ne; [exact Hget |]. apply Hno; auto.
    + intros other Ho. apply Hno. now right.
  - specialize (IH st).
    destruct (resolve_isins env r st) as [r' st']. simpl in *. apply IH; [exact Hget |].
    intros other Ho. apply Hno. now right.
Qed.

(** X15: the entry of [shared._ISINS] is written under the ticker as the
    lookup spells it (line 109), the series is stored under the ticker in
    upper case (line 115).  When the upper-case spelling is not what a lookup
    of the call returned, line 201 renames nothing for the symbol: its
    columns stay labelled with the ticker, not with the ISIN. *)
Theorem isin_is_lost_without_upper_case_lookup (env : Env) (a : Args)
    (T : Table) (isin : string) :
  fst (download env a) = Ok T ->
  In isin (ticker_list (tickers a)) ->
  is_isin env isin = true ->
  (forall other, In other (ticker_list (tickers a)) ->
     is_isin env other = true ->
     get_ticker_by_isin env other <> PyStr.upper (get_ticker_by_isin env isin)) ->
  dict_get (PyStr.upper (get_ticker_by_isin env isin)) (_ISINS (initial env a))
  = None
  /\ exists df,
       In (PyStr.upper (get_ticker_by_isin env isin), df)
          (_DFS (snd (download env a)))
       /\ forall j c,
            df_columns df !! j = Some c ->
            dict_get c (_ISINS (initial env a)) = None ->
            exists cells,
              In (final_key a (symbols env a) []
                            [PyStr.upper (get_ticker_by_isin env isin); c], cells)
                 (t_columns T).
Proof.
  intros HT Hin His Hno.
  set (tk := PyStr.upper (get_ticker_by_isin env isin)) in *.
  assert (Hget : dict_get tk (_ISINS (initial env a)) = None).
  { unfold initial, prepare.
    pose proof (resolve_isins_get_None env (ticker_list (tickers a))
                  (mkShared [] [] [] [] []) tk eq_refl Hno) as H.
    destruct (resolve_isins env _ _) as [r st]. exact H. }
  assert (Hsym : In tk (symbols env a)).
  { rewrite symbols_eq. apply distinct_upper_In. unfold tk.
    apply in_map. unfold resolved_tickers. rewrite resolve_isins_tickers.
    apply in_map_iff. exists isin. now rewrite His. }
  split; [exact Hget |].
  destruct (download_frame env a) as (Hkeys & _).
  assert (Hk : In tk (dict_keys (_DFS (snd (download env a))))).
  { rewrite Hkeys. now apply write_order_In. }
  apply in_map_iff in Hk as ([k df] & Hfst & Hdf). simpl in Hfst. subst k.
  exists df. split; [exact Hdf |].
  intros j c Hj Hc.
  destruct (download_table env a T HT) as (data & Hcat & ->).
  destruct (concat_axis1_cells _ _ tk df j c Hcat Hdf Hj)
    as (cells & Hcol & _).
  exists cells.
  apply (Permutation_in _ (Permutation_sym (finish_columns _ _ _ _))).
  apply in_map_iff. exists ([tk; c], cells). split; [| exact Hcol].
  cbn [fst snd]. rewrite final_key_renamed. cbn [map].
  unfold rename_label at 1 2. now rewrite Hget, Hc.
Qed.

Lemma example_isin_lower_returns :
  exists T, fst (download Examples.env_isin_lower Examples.args_isin) = Ok T.
Proof. eexists. vm_compute. reflexivity. Qed.

(** X15 on a call with the ISIN of AAPL, the lookup answering [aapl]. *)
Lemma isin_is_lost_without_upper_case_lookup_witness :
  exists T cells,
    fst (download Examples.env_isin_lower Examples.args_isin) = Ok T
    /\ In (["AAPL"; "Close"], cells) (t_columns T).
Proof.
  destruct example_isin_lower_returns as (T & HT).
  destruct (isin_is_lost_without_upper_case_lookup Examples.env_isin_lower
              Examples.args_isin T "US0378331005" HT)
    as (_ & df & Hdf & Hcols).
  - simpl. tauto.
  - reflexivity.
  - intros other _ _. discriminate.
  - assert (Hd : _DFS (snd (download Examples.env_isin_lower Examples.args_isin))
                 = [("INTC", localized Examples.intc);
                    ("AAPL", Examples.aapl_wall_clock)])
      by (vm_compute; reflexivity).
    assert (Hc : df_columns df !! 0%nat = Some "Close").
    { change (PyStr.upper
                (get_ticker_by_isin Examples.env_isin_lower "US0378331005"))
        with "AAPL" in Hdf.
      rewrite Hd in Hdf. destruct Hdf as [Hdf | [Hdf | []]].
      - discriminate Hdf.
      - injection Hdf as <-. reflexivity. }
    destruct (Hcols 0%nat "Close" Hc) as (cells & Hcol).
    { vm_compute. reflexivity. }
    exists T, cells. split; [exact HT |].
    assert (Hkey : final_key Examples.args_isin
                     (symbols Examples.env_isin_lower Examples.args_isin) []
                     [PyStr.upper (get_ticker_by_isin Examples.env_isin_lower
                                                      "US0378331005"); "Close"]
                   = ["AAPL"; "Close"])
      by (vm_compute; reflexivity).
    rewrite Hkey in Hcol. exact Hcol.
Defined.

(** ** The failures sent to the log (lines 157-185) *)

(** One turn of the loop: a new message opens a group at the end, a known
    one gets the symbol appended where it stands. *)
Lemma group_step_shape (d : pydict string) (g : pydict (list string))
    (t err : string) :
  dict_get t d = Some err ->
  let m := PyStr.replace t "%ticker%" err in
  (~ In m (dict_keys g) /\ group_step d g t = g ++ [(m, [t])])
  \/ (exists g1 l g2, g = g1 ++ (m, l) :: g2
                      /\ group_step d g t = g1 ++ (m, l ++ [t]) :: g2).
Proof.
  intros Hd m. unfold group_step. rewrite Hd. fold m.
  destruct (dict_get m g) as [l |] eqn:Eg.
  - right. destruct (dict_get_split g m l Eg) as (g1 & g2 & -> & Hn).
    exists g1, l, g2. split; [reflexivity |]. now apply dict_set_middle.
  - left. apply dict_get_None_keys in Eg. split; [exact Eg |].
    now apply dict_set_new.
Qed.

Section Grouping.

Variable d : pydict string.

Lemma group_step_invariant (g : pydict (list string)) (t err : string) :
  dict_get t d = Some err ->
  NoDup (dict_keys g) -> well_grouped d g ->
  NoDup (dict_keys (group_step d g t))
  /\ well_grouped d (group_step d g t)
  /\ Permutation (concat (dict_values (group_step d g t)))
                 (concat (dict_values g) ++ [t])
  /\ exists ts, dict_get (PyStr.replace t "%ticker%" err) (group_step d g t)
                = Some ts /\ In t ts.
Proof.
  intros Hd Hnd Hwg.
  destruct (group_step_shape d g t err Hd) as [[Hn ->] | (g1 & l & g2 & -> & ->)].
  - split; [| split; [| split]].
    + unfold dict_keys in *. rewrite map_app. simpl.
      apply NoDup_app. split; [exact Hnd |]. split; [| apply NoDup_singleton].
      intros x Hx Hm. apply list_elem_of_In in Hm as [<- | []].
      now apply Hn, list_elem_of_In.
    + intros m ts Hin. apply in_app_or in Hin as [Hin | [[= <- <-] | []]].
      * now apply Hwg.
      * split; [discriminate |]. intros t' [<- | []]. eauto.
    + unfold dict_values. rewrite map_app, concat_app. reflexivity.
    + exists [t]. split; [| now left].
      replace (g ++ [(PyStr.replace t "%ticker%" err, [t])])
        with (g ++ (PyStr.replace t "%ticker%" err, [t]) :: []) by reflexivity.
      now apply dict_get_middle.
  - assert (Hn : ~ In (PyStr.replace t "%ticker%" err) (dict_keys g1)).
    { unfold dict_keys in Hnd. rewrite map_app in Hnd. simpl in Hnd.
      apply NoDup_app in Hnd as (_ & Hd1 & _).
      intros Hin. apply list_elem_of_In in Hin. apply (Hd1 _ Hin). left. }
    split; [| split; [| split]].
    + unfold dict_keys in *. rewrite map_app in *. exact Hnd.
    + intros m ts Hin. apply in_app_or in Hin as [Hin | [[= <- <-] | Hin]].
      * apply Hwg, in_or_app. now left.
      * split; [now destruct l |].
        intros t' Ht'. apply in_app_or in Ht' as [Ht' | [<- | []]]; [| eauto].
        assert (Hl : In (PyStr.replace t "%ticker%" err, l)
                        (g1 ++ (PyStr.replace t "%ticker%" err, l) :: g2)).
        { apply in_or_app. right. now left. }
        destruct (Hwg _ l Hl) as (_ & H). now apply H.
      * apply Hwg, in_or_app. right. now right.
    + unfold dict_values. rewrite !map_app, !concat_app. simpl.
      rewrite <- !app_assoc. apply Permutation_app_head.
      apply Permutation_app_head. apply Permutation_app_comm.
    + exists (l ++ [t]). split; [now apply dict_get_middle |].
      apply in_or_app. right. now left.
Qed.

Lemma group_fold_invariant (ks : list string) (g : pydict (list string)) :
  (forall t, In t ks -> exists err, dict_get t d = Some err) ->
  NoDup (dict_keys g) -> well_grouped d g ->
  let g' := foldl (group_step d) g ks in
  NoDup (dict_keys g') /\ well_grouped d g'
  /\ Permutation (concat (dict_values g')) (concat (dict_values g) ++ ks).
Proof.
  revert g. induction ks as [| t ks IH]; intros g Hks Hnd Hwg; simpl.
  - split; [exact Hnd |]. split; [exact Hwg |]. now rewrite app_nil_r.
  - destruct (Hks t (or_introl eq_refl)) as (err & Hd).
    destruct (group_step_invariant g t err Hd Hnd Hwg) as (Hnd' & Hwg' & Hp & _).
    destruct (IH (group_step d g t) (fun x Hx => Hks x (or_intror Hx)) Hnd' Hwg')
      as (H1 & H2 & H3).
    split; [exact H1 |]. split; [exact H2 |].
    rewrite H3, Hp, <- app_assoc. reflexivity.
Qed.

End Grouping.

Lemma failures_grouping (d : pydict string) :
  NoDup (dict_keys (group_by_message d))
  /\ Permutation (concat (dict_values (group_by_message d))) (dict_keys d)
  /\ well_grouped d (group_by_message d).
Proof.
  unfold group_by_message.
  destruct (group_fold_invariant d (dict_keys d) []) as (H1 & H2 & H3).
  - intros t. apply dict_get_key.
  - constructor.
  - intros m ts [].
  - split; [exact H1 |]. split; [exact H3 |]. exact H2.
Qed.

(** X16: the grouping of lines 163-170 and 174-181.  The messages of the
    groups are pairwise distinct, no group is empty, every key of the
    dictionary read stands in exactly one group, and a symbol stands in the
    group of its own message with its own name replaced by [%ticker%]. *)
Theorem failures_are_grouped_by_message (d : pydict string) :
  let g := group_by_message d in
  NoDup (dict_keys g)
  /\ Permutation (concat (dict_values g)) (dict_keys d)
  /\ forall m ts, In (m, ts) g ->
       ts <> []
       /\ forall t, In t ts ->
            exists err, dict_get t d = Some err
                        /\ PyStr.replace t "%ticker%" err = m.
Proof.
  cbv zeta. destruct (failures_grouping d) as (H1 & H2 & H3).
  split; [exact H1 |]. split; [exact H2 |]. exact H3.
Qed.

(** Two symbols that failed alike are reported in one line. *)
Lemma group_by_message_example :
  group_by_message
    [("ATVI", "YFPricesMissingError('$ATVI: possibly delisted')");
     ("INTC", "ConnectionError('timed out')");
     ("TWTR", "YFPricesMissingError('$TWTR: possibly delisted')")]
  = [("YFPricesMissingError('$%ticker%: possibly delisted')", ["ATVI"; "TWTR"]);
     ("ConnectionError('timed out')", ["INTC"])].
Proof. vm_compute. reflexivity. Qed.

(** X17: what a call without threads (or with DEBUG logging) sends to the
    log.  Nothing when no fetch raised.  Otherwise one record with the number
    of failed symbols, in the plural for more than one, then the error lines
    and the traceback lines; the symbols of the error lines together are
    exactly the symbols whose fetch raised, each once, and so are those of
    the traceback lines; no message and no traceback has two lines. *)
Theorem failure_log_of_a_call (env : Env) (a : Args) :
  truthy (effective_threads env a) = false ->
  let final := snd (download env a) in
  let failed :=
    List.filter (fun t => fetch_raises (fetched env a t)) (symbols env a) in
  (failed = [] -> log_failures final = [])
  /\ (failed <> [] ->
      exists errs tbs : pydict (list string),
        log_failures final
        = FailedDownloads (length failed) (1 <? length failed)%nat
          :: map (fun g => ErrorLine (snd g) (fst g)) errs
          ++ map (fun g => DebugLine (snd g) (fst g)) tbs
        /\ NoDup (dict_keys errs) /\ NoDup (dict_keys tbs)
        /\ Permutation (concat (dict_values errs)) failed
        /\ Permutation (concat (dict_values tbs)) failed).
Proof.
  intros Hsync. cbv zeta.
  destruct (download_frame env a) as (_ & He & Ht & _).
  destruct (reported_without_threads env a Hsync) as [He' Ht'].
  pose proof (errors_of_keys env a (symbols env a)) as Hek.
  pose proof (tracebacks_of_keys env a (symbols env a)) as Htk.
  rewrite <- He', <- He in Hek. rewrite <- Ht', <- Ht in Htk.
  unfold log_failures. split.
  - intros Hnone. rewrite Hnone in Hek.
    destruct (_ERRORS (snd (download env a))); [reflexivity | discriminate].
  - intros Hsome.
    exists (group_by_message (_ERRORS (snd (download env a)))),
           (group_by_message (_TRACEBACKS (snd (download env a)))).
    destruct (failures_grouping (_ERRORS (snd (download env a))))
      as (He1 & He2 & _).
    destruct (failures_grouping (_TRACEBACKS (snd (download env a))))
      as (Ht1 & Ht2 & _).
    rewrite Hek in He2. rewrite Htk in Ht2.
    split; [| now repeat split].
    assert (Hlen : length (_ERRORS (snd (download env a)))
                   = length (List.filter (fun t => fetch_raises (fetched env a t))
                                         (symbols env a))).
    { rewrite <- Hek. unfold dict_keys. now rewrite length_map. }
    rewrite Hlen.
    destruct (_ERRORS (snd (download env a))) eqn:E; [| reflexivity].
    simpl in Hek. congruence.
Qed.

(** X17 on the call for AAPL, ATVI and INTC, which has no threads. *)
Lemma failure_log_of_a_call_witness :
  exists errs tbs : pydict (list string),
    log_failures (snd (download Examples.env_one_failing
                                Examples.args_one_failing))
    = FailedDownloads 1 false
      :: map (fun g => ErrorLine (snd g) (fst g)) errs
      ++ map (fun g => DebugLine (snd g) (fst g)) tbs
    /\ Permutation (concat (dict_values errs)) ["ATVI"].
Proof.
  assert (Hf : List.filter
                 (fun t => fetch_raises (fetched Examples.env_one_failing
                                                 Examples.args_one_failing t))
                 (symbols Examples.env_one_failing Examples.args_one_failing)
               = ["ATVI"]) by (vm_compute; reflexivity).
  destruct (failure_log_of_a_call Examples.env_one_failing
              Examples.args_one_failing eq_refl) as (_ & H).
  rewrite Hf in H. destruct H as (errs & tbs & Hlog & _ & _ & Hp & _).
  - discriminate.
  - exists errs, tbs. split; [exact Hlog | exact Hp].
Defined.

(** A message without the name of the symbol is left as it is by line 166. *)
Lemma replace_without_occurrence (old new s : string) :
  PyStr.contains old s = false -> PyStr.replace old new s = s.
Proof.
  intros H. unfold PyStr.replace. destruct old as [| c0 old].
  - destruct s; discriminate H.
  - induction s as [| c s IH]; [reflexivity |].
    cbn [PyStr.contains] in H. apply orb_false_iff in H as [Hp Hc].
    cbn [PyStr.replace_from]. rewrite Hp, (IH Hc). reflexivity.
Qed.

(** X18: when no message holds the name of its own symbol, the lines of the
    log carry the messages as [shared._ERRORS] has them: every symbol of a
    line has exactly the message of the line. *)
Theorem messages_without_the_ticker_are_logged_unchanged (d : pydict string) :
  (forall t err, In (t, err) d -> PyStr.contains t err = false) ->
  forall m ts t,
    In (m, ts) (group_by_message d) -> In t ts -> dict_get t d = Some m.
Proof.
  intros Hno m ts t Hin Ht.
  destruct (failures_grouping d) as (_ & _ & Hwg).
  destruct (Hwg m ts Hin) as (_ & H).
  destruct (H t Ht) as (err & Hget & Hrep).
  rewrite (replace_without_occurrence t "%ticker%" err) in Hrep.
  - now rewrite Hget, Hrep.
  - apply Hno. now apply dict_get_Some_In.
Qed.

(** X18 on two symbols that time out. *)
Lemma messages_without_the_ticker_are_logged_unchanged_witness :
  dict_get "INTC" [("AAPL", "ConnectionError('timed out')");
                   ("INTC", "ConnectionError('timed out')")]
  = Some "ConnectionError('timed out')".
Proof.
  apply (messages_without_the_ticker_are_logged_unchanged
           [("AAPL", "ConnectionError('timed out')");
            ("INTC", "ConnectionError('timed out')")])
    with (ts := ["AAPL"; "INTC"]).
  - intros t err [[= <- <-] | [[= <- <-] | []]]; vm_compute; reflexivity.
  - vm_compute. tauto.
  - simpl. tauto.
Defined.
